(** * Checklist reconciliation of the document-intake service

    A shallow embedding of the SQLAlchemy models ([app/models]), of the
    checklist service ([app/services/checklist_service.py]) and of the
    endpoints that drive it ([app/api]), followed by the properties of the
    reconciliation engine.

    Tables are lists of rows, a [select ... where ...] is a [filter], and the
    coroutines that take an [AsyncSession] are functions in a small
    state-and-exception monad over the session. Python's [int] is [Z], and
    its [float] is an IEEE 754 binary64 number ([SpecFloat]). *)

From Stdlib Require Import ZArith List String Bool Lia.
From Stdlib.Strings Require Import Byte.
From Stdlib.Floats Require SpecFloat.
Import ListNotations.
Local Open Scope string_scope.
Local Open Scope list_scope.
Local Open Scope Z_scope.

(** ** Enumerations ([app/models/enums.py]) *)

Inductive ClientComplexity := SIMPLE | AVERAGE | COMPLEX.
Inductive IntakeStatus := OPEN | DONE.
Inductive DocKind := T4 | RECEIPT | ID | UNKNOWN.
Inductive ChecklistStatus := MISSING | RECEIVED.

Definition DocKind_eqb (a b : DocKind) : bool :=
  match a, b with
  | T4, T4 | RECEIPT, RECEIPT | ID, ID | UNKNOWN, UNKNOWN => true
  | _, _ => false
  end.

Definition ChecklistStatus_eqb (a b : ChecklistStatus) : bool :=
  match a, b with
  | MISSING, MISSING | RECEIVED, RECEIVED => true
  | _, _ => false
  end.

Definition IntakeStatus_eqb (a b : IntakeStatus) : bool :=
  match a, b with
  | OPEN, OPEN | DONE, DONE => true
  | _, _ => false
  end.

(** [DocKind(doc_kind)]: the enumeration member whose value is the string,
    [None] where Python raises [ValueError]. *)
Definition DocKind_of_value (s : string) : option DocKind :=
  if String.eqb s "T4" then Some T4
  else if String.eqb s "receipt" then Some RECEIPT
  else if String.eqb s "id" then Some ID
  else if String.eqb s "unknown" then Some UNKNOWN
  else None.

(** ** JSON values, as stored in [Document.extracted_data] *)

#[local] Set Warnings "-register-all".

Inductive json :=
| JNull
| JBool (b : bool)
| JNum (n : Z)
| JStr (s : string)
| JArr (l : list json)
| JObj (l : list (string * json)).

(** A [Dict[str, Any]]: the keys in insertion order. *)
Definition json_dict := list (string * json).

(** ** Python floats *)

(** A [float] is an IEEE 754 binary64 number, and every operation rounds to
    the nearest one, ties to even. *)
Module Float.
Definition t := SpecFloat.spec_float.
Definition prec : Z := 53.
Definition emax : Z := 1024.

(** An integer as it stands, before any rounding. *)
Definition exact (z : Z) : t :=
  match z with
  | Z0 => SpecFloat.S754_zero false
  | Zpos p => SpecFloat.S754_finite false p 0
  | Zneg p => SpecFloat.S754_finite true p 0
  end.

(** [float(z)], which Python applies to the [int] operand of a mixed
    operation; the integers it is applied to here are far from the range in
    which it raises [OverflowError]. *)
Definition of_int (z : Z) : t := SpecFloat.binary_normalize prec emax z 0 false.

(** The decimal literal with the value [n / d]: the nearest float. *)
Definition literal (n d : Z) : t := SpecFloat.SFdiv prec emax (exact n) (exact d).

Definition mul (x y : t) : t := SpecFloat.SFmul prec emax x y.
Definition add (x y : t) : t := SpecFloat.SFadd prec emax x y.

(** [a / b] on two [int]s: the quotient of the integers, rounded once;
    [None] where Python raises, [ZeroDivisionError] for [b = 0] and
    [OverflowError] for a quotient too large for a float. *)
Definition truediv (a b : Z) : option t :=
  if b =? 0 then None
  else match SpecFloat.SFdiv prec emax (exact a) (exact b) with
       | SpecFloat.S754_infinity _ => None
       | q => Some q
       end.

Definition leb (x y : t) : bool := SpecFloat.SFleb x y.
Definition ltb (x y : t) : bool := SpecFloat.SFltb x y.

(** [0.0], [1.0] and [100.0] *)
Definition zero : t := SpecFloat.S754_zero false.
Definition one : t := of_int 1.
Definition hundred : t := of_int 100.
End Float.

(** ** Extraction schemas ([app/schemas/extraction.py]) *)

(** An [Optional[str]] field as [model_dump(mode='json')] gives it. *)
Definition dump_str (v : option string) : json :=
  match v with
  | None => JNull
  | Some s => JStr s
  end.

(** [T4Extraction]; the nested models [T4EmployerInfo], [T4EmployeeInfo] and
    [T4Boxes] are held as the JSON objects that [model_dump] makes of them. *)
Module T4Extraction.
Record t := mk {
  employer_info : json;
  employee_info : json;
  year : option string;
  boxes : json
}.

Definition model_dump (self : t) : json_dict :=
  [("employer_info", employer_info self);
   ("employee_info", employee_info self);
   ("year", dump_str (year self));
   ("boxes", boxes self)].
End T4Extraction.

Module IDExtraction.
Record t := mk {
  full_name : option string;
  date_of_birth : option string;
  id_number : option string;
  id_type : option string;
  reference_number : option string;
  address : option string;
  validity_period : option string
}.

Definition model_dump (self : t) : json_dict :=
  [("full_name", dump_str (full_name self));
   ("date_of_birth", dump_str (date_of_birth self));
   ("id_number", dump_str (id_number self));
   ("id_type", dump_str (id_type self));
   ("reference_number", dump_str (reference_number self));
   ("address", dump_str (address self));
   ("validity_period", dump_str (validity_period self))].
End IDExtraction.

Module ReceiptExtraction.
Record t := mk {
  merchant_name : option string;
  total_amount : option string;
  date : option string;
  invoice_number : option string
}.

Definition model_dump (self : t) : json_dict :=
  [("merchant_name", dump_str (merchant_name self));
   ("total_amount", dump_str (total_amount self));
   ("date", dump_str (date self));
   ("invoice_number", dump_str (invoice_number self))].
End ReceiptExtraction.

(** ** Models ([app/models]) *)

Module Client.
Record t := mk {
  id : string;
  name : string;
  email : string;
  complexity : ClientComplexity
}.

Definition expected_document_count (self : t) : Z :=
  match complexity self with
  | SIMPLE => 2
  | AVERAGE => 4
  | COMPLEX => 8
  end.

Definition expected_receipt_count (self : t) : Z :=
  match complexity self with
  | SIMPLE => 0
  | AVERAGE => 2
  | COMPLEX => 5
  end.
End Client.

Module ChecklistItem.
Record t := mk {
  id : string;
  intake_id : string;
  doc_kind : DocKind;
  status : ChecklistStatus;
  quantity_expected : Z;
  quantity_received : Z
}.

Definition set_status (self : t) (v : ChecklistStatus) : t :=
  mk (id self) (intake_id self) (doc_kind self) v
     (quantity_expected self) (quantity_received self).

Definition set_quantity_received (self : t) (v : Z) : t :=
  mk (id self) (intake_id self) (doc_kind self) (status self)
     (quantity_expected self) v.

Definition is_complete (self : t) : bool :=
  quantity_received self >=? quantity_expected self.

Definition increment_received (self : t) : t :=
  let self := set_quantity_received self (quantity_received self + 1) in
  if is_complete self then set_status self RECEIVED else self.

(** [(self.quantity_received / self.quantity_expected) * 100]; [None] where
    the division raises. *)
Definition progress_percentage (self : t) : option Float.t :=
  if quantity_expected self =? 0 then Some Float.zero
  else option_map (fun q => Float.mul q (Float.of_int 100))
         (Float.truediv (quantity_received self) (quantity_expected self)).
End ChecklistItem.

Module Document.
Record t := mk {
  id : string;
  intake_id : string;
  filename : string;
  sha256 : string;
  mime_type : string;
  size_bytes : Z;
  stored_path : string;
  doc_kind : DocKind;
  extracted_data : option json_dict
}.

Definition set_doc_kind (self : t) (v : DocKind) : t :=
  mk (id self) (intake_id self) (filename self) (sha256 self)
     (mime_type self) (size_bytes self) (stored_path self) v
     (extracted_data self).

Definition set_extracted_data (self : t) (v : option json_dict) : t :=
  mk (id self) (intake_id self) (filename self) (sha256 self)
     (mime_type self) (size_bytes self) (stored_path self) (doc_kind self) v.

Definition is_classified (self : t) : bool :=
  negb (DocKind_eqb (doc_kind self) UNKNOWN).

(** [self.extracted_data is not None and len(self.extracted_data) > 0] *)
Definition is_extracted (self : t) : bool :=
  match extracted_data self with
  | None => false
  | Some d => (0 <? Z.of_nat (List.length d))
  end.
End Document.

Module Intake.
Record t := mk {
  id : string;
  client_id : string;
  fiscal_year : Z;
  status : IntakeStatus
}.

Definition set_status (self : t) (v : IntakeStatus) : t :=
  mk (id self) (client_id self) (fiscal_year self) v.

(** [self.checklist_items] is a relationship: the collection is passed
    explicitly, the rows whose [intake_id] is [self.id]. *)
Definition is_complete (checklist_items : list ChecklistItem.t) : bool :=
  match checklist_items with
  | [] => false
  | _ :: _ =>
      forallb (fun item => ChecklistStatus_eqb (ChecklistItem.status item) RECEIVED)
              checklist_items
  end.

Definition update_status (self : t) (checklist_items : list ChecklistItem.t) : t :=
  if is_complete checklist_items then set_status self DONE
  else set_status self OPEN.
End Intake.

(** Python truthiness of an optional dict: [None] and [{}] are falsy. *)
Definition truthy (d : option json_dict) : bool :=
  match d with
  | None => false
  | Some [] => false
  | Some (_ :: _) => true
  end.

(** ** The database and the session *)

Record Store := mkStore {
  clients : list Client.t;
  intakes : list Intake.t;
  documents : list Document.t;
  checklist_items : list ChecklistItem.t
}.

(** An [AsyncSession]: [pending] is the database as the session's open
    transaction sees it, [committed] what the last [commit] made durable.
    [faults = Some n] says that the session's [n] next round trips to the
    database succeed and the following ones raise; [None] that none fails. *)
Record AsyncSession := mkSession {
  pending : Store;
  committed : Store;
  faults : option nat
}.

Inductive Exn :=
| HTTPException (status_code : Z)
| MultipleResultsFound
| NoResultFound
| OperationalError
| ServiceError
| ValueError
| ValidationError
| ArithmeticError.

Inductive Result (A : Type) :=
| Ok (a : A) (db : AsyncSession)
| Raise (e : Exn) (db : AsyncSession).
Arguments Ok {A} a db.
Arguments Raise {A} e db.

Definition session {A} (r : Result A) : AsyncSession :=
  match r with
  | Ok _ db => db
  | Raise _ db => db
  end.

Definition M (A : Type) := AsyncSession -> Result A.

Definition ret {A} (a : A) : M A := fun db => Ok a db.

Definition bind {A B} (m : M A) (k : A -> M B) : M B :=
  fun db =>
    match m db with
    | Ok a db' => k a db'
    | Raise e db' => Raise e db'
    end.

Definition raise {A} (e : Exn) : M A := fun db => Raise e db.

(** [try: body except Exception as e: handler e] *)
Definition try_except {A} (body : M A) (handler : Exn -> M A) : M A :=
  fun db =>
    match body db with
    | Ok a db' => Ok a db'
    | Raise e db' => handler e db'
    end.

Declare Scope py_scope.
Delimit Scope py_scope with py.
Notation "x <- m ;; k" := (bind m (fun x => k))
  (at level 61, m at next level, right associativity) : py_scope.
Notation "m ;;; k" := (bind m (fun _ => k))
  (at level 61, right associativity) : py_scope.
Local Open Scope py_scope.

(** One round trip to the database. *)
Definition round_trip {A} (k : M A) : M A :=
  fun db =>
    match faults db with
    | None => k db
    | Some (S n) => k (mkSession (pending db) (committed db) (Some n))
    | Some O => Raise OperationalError db
    end.

(** [await db.execute(select(T).where(p))] followed by [.scalars().all()] *)
Definition execute_select {R} (table : Store -> list R) (where_ : R -> bool)
  : M (list R) :=
  round_trip (fun db => Ok (filter where_ (table (pending db))) db).

(** [select(Intake).options(selectinload(Intake.checklist_items)).where(p)]:
    every intake comes with the rows of its relationship loaded. *)
Definition execute_select_intakes_selectinload (where_ : Intake.t -> bool)
  : M (list (Intake.t * list ChecklistItem.t)) :=
  round_trip (fun db =>
    Ok (map (fun intake =>
               (intake,
                filter (fun r => String.eqb (ChecklistItem.intake_id r) (Intake.id intake))
                       (checklist_items (pending db))))
            (filter where_ (intakes (pending db))))
       db).

(** [result.scalar_one_or_none()] *)
Definition scalar_one_or_none {R} (rows : list R) : M (option R) :=
  match rows with
  | [] => ret None
  | [r] => ret (Some r)
  | _ :: _ :: _ => raise MultipleResultsFound
  end.

(** [result.scalar_one()] *)
Definition scalar_one {R} (rows : list R) : M R :=
  match rows with
  | [] => raise NoResultFound
  | [r] => ret r
  | _ :: _ :: _ => raise MultipleResultsFound
  end.

(** A change made through the session's unit of work (an attribute of a
    loaded row assigned, or [db.add]): visible to the session, not durable. *)
Definition modify (f : Store -> Store) : M unit :=
  fun db => Ok tt (mkSession (f (pending db)) (committed db) (faults db)).

(** [await db.commit()] *)
Definition commit : M unit :=
  round_trip (fun db => Ok tt (mkSession (pending db) (pending db) (faults db))).

(** [await db.flush()] *)
Definition flush : M unit := round_trip (ret tt).

(** Assigning attributes of a loaded row: the row with that primary key. *)
Definition write_checklist_item (item : ChecklistItem.t) (s : Store) : Store :=
  mkStore (clients s) (intakes s) (documents s)
    (map (fun r => if String.eqb (ChecklistItem.id r) (ChecklistItem.id item)
                   then item else r) (checklist_items s)).

Definition write_intake (intake : Intake.t) (s : Store) : Store :=
  mkStore (clients s)
    (map (fun r => if String.eqb (Intake.id r) (Intake.id intake)
                   then intake else r) (intakes s))
    (documents s) (checklist_items s).

Definition write_document (document : Document.t) (s : Store) : Store :=
  mkStore (clients s) (intakes s)
    (map (fun r => if String.eqb (Document.id r) (Document.id document)
                   then document else r) (documents s))
    (checklist_items s).

(** ** Checklist service ([app/services/checklist_service.py]) *)

Definition isSome {A} (o : option A) : bool :=
  match o with Some _ => true | None => false end.

Definition check_and_update_intake_status (intake_id : string) : M unit :=
  result <- execute_select intakes
              (fun r => String.eqb (Intake.id r) intake_id) ;;
  intake <- scalar_one_or_none result ;;
  match intake with
  | None => ret tt
  | Some intake =>
      result <- execute_select checklist_items
                  (fun r => String.eqb (ChecklistItem.intake_id r) intake_id
                            && ChecklistStatus_eqb (ChecklistItem.status r) MISSING) ;;
      let missing_items := List.length result in
      if Nat.eqb missing_items 0 then
        modify (write_intake (Intake.set_status intake DONE)) ;;;
        commit
      else ret tt
  end.

Definition update_checklist_for_document (document : Document.t) : M unit :=
  if DocKind_eqb (Document.doc_kind document) UNKNOWN
     || negb (truthy (Document.extracted_data document))
  then ret tt
  else
    result <- execute_select checklist_items
                (fun r => String.eqb (ChecklistItem.intake_id r) (Document.intake_id document)
                          && DocKind_eqb (ChecklistItem.doc_kind r) (Document.doc_kind document)) ;;
    checklist_item <- scalar_one_or_none result ;;
    match checklist_item with
    | None => ret tt
    | Some checklist_item =>
        result <- execute_select documents
                    (fun r => String.eqb (Document.intake_id r) (Document.intake_id document)
                              && DocKind_eqb (Document.doc_kind r) (Document.doc_kind document)
                              && isSome (Document.extracted_data r)) ;;
        let extracted_count := Z.of_nat (List.length result) in
        let checklist_item :=
          ChecklistItem.set_quantity_received checklist_item extracted_count in
        let checklist_item :=
          if ChecklistItem.quantity_received checklist_item
             >=? ChecklistItem.quantity_expected checklist_item
          then ChecklistItem.set_status checklist_item RECEIVED
          else checklist_item in
        modify (write_checklist_item checklist_item) ;;;
        commit ;;;
        check_and_update_intake_status (Document.intake_id document)
    end.

(** ** What the endpoints take from their environment *)

(** [qwen3vl_service]: the classification and extraction model, a black box.
    [None] stands for a call that raises; an extraction's result is the
    extraction schema that [_extract_with_schema] validated. *)
Module qwen3vl_service.
Record t := mk {
  classify_document : string -> option string;
  extract_t4 : string -> option T4Extraction.t;
  extract_id : string -> option IDExtraction.t;
  extract_receipt : string -> option ReceiptExtraction.t
}.
End qwen3vl_service.

(** Library functions the upload path calls: [hashlib.sha256(..).hexdigest()],
    [Path(filename).suffix.lower()] and [mimetypes.guess_type(filename)[0]]. *)
Record Env := mkEnv {
  sha256_hexdigest : list byte -> string;
  suffix_lower : string -> string;
  guess_type : string -> option string
}.

(** [app/core/config.py] *)
Module settings.
Definition BUCKET_DIR : string := "bucket".
Definition MAX_FILE_SIZE : Z := 10 * 1024 * 1024.
Definition ALLOWED_EXTENSIONS : list string := [".pdf"; ".png"; ".jpg"; ".jpeg"].
End settings.

Record UploadFile := mkUploadFile {
  upload_filename : string;
  upload_content : list byte
}.

(** ** File handling ([app/utils/file_handling.py]) *)

Definition calculate_sha256 (env : Env) (file_content : list byte) : string :=
  sha256_hexdigest env file_content.

Definition mem_string (x : string) (l : list string) : bool :=
  existsb (String.eqb x) l.

Definition validate_file_type (env : Env) (filename : string)
    (allowed_extensions : list string) : M string :=
  let file_ext := suffix_lower env filename in
  if negb (mem_string file_ext allowed_extensions) then
    raise (HTTPException 400)
  else
    match guess_type env filename with
    | Some mime_type => ret mime_type
    | None =>
        ret (if String.eqb file_ext ".pdf" then "application/pdf"
             else if String.eqb file_ext ".png" then "image/png"
             else if String.eqb file_ext ".jpg" then "image/jpeg"
             else if String.eqb file_ext ".jpeg" then "image/jpeg"
             else "application/octet-stream")
    end.

Definition validate_file_size (file_size max_size : Z) : M unit :=
  if file_size >? max_size then raise (HTTPException 413) else ret tt.

(** The bytes are also written under the bucket directory; the file system
    is not part of the model. *)
Definition save_uploaded_file (env : Env) (file : UploadFile)
    (bucket_dir intake_id : string) (allowed_extensions : list string)
    (max_file_size : Z) : M (list byte * string * string * Z) :=
  let file_content := upload_content file in
  let file_size := Z.of_nat (List.length file_content) in
  validate_file_size file_size max_file_size ;;;
  mime_type <- validate_file_type env (upload_filename file) allowed_extensions ;;
  let sha256_hash := calculate_sha256 env file_content in
  let file_ext := suffix_lower env (upload_filename file) in
  let stored_path :=
    String.concat "" [bucket_dir; "/"; intake_id; "/"; sha256_hash; file_ext] in
  ret (file_content, stored_path, mime_type, file_size).

(** ** Intake endpoints ([app/api/intakes.py]) *)

Definition add_intake (r : Intake.t) (s : Store) : Store :=
  mkStore (clients s) (intakes s ++ [r]) (documents s) (checklist_items s).

Definition add_document (r : Document.t) (s : Store) : Store :=
  mkStore (clients s) (intakes s) (documents s ++ [r]) (checklist_items s).

Definition add_checklist_items (rs : list ChecklistItem.t) (s : Store) : Store :=
  mkStore (clients s) (intakes s) (documents s) (checklist_items s ++ rs).

(** [await db.refresh(row)] *)
Definition refresh : M unit := round_trip (ret tt).

(** The list [checklist_items] that [create_intake] builds; the primary keys
    are the [uuid4] defaults, here [item_ids]. *)
Definition create_intake_checklist_items (new_intake_id : string)
    (client : Client.t) (item_ids : string * string * string)
  : list ChecklistItem.t :=
  let '(id1, id2, id3) := item_ids in
  let checklist_items :=
    [ ChecklistItem.mk id1 new_intake_id T4 MISSING 1 0;
      ChecklistItem.mk id2 new_intake_id ID MISSING 1 0 ] in
  let receipt_count := Client.expected_receipt_count client in
  if receipt_count >? 0 then
    checklist_items ++ [ ChecklistItem.mk id3 new_intake_id RECEIPT MISSING receipt_count 0 ]
  else checklist_items.

Definition create_intake (client_id : string) (fiscal_year : Z)
    (new_intake_id : string) (item_ids : string * string * string)
  : M (Intake.t * list ChecklistItem.t) :=
  result <- execute_select clients (fun r => String.eqb (Client.id r) client_id) ;;
  client <- scalar_one_or_none result ;;
  match client with
  | None => raise (HTTPException 404)
  | Some client =>
      result <- execute_select intakes
                  (fun r => String.eqb (Intake.client_id r) client_id
                            && (Intake.fiscal_year r =? fiscal_year)) ;;
      existing_intake <- scalar_one_or_none result ;;
      match existing_intake with
      | Some _ => raise (HTTPException 409)
      | None =>
          let new_intake := Intake.mk new_intake_id client_id fiscal_year OPEN in
          modify (add_intake new_intake) ;;;
          flush ;;;
          refresh ;;;
          modify (add_checklist_items
                    (create_intake_checklist_items new_intake_id client item_ids)) ;;;
          flush ;;;
          result <- execute_select_intakes_selectinload
                      (fun r => String.eqb (Intake.id r) new_intake_id) ;;
          scalar_one result
      end
  end.

Definition upload_document (env : Env) (intake_id : string) (file : UploadFile)
    (new_document_id : string) : M Document.t :=
  result <- execute_select intakes (fun r => String.eqb (Intake.id r) intake_id) ;;
  intake <- scalar_one_or_none result ;;
  match intake with
  | None => raise (HTTPException 404)
  | Some _ =>
      saved <- save_uploaded_file env file settings.BUCKET_DIR intake_id
                 settings.ALLOWED_EXTENSIONS settings.MAX_FILE_SIZE ;;
      let '(file_content, stored_path, mime_type, file_size) := saved in
      let sha256_hash := calculate_sha256 env file_content in
      result <- execute_select documents
                  (fun r => String.eqb (Document.intake_id r) intake_id
                            && String.eqb (Document.sha256 r) sha256_hash) ;;
      existing_doc <- scalar_one_or_none result ;;
      match existing_doc with
      | Some _ => raise (HTTPException 409)
      | None =>
          let new_document :=
            Document.mk new_document_id intake_id (upload_filename file)
              sha256_hash mime_type file_size stored_path UNKNOWN None in
          modify (add_document new_document) ;;;
          (* The [except IntegrityError] clause around the flush catches
             nothing here: the query above found no row with this
             fingerprint, and any other exception propagates. *)
          flush ;;;
          refresh ;;;
          ret new_document
      end
  end.

(** ** Response schemas ([app/schemas]) *)

Record ClassificationResponse := mkClassificationResponse {
  classified_document_id : string;
  classified_doc_kind : DocKind
}.

Record ExtractionResponse := mkExtractionResponse {
  extracted_document_id : string;
  extracted_doc_kind : DocKind;
  extracted_fields : json_dict;
  fields_extracted : Z
}.

Record ChecklistItemResponse := mkChecklistItemResponse {
  item_id : string;
  item_intake_id : string;
  item_doc_kind : DocKind;
  item_status : ChecklistStatus;
  item_quantity_expected : Z;
  item_quantity_received : Z;
  item_is_complete : bool;
  item_progress_percentage : Float.t
}.

Record ChecklistResponse := mkChecklistResponse {
  response_intake_id : string;
  intake_status : IntakeStatus;
  is_complete : bool;
  items : list ChecklistItemResponse;
  total_expected : Z;
  total_received : Z;
  overall_progress : Float.t
}.

(** [Field(..., ge=0.0, le=100.0)]: the schema's constructor raises outside
    the bounds. *)
Definition percentage_field (q : Float.t) : M Float.t :=
  if Float.leb Float.zero q && Float.leb q Float.hundred then ret q
  else raise ValidationError.

(** A float expression that raises ([ZeroDivisionError] and [OverflowError]
    are both an [ArithmeticError]) or has a value. *)
Definition float_value (v : option Float.t) : M Float.t :=
  match v with
  | None => raise ArithmeticError
  | Some q => ret q
  end.

Definition is_JNull (v : json) : bool :=
  match v with JNull => true | _ => false end.

(** [len([v for v in extracted_data.values() if v is not None])] *)
Definition count_fields (d : json_dict) : Z :=
  Z.of_nat (List.length (filter (fun kv => negb (is_JNull (snd kv))) d)).

(** ** Document endpoints ([app/api/documents.py]) *)

(** [doc_kind = qwen3vl_service.classify_document(path)] then
    [DocKind(doc_kind)] *)
Definition classify_kind (svc : qwen3vl_service.t) (document : Document.t)
  : M DocKind :=
  match qwen3vl_service.classify_document svc (Document.stored_path document) with
  | None => raise ServiceError
  | Some doc_kind =>
      match DocKind_of_value doc_kind with
      | None => raise ValueError
      | Some k => ret k
      end
  end.

(** What the [if]/[elif] chain on [document.doc_kind] binds [extraction]
    to, and its [extraction.model_dump(mode='json')]. *)
Inductive Extraction :=
| OfT4 (x : T4Extraction.t)
| OfID (x : IDExtraction.t)
| OfReceipt (x : ReceiptExtraction.t).

Definition model_dump (extraction : Extraction) : json_dict :=
  match extraction with
  | OfT4 x => T4Extraction.model_dump x
  | OfID x => IDExtraction.model_dump x
  | OfReceipt x => ReceiptExtraction.model_dump x
  end.

(** The [if]/[elif] chain on [document.doc_kind] that picks the extractor;
    [None] is returned where the chain reaches its [else] branch. *)
Definition extract_by_kind (svc : qwen3vl_service.t) (document : Document.t)
  : M (option Extraction) :=
  let call (r : option Extraction) : M (option Extraction) :=
    match r with
    | None => raise ServiceError
    | Some extraction => ret (Some extraction)
    end in
  match Document.doc_kind document with
  | T4 => call (option_map OfT4
                  (qwen3vl_service.extract_t4 svc (Document.stored_path document)))
  | ID => call (option_map OfID
                  (qwen3vl_service.extract_id svc (Document.stored_path document)))
  | RECEIPT => call (option_map OfReceipt
                       (qwen3vl_service.extract_receipt svc (Document.stored_path document)))
  | UNKNOWN => ret None
  end.

Definition classify_document (svc : qwen3vl_service.t) (document_id : string)
  : M ClassificationResponse :=
  result <- execute_select documents (fun r => String.eqb (Document.id r) document_id) ;;
  document <- scalar_one_or_none result ;;
  match document with
  | None => raise (HTTPException 404)
  | Some document =>
      try_except
        (doc_kind <- classify_kind svc document ;;
         let document := Document.set_doc_kind document doc_kind in
         modify (write_document document) ;;;
         commit ;;;
         refresh ;;;
         ret (mkClassificationResponse (Document.id document) (Document.doc_kind document)))
        (fun _ => raise (HTTPException 500))
  end.

Definition extract_document (svc : qwen3vl_service.t) (document_id : string)
  : M ExtractionResponse :=
  result <- execute_select documents (fun r => String.eqb (Document.id r) document_id) ;;
  document <- scalar_one_or_none result ;;
  match document with
  | None => raise (HTTPException 404)
  | Some document =>
      if DocKind_eqb (Document.doc_kind document) UNKNOWN then
        raise (HTTPException 400)
      else
        try_except
          (extraction <- extract_by_kind svc document ;;
           match extraction with
           | None => raise (HTTPException 400)
           | Some extraction =>
               let extracted_data := model_dump extraction in
               let document := Document.set_extracted_data document (Some extracted_data) in
               modify (write_document document) ;;;
               commit ;;;
               refresh ;;;
               update_checklist_for_document document ;;;
               ret (mkExtractionResponse (Document.id document)
                      (Document.doc_kind document) extracted_data
                      (count_fields extracted_data))
           end)
          (fun _ => raise (HTTPException 500))
  end.

(** ** Batch endpoints ([app/api/intakes.py]) *)

(** The [for document in unknown_docs] loop: a failed classification is
    skipped. *)
Fixpoint classify_each (svc : qwen3vl_service.t) (unknown_docs : list Document.t)
    (classified : list ClassificationResponse) : M (list ClassificationResponse) :=
  match unknown_docs with
  | [] => ret classified
  | document :: rest =>
      classified <-
        try_except
          (doc_kind <- classify_kind svc document ;;
           let document := Document.set_doc_kind document doc_kind in
           modify (write_document document) ;;;
           ret (classified ++ [mkClassificationResponse (Document.id document)
                                 (Document.doc_kind document)]))
          (fun _ => ret classified) ;;
      classify_each svc rest classified
  end.

Definition classify_intake_documents (svc : qwen3vl_service.t) (intake_id : string)
  : M (nat * list ClassificationResponse) :=
  result <- execute_select intakes (fun r => String.eqb (Intake.id r) intake_id) ;;
  intake <- scalar_one_or_none result ;;
  match intake with
  | None => raise (HTTPException 404)
  | Some _ =>
      unknown_docs <- execute_select documents
                        (fun r => String.eqb (Document.intake_id r) intake_id
                                  && DocKind_eqb (Document.doc_kind r) UNKNOWN) ;;
      match unknown_docs with
      | [] => raise (HTTPException 400)
      | _ :: _ =>
          classified <- classify_each svc unknown_docs [] ;;
          commit ;;;
          ret (List.length classified, classified)
      end
  end.

(** The [for document in classified_docs] loop: a document that already has
    extracted data is skipped, and so is one whose extraction or
    reconciliation raises. *)
Fixpoint extract_each (svc : qwen3vl_service.t) (classified_docs : list Document.t)
    (extracted : list ExtractionResponse) : M (list ExtractionResponse) :=
  match classified_docs with
  | [] => ret extracted
  | document :: rest =>
      extracted <-
        (if truthy (Document.extracted_data document) then ret extracted
         else
           try_except
             (extraction <- extract_by_kind svc document ;;
              match extraction with
              | None => ret extracted
              | Some extraction =>
                  let extracted_data := model_dump extraction in
                  let document :=
                    Document.set_extracted_data document (Some extracted_data) in
                  modify (write_document document) ;;;
                  commit ;;;
                  refresh ;;;
                  update_checklist_for_document document ;;;
                  ret (extracted ++ [mkExtractionResponse (Document.id document)
                                       (Document.doc_kind document) extracted_data
                                       (count_fields extracted_data)])
              end)
             (fun _ => ret extracted)) ;;
      extract_each svc rest extracted
  end.

Definition extract_intake_documents (svc : qwen3vl_service.t) (intake_id : string)
  : M (nat * list ExtractionResponse) :=
  result <- execute_select intakes (fun r => String.eqb (Intake.id r) intake_id) ;;
  intake <- scalar_one_or_none result ;;
  match intake with
  | None => raise (HTTPException 404)
  | Some _ =>
      classified_docs <- execute_select documents
                           (fun r => String.eqb (Document.intake_id r) intake_id
                                     && negb (DocKind_eqb (Document.doc_kind r) UNKNOWN)) ;;
      match classified_docs with
      | [] => raise (HTTPException 400)
      | _ :: _ =>
          extracted <- extract_each svc classified_docs [] ;;
          ret (List.length extracted, extracted)
      end
  end.

(** ** Checklist read view ([app/api/checklist.py]) *)

Definition sum_Z (l : list Z) : Z := fold_right Z.add 0 l.

Fixpoint mapM {A B} (f : A -> M B) (l : list A) : M (list B) :=
  match l with
  | [] => ret []
  | a :: l' =>
      b <- f a ;;
      bs <- mapM f l' ;;
      ret (b :: bs)
  end.

Definition checklist_item_response (item : ChecklistItem.t) : M ChecklistItemResponse :=
  progress_percentage <- float_value (ChecklistItem.progress_percentage item) ;;
  progress_percentage <- percentage_field progress_percentage ;;
  ret (mkChecklistItemResponse
         (ChecklistItem.id item) (ChecklistItem.intake_id item)
         (ChecklistItem.doc_kind item) (ChecklistItem.status item)
         (ChecklistItem.quantity_expected item) (ChecklistItem.quantity_received item)
         (ChecklistItem.quantity_received item >=? ChecklistItem.quantity_expected item)
         progress_percentage).

Definition get_intake_checklist (intake_id : string) : M ChecklistResponse :=
  result <- execute_select_intakes_selectinload
              (fun r => String.eqb (Intake.id r) intake_id) ;;
  intake <- scalar_one_or_none result ;;
  match intake with
  | None => raise (HTTPException 404)
  | Some (intake, loaded) =>
      items <- mapM checklist_item_response loaded ;;
      let total_expected := sum_Z (map ChecklistItem.quantity_expected loaded) in
      let total_received := sum_Z (map ChecklistItem.quantity_received loaded) in
      overall_progress <-
        float_value
          (if total_expected >? 0
           then option_map (fun q => Float.mul q Float.hundred)
                  (Float.truediv total_received total_expected)
           else Some Float.zero) ;;
      overall_progress <- percentage_field overall_progress ;;
      ret (mkChecklistResponse (Intake.id intake) (Intake.status intake)
             (Intake.is_complete loaded) items
             total_expected total_received overall_progress)
  end.

(** ** Notions used by the statements *)

(** The [where] clauses of the two service functions. *)
Definition item_where (document : Document.t) (r : ChecklistItem.t) : bool :=
  String.eqb (ChecklistItem.intake_id r) (Document.intake_id document)
  && DocKind_eqb (ChecklistItem.doc_kind r) (Document.doc_kind document).

Definition count_where (document : Document.t) (r : Document.t) : bool :=
  String.eqb (Document.intake_id r) (Document.intake_id document)
  && DocKind_eqb (Document.doc_kind r) (Document.doc_kind document)
  && isSome (Document.extracted_data r).

Definition missing_where (intake_id : string) (r : ChecklistItem.t) : bool :=
  String.eqb (ChecklistItem.intake_id r) intake_id
  && ChecklistStatus_eqb (ChecklistItem.status r) MISSING.

(** The number that the recount of [update_checklist_for_document] finds. *)
Definition extracted_count (document : Document.t) (s : Store) : Z :=
  Z.of_nat (List.length (filter (count_where document) (documents s))).

(** What the recount makes of the located item. *)
Definition recounted (document : Document.t) (s : Store) (item : ChecklistItem.t)
  : ChecklistItem.t :=
  let item := ChecklistItem.set_quantity_received item (extracted_count document s) in
  if ChecklistItem.quantity_received item >=? ChecklistItem.quantity_expected item
  then ChecklistItem.set_status item RECEIVED
  else item.

(** Two sessions over the same data: they differ at most in what is left of
    the fault plan. *)
Definition same_data (db db' : AsyncSession) : Prop :=
  pending db' = pending db /\ committed db' = committed db.

Definition sample_fields : json_dict :=
  [("employer_name", JStr "ACME Corp"); ("year", JNull)].

Definition sample_document (id intake_id : string) (doc_kind : DocKind)
    (extracted_data : option json_dict) : Document.t :=
  Document.mk id intake_id "scan.jpg" id "image/jpeg" 2048 "bucket/scan.jpg"
    doc_kind extracted_data.

Definition clean_session (s : Store) : AsyncSession := mkSession s s None.

(** A simple client's intake with two T4 documents, the second one carrying
    an empty field map. *)
Definition intake_with_empty_map : Store :=
  mkStore [Client.mk "c1" "Ann" "ann@example.com" SIMPLE]
          [Intake.mk "i1" "c1" 2025 OPEN]
          [sample_document "d1" "i1" T4 (Some sample_fields);
           sample_document "d2" "i1" T4 (Some [])]
          [ChecklistItem.mk "k1" "i1" T4 MISSING 1 0;
           ChecklistItem.mk "k2" "i1" ID MISSING 1 0].

(** An average client's intake whose receipt item was received with two
    receipts; one of them has since lost its extracted data. *)
Definition intake_with_cleared_receipt : Store :=
  mkStore [Client.mk "c2" "Bob" "bob@example.com" AVERAGE]
          [Intake.mk "i2" "c2" 2025 OPEN]
          [sample_document "r1" "i2" RECEIPT (Some sample_fields);
           sample_document "r2" "i2" RECEIPT None]
          [ChecklistItem.mk "k3" "i2" T4 MISSING 1 0;
           ChecklistItem.mk "k4" "i2" ID MISSING 1 0;
           ChecklistItem.mk "k5" "i2" RECEIPT RECEIVED 2 2].

(** An intake without any checklist item. *)
Definition intake_without_items : Store :=
  mkStore [Client.mk "c3" "Cy" "cy@example.com" SIMPLE]
          [Intake.mk "i3" "c3" 2025 OPEN]
          []
          [].

(** A simple client's intake to which a receipt was uploaded, classified and
    extracted. *)
Definition intake_with_extra_receipt : Store :=
  mkStore [Client.mk "c4" "Di" "di@example.com" SIMPLE]
          [Intake.mk "i4" "c4" 2025 OPEN]
          [sample_document "e1" "i4" RECEIPT (Some sample_fields)]
          [ChecklistItem.mk "k6" "i4" T4 MISSING 1 0;
           ChecklistItem.mk "k7" "i4" ID MISSING 1 0].

(** A simple client's intake whose ID item is received; its T4 document has
    just been extracted, and its T4 item is still to be reconciled. *)
Definition intake_ready_for_done : Store :=
  mkStore [Client.mk "c5" "Eve" "eve@example.com" SIMPLE]
          [Intake.mk "i5" "c5" 2025 OPEN]
          [sample_document "t1" "i5" T4 (Some sample_fields);
           sample_document "t2" "i5" ID (Some sample_fields)]
          [ChecklistItem.mk "k8" "i5" T4 MISSING 1 0;
           ChecklistItem.mk "k9" "i5" ID RECEIVED 1 1].

(** The upload passes [validate_file_size] and [validate_file_type]. *)
Definition upload_valid (env : Env) (file : UploadFile) : Prop :=
  Z.of_nat (List.length (upload_content file)) <= settings.MAX_FILE_SIZE
  /\ mem_string (suffix_lower env (upload_filename file)) settings.ALLOWED_EXTENSIONS = true.

(** The unique index [idx_intake_sha256] of the documents table. *)
Definition idx_intake_sha256 (s : Store) : Prop :=
  forall intake_id sha256_hash,
    (List.length
       (filter (fun r => String.eqb (Document.intake_id r) intake_id
                         && String.eqb (Document.sha256 r) sha256_hash)
               (documents s)) <= 1)%nat.

(** A stand-in environment: the fingerprint of a file is its bytes, every
    name has the suffix [.jpg]. *)
Definition sample_env : Env :=
  mkEnv string_of_list_byte (fun _ => ".jpg") (fun _ => Some "image/jpeg").

Definition sample_upload : UploadFile :=
  mkUploadFile "T4_sample.JPG" (list_byte_of_string "T4").

(** One client, two fiscal years; the file is stored in the first intake. *)
Definition two_intakes : Store :=
  mkStore [Client.mk "c6" "Flo" "flo@example.com" SIMPLE]
          [Intake.mk "i6" "c6" 2024 OPEN; Intake.mk "i7" "c6" 2025 OPEN]
          [Document.mk "u1" "i6" "T4_sample.JPG" "T4" "image/jpeg" 2 "bucket/i6/T4.jpg"
             UNKNOWN None]
          [ChecklistItem.mk "k10" "i6" T4 MISSING 1 0;
           ChecklistItem.mk "k11" "i6" ID MISSING 1 0;
           ChecklistItem.mk "k12" "i7" T4 MISSING 1 0;
           ChecklistItem.mk "k13" "i7" ID MISSING 1 0].

(** What the read view shows of one checklist item. *)
Definition shows (item : ChecklistItem.t) (r : ChecklistItemResponse) : Prop :=
  item_doc_kind r = ChecklistItem.doc_kind item
  /\ item_status r = ChecklistItem.status item
  /\ item_quantity_expected r = ChecklistItem.quantity_expected item
  /\ item_quantity_received r = ChecklistItem.quantity_received item
  /\ (if ChecklistItem.quantity_expected item =? 0
      then item_progress_percentage r = Float.zero
      else exists q,
             Float.truediv (ChecklistItem.quantity_received item)
                           (ChecklistItem.quantity_expected item) = Some q
             /\ item_progress_percentage r = Float.mul q (Float.of_int 100)).

(** The operations of the service. Every request runs in a session of its
    own, opened and closed by [get_db] ([app/core/database.py], which is not
    among the sources); [NewSession keep plan] is the boundary between two
    requests, either way it can go: the next session starts from the data
    the previous one left, its uncommitted changes kept ([keep = true],
    committed at the end of the request) or dropped (rolled back), with a
    fault plan of its own. *)
Inductive Operation :=
| CreateIntake (client_id : string) (fiscal_year : Z) (new_intake_id : string)
    (item_ids : string * string * string)
| UploadDocument (env : Env) (intake_id : string) (file : UploadFile)
    (new_document_id : string)
| ClassifyDocument (svc : qwen3vl_service.t) (document_id : string)
| ExtractDocument (svc : qwen3vl_service.t) (document_id : string)
| ClassifyIntakeDocuments (svc : qwen3vl_service.t) (intake_id : string)
| ExtractIntakeDocuments (svc : qwen3vl_service.t) (intake_id : string)
| UpdateChecklistForDocument (document : Document.t)
| CheckAndUpdateIntakeStatus (intake_id : string)
| GetIntakeChecklist (intake_id : string)
| NewSession (keep : bool) (plan : option nat).

Definition run_operation (op : Operation) (db : AsyncSession) : AsyncSession :=
  match op with
  | CreateIntake client_id fiscal_year new_intake_id item_ids =>
      session (create_intake client_id fiscal_year new_intake_id item_ids db)
  | UploadDocument env intake_id file new_document_id =>
      session (upload_document env intake_id file new_document_id db)
  | ClassifyDocument svc document_id => session (classify_document svc document_id db)
  | ExtractDocument svc document_id => session (extract_document svc document_id db)
  | ClassifyIntakeDocuments svc intake_id =>
      session (classify_intake_documents svc intake_id db)
  | ExtractIntakeDocuments svc intake_id =>
      session (extract_intake_documents svc intake_id db)
  | UpdateChecklistForDocument document =>
      session (update_checklist_for_document document db)
  | CheckAndUpdateIntakeStatus intake_id =>
      session (check_and_update_intake_status intake_id db)
  | GetIntakeChecklist intake_id => session (get_intake_checklist intake_id db)
  | NewSession true plan => mkSession (pending db) (pending db) plan
  | NewSession false plan => mkSession (committed db) (committed db) plan
  end.

Definition run_operations (ops : list Operation) (db : AsyncSession) : AsyncSession :=
  fold_left (fun db op => run_operation op db) ops db.

(** The status of the intake with a given primary key. *)
Definition status_of (intake_id : string) (s : Store) : option IntakeStatus :=
  option_map Intake.status
    (find (fun r => String.eqb (Intake.id r) intake_id) (intakes s)).

(** The intake is done, for the session and in the committed database. *)
Definition intake_done (intake_id : string) (db : AsyncSession) : Prop :=
  status_of intake_id (pending db) = Some DONE
  /\ status_of intake_id (committed db) = Some DONE.

(** [m] keeps the property [P] of sessions, however it ends. *)
Definition preserves {A} (P : AsyncSession -> Prop) (m : M A) : Prop :=
  forall db, P db -> P (session (m db)).

(** A stand-in for the model: every document is a receipt. *)
Definition sample_service : qwen3vl_service.t :=
  qwen3vl_service.mk (fun _ => Some "receipt")
    (fun _ => Some (T4Extraction.mk (JObj [("employer_name", JStr "ACME Corp")])
                      (JObj []) (Some "2024") (JObj [])))
    (fun _ => Some (IDExtraction.mk (Some "Ann Lee") None (Some "L-1") None None None None))
    (fun _ => Some (ReceiptExtraction.mk (Some "Depot") (Some "$12.50") None None)).

(** The session in which the intake [i5] has just become done. *)
Definition done_session : AsyncSession :=
  session (update_checklist_for_document
             (sample_document "t1" "i5" T4 (Some sample_fields))
             (clean_session intake_ready_for_done)).

(** A further receipt is uploaded, classified and extracted, with a failing
    round trip on the way, and the status is re-evaluated. *)
Definition later_operations : list Operation :=
  [ UploadDocument sample_env "i5" sample_upload "u9";
    NewSession true (Some 2%nat);
    ClassifyDocument sample_service "u9";
    NewSession false None;
    ClassifyIntakeDocuments sample_service "i5";
    NewSession true None;
    ExtractDocument sample_service "u9";
    ExtractIntakeDocuments sample_service "i5";
    CheckAndUpdateIntakeStatus "i5";
    GetIntakeChecklist "i5" ].

(** An average client's intake with only its T4 extracted and reconciled. *)
Definition intake_partial : Store :=
  mkStore [Client.mk "c8" "Gus" "gus@example.com" AVERAGE]
          [Intake.mk "i8" "c8" 2025 OPEN]
          [sample_document "p1" "i8" T4 (Some sample_fields)]
          [ChecklistItem.mk "k14" "i8" T4 RECEIVED 1 1;
           ChecklistItem.mk "k15" "i8" ID MISSING 1 0;
           ChecklistItem.mk "k16" "i8" RECEIPT MISSING 2 0].

(** ** Checklist status ([app/services/checklist_service.py]) *)




(** How reconciliation may change a checklist item: never its key, intake,
    kind or expected quantity, and never its status from [RECEIVED]. *)
Definition item_step (a b : ChecklistItem.t) : Prop :=
  ChecklistItem.id b = ChecklistItem.id a
  /\ ChecklistItem.intake_id b = ChecklistItem.intake_id a
  /\ ChecklistItem.doc_kind b = ChecklistItem.doc_kind a
  /\ ChecklistItem.quantity_expected b = ChecklistItem.quantity_expected a
  /\ (ChecklistItem.status a = RECEIVED -> ChecklistItem.status b = RECEIVED).

(** No item of the intake is missing. *)
Definition none_missing (intake_id : string) (s : Store) : bool :=
  Nat.eqb (List.length (filter (missing_where intake_id) (checklist_items s))) 0.

(** A property of the data, for the session and in the committed database. *)
Definition both (R : Store -> Prop) (db : AsyncSession) : Prop :=
  R (pending db) /\ R (committed db).

(** The operations on the documents of existing intakes: every one but the
    creation of an intake. *)
Definition on_existing_intakes (op : Operation) : Prop :=
  match op with
  | CreateIntake _ _ _ _ => False
  | _ => True
  end.

(** The operations that neither reconcile nor re-evaluate: uploads,
    classifications, reads of the checklist and request boundaries. *)
Definition never_reconciles (op : Operation) : Prop :=
  match op with
  | UploadDocument _ _ _ _ | ClassifyDocument _ _ | ClassifyIntakeDocuments _ _
  | GetIntakeChecklist _ | NewSession _ _ => True
  | _ => False
  end.

(** ** Client endpoint ([app/api/clients.py]) *)

(** [ClientCreate] *)
Record ClientCreate := mkClientCreate {
  create_name : string;
  create_email : string;
  create_complexity : ClientComplexity
}.

Definition add_client (r : Client.t) (s : Store) : Store :=
  mkStore (clients s ++ [r]) (intakes s) (documents s) (checklist_items s).

(** [lower] is [str.lower]; the primary key is the [uuid4] default, here
    [new_client_id]. *)
Definition create_client (lower : string -> string) (client_data : ClientCreate)
    (new_client_id : string) : M Client.t :=
  result <- execute_select clients
              (fun r => String.eqb (Client.email r) (lower (create_email client_data))) ;;
  existing_client <- scalar_one_or_none result ;;
  match existing_client with
  | Some _ => raise (HTTPException 409)
  | None =>
      let new_client :=
        Client.mk new_client_id (create_name client_data)
          (lower (create_email client_data)) (create_complexity client_data) in
      modify (add_client new_client) ;;;
      flush ;;;
      refresh ;;;
      ret new_client
  end.

(** A stand-in for [str.lower] on ASCII text. *)
Definition sample_lower (s : string) : string :=
  string_of_list_ascii
    (map (fun c =>
            let n := Ascii.nat_of_ascii c in
            if (Nat.leb 65 n && Nat.leb n 90)%bool
            then Ascii.ascii_of_nat (n + 32) else c)
         (list_ascii_of_string s)).

(** The model answers no request: every classification and extraction
    raises. *)
Definition service_down (svc : qwen3vl_service.t) : Prop :=
  forall path,
    qwen3vl_service.classify_document svc path = None
    /\ qwen3vl_service.extract_t4 svc path = None
    /\ qwen3vl_service.extract_id svc path = None
    /\ qwen3vl_service.extract_receipt svc path = None.

(** A model that is down. *)
Definition failing_service : qwen3vl_service.t :=
  qwen3vl_service.mk (fun _ => None) (fun _ => None) (fun _ => None) (fun _ => None).

(** What the schema's bounds leave of an item in a view that is returned. *)
Definition within_bounds (r : ChecklistItemResponse) : Prop :=
  Float.leb Float.zero (item_progress_percentage r) = true
  /\ Float.leb (item_progress_percentage r) Float.hundred = true
  /\ item_is_complete r = (item_quantity_received r >=? item_quantity_expected r).

(** ** Classification by the model's answer and by keywords
       ([app/services/qwen3vl_service.py], [app/services/ocr_service.py]) *)

(** Python's [sub in s] on strings: [sub] occurs in [s]. *)
Fixpoint contains (sub s : string) : bool :=
  String.prefix sub s
  || match s with
     | EmptyString => false
     | String _ s' => contains sub s'
     end.

(** The end of [Qwen3VLService.classify_document]: the model's answer,
    stripped and in lower case, mapped to a document kind. *)
Definition doc_kind_of_output (output_text : string) : string :=
  if contains "t4" output_text then "T4"
  else if contains "id" output_text || contains "license" output_text
          || contains "passport" output_text then "id"
  else if contains "receipt" output_text || contains "invoice" output_text then "receipt"
  else "unknown".

Definition t4_keywords : list string :=
  ["t4"; "statement of remuneration"; "employment income";
   "box 14"; "box 22"; "canada revenue"; "revenus d'emploi";
   "income tax deducted"; "employer name"; "employee name"].

Definition id_keywords : list string :=
  ["driver"; "license"; "licence"; "date of birth"; "dob";
   "identification"; "id number"; "expires"; "issued";
   "class"; "restrictions"; "height"; "eyes"; "sex"].

Definition receipt_keywords : list string :=
  ["receipt"; "total"; "subtotal"; "tax"; "amount";
   "merchant"; "payment"; "transaction"; "purchase";
   "paid"; "balance"; "change"; "cash"; "credit"].

(** [sum(1 for kw in keywords if kw in text_lower)] *)
Definition keyword_score (keywords : list string) (text_lower : string) : nat :=
  List.length (filter (fun kw => contains kw text_lower) keywords).

(** [min(0.95, 0.5 + (score * 0.05))]; [min] returns its first argument
    unless the second is smaller. *)
Definition confidence_of_score (score : nat) : Float.t :=
  let c := Float.add (Float.literal 5 10)
             (Float.mul (Float.of_int (Z.of_nat score)) (Float.literal 5 100)) in
  if Float.ltb c (Float.literal 95 100) then c else Float.literal 95 100.

(** [OCRService.classify_document] from the text that the OCR pipeline
    extracted; [lower] is [str.lower]. *)
Definition ocr_classify_document (lower : string -> string) (text : string)
  : DocKind * Float.t * string :=
  let text_lower := lower text in
  let t4_score := keyword_score t4_keywords text_lower in
  let id_score := keyword_score id_keywords text_lower in
  let receipt_score := keyword_score receipt_keywords text_lower in
  let max_score := Nat.max t4_score (Nat.max id_score receipt_score) in
  if Nat.eqb max_score 0 then (UNKNOWN, Float.zero, text)
  else if Nat.eqb t4_score max_score && Nat.leb 2 t4_score
  then (T4, confidence_of_score t4_score, text)
  else if Nat.eqb id_score max_score && Nat.leb 2 id_score
  then (ID, confidence_of_score id_score, text)
  else if Nat.eqb receipt_score max_score && Nat.leb 2 receipt_score
  then (RECEIPT, confidence_of_score receipt_score, text)
  else (UNKNOWN, Float.literal 3 10, text).

(** ** Invariants over the runs of the service *)

(** No stored field map is empty: every document's [extracted_data] is
    [None] or has a key. *)
Definition no_empty_map (s : Store) : Prop :=
  Forall (fun r => Document.extracted_data r <> Some []) (documents s).

(** [m] keeps [P] however it ends, and what it returns satisfies [V]. *)
Definition returns_with {A} (P : AsyncSession -> Prop) (V : A -> Prop) (m : M A)
  : Prop :=
  forall db, P db ->
    match m db with
    | Ok a db' => P db' /\ V a
    | Raise _ db' => P db'
    end.

(** The number of documents of the intake and kind of [document] that are
    extracted, in the sense of [Document.is_extracted]: their field map is
    not null and not empty. *)
Definition is_extracted_count (document : Document.t) (s : Store) : Z :=
  Z.of_nat
    (List.length
       (filter (fun r => String.eqb (Document.intake_id r) (Document.intake_id document)
                         && DocKind_eqb (Document.doc_kind r) (Document.doc_kind document)
                         && Document.is_extracted r)
               (documents s))).

(** A database with one average client and nothing else. *)
Definition one_client : Store :=
  mkStore [Client.mk "c9" "Hal" "hal@example.com" AVERAGE] [] [] [].

Definition receipt_upload (name content : string) : UploadFile :=
  mkUploadFile name (list_byte_of_string content).

(** The intake is created; two receipts are uploaded, classified and
    extracted one after the other, with a request that fails in between. *)
Definition two_receipts : list Operation :=
  [ CreateIntake "c9" 2025 "i9" ("k17", "k18", "k19");
    NewSession true None;
    UploadDocument sample_env "i9" (receipt_upload "a.jpg" "first") "u1";
    NewSession true None;
    UploadDocument sample_env "i9" (receipt_upload "b.jpg" "second") "u2";
    NewSession true None;
    ClassifyIntakeDocuments sample_service "i9";
    NewSession true (Some 1%nat);
    ExtractDocument sample_service "u2";
    NewSession false None;
    ExtractDocument sample_service "u2";
    NewSession true None;
    ExtractDocument sample_service "u1";
    NewSession true None ].





(** A simple client's intake is created; its T4 and its ID are uploaded,
    classified by a model that answers with the file's name, and extracted;
    one request fails on the way and is rolled back. *)
Definition naming_service : qwen3vl_service.t :=
  qwen3vl_service.mk
    (fun path => Some (if contains "t4" path then "T4" else "id"))
    (fun _ => Some (T4Extraction.mk (JObj [("employer_name", JStr "ACME Corp")])
                      (JObj []) (Some "2024") (JObj [])))
    (fun _ => Some (IDExtraction.mk (Some "Ann Lee") None (Some "L-1") None None None None))
    (fun _ => Some (ReceiptExtraction.mk (Some "Depot") (Some "$12.50") None None)).

Definition one_simple_client : Store :=
  mkStore [Client.mk "c10" "Ida" "ida@example.com" SIMPLE] [] [] [].

Definition simple_intake_completed : list Operation :=
  [ CreateIntake "c10" 2025 "i10" ("k20", "k21", "k22");
    NewSession true None;
    UploadDocument sample_env "i10" (receipt_upload "t4.jpg" "t4") "u3";
    NewSession true None;
    UploadDocument sample_env "i10" (receipt_upload "id.jpg" "id") "u4";
    NewSession true None;
    ClassifyIntakeDocuments naming_service "i10";
    NewSession true (Some 2%nat);
    ExtractIntakeDocuments naming_service "i10";
    NewSession false None;
    ExtractIntakeDocuments naming_service "i10";
    NewSession true None;
    GetIntakeChecklist "i10" ].


(** A complex client's intake with one T4 uploaded, classified and
    extracted: 1 document received of the 7 expected. *)
Definition one_complex_client : Store :=
  mkStore [Client.mk "c11" "Jo" "jo@example.com" COMPLEX] [] [] [].

Definition complex_one_t4 : list Operation :=
  [ CreateIntake "c11" 2025 "i12" ("k26", "k27", "k28");
    NewSession true None;
    UploadDocument sample_env "i12" (receipt_upload "t4.jpg" "t4") "u6";
    NewSession true None;
    ClassifyDocument naming_service "u6";
    NewSession true None;
    ExtractDocument naming_service "u6";
    NewSession true None ].

(** A simple client's intake to which two T4 slips were uploaded,
    classified and extracted: the T4 item has received 2 of the 1 expected. *)
Definition simple_two_t4 : list Operation :=
  [ CreateIntake "c10" 2025 "i13" ("k29", "k30", "k31");
    NewSession true None;
    UploadDocument sample_env "i13" (receipt_upload "t4.jpg" "t4 of the first employer") "u7";
    NewSession true None;
    UploadDocument sample_env "i13" (receipt_upload "t4.jpg" "t4 of the second employer") "u8";
    NewSession true None;
    ClassifyIntakeDocuments naming_service "i13";
    NewSession true None;
    ExtractIntakeDocuments naming_service "i13";
    NewSession true None ].

(** ** Percentages as floats *)

(** [r / e * 100.0] *)
Definition percentage (r e : Z) : option Float.t :=
  option_map (fun q => Float.mul q Float.hundred) (Float.truediv r e).

(** Two floats are the same number with the same sign. *)
Definition same_float (x y : Float.t) : bool :=
  match x, y with
  | SpecFloat.S754_zero s, SpecFloat.S754_zero s' => Bool.eqb s s'
  | SpecFloat.S754_infinity s, SpecFloat.S754_infinity s' => Bool.eqb s s'
  | SpecFloat.S754_nan, SpecFloat.S754_nan => true
  | SpecFloat.S754_finite s m e, SpecFloat.S754_finite s' m' e' =>
      Bool.eqb s s' && Pos.eqb m m' && Z.eqb e e'
  | _, _ => false
  end.

(** For [r] received of [e] expected: the percentage has a value, which is
    not negative, is at most [100.0] exactly when [r <= e], and is [100.0]
    exactly when [r = e]. *)
Definition percentage_checked (r e : Z) : bool :=
  match percentage r e with
  | None => false
  | Some p =>
      Float.leb Float.zero p
      && Bool.eqb (Float.leb p Float.hundred) (r <=? e)
      && Bool.eqb (same_float p Float.hundred) (r =? e)
  end.

(** The quantities up to which the percentages are checked one by one. *)
Definition checked_quantity : Z := 100.

Definition percentage_table : bool :=
  forallb (fun e =>
             forallb (fun r => percentage_checked (Z.of_nat r) (Z.of_nat e))
                     (seq 0 (S (Z.to_nat checked_quantity))))
          (seq 1 (Z.to_nat checked_quantity)).

(** * Properties of the reconciliation engine *)

(** ** Runs in which no round trip fails *)

Lemma round_trip_no_faults {A} (k : M A) db :
  faults db = None -> round_trip k db = k db.
Proof. intros H. unfold round_trip. now rewrite H. Qed.

Lemma execute_select_no_faults {R} (table : Store -> list R) where_ db :
  faults db = None ->
  execute_select table where_ db = Ok (filter where_ (table (pending db))) db.
Proof. intros H. unfold execute_select. now rewrite round_trip_no_faults. Qed.

Lemma commit_no_faults db :
  faults db = None ->
  commit db = Ok tt (mkSession (pending db) (pending db) None).
Proof. intros H. unfold commit. rewrite round_trip_no_faults by assumption. now rewrite H. Qed.

Lemma session_eta db :
  mkSession (pending db) (committed db) (faults db) = db.
Proof. now destruct db. Qed.

Lemma check_and_update_intake_status_run intake_id db :
  faults db = None ->
  check_and_update_intake_status intake_id db =
  match filter (fun r => String.eqb (Intake.id r) intake_id) (intakes (pending db)) with
  | [] => Ok tt db
  | [intake] =>
      if Nat.eqb (List.length (filter (missing_where intake_id)
                                 (checklist_items (pending db)))) 0
      then let s := write_intake (Intake.set_status intake DONE) (pending db) in
           Ok tt (mkSession s s None)
      else Ok tt db
  | _ :: _ :: _ => Raise MultipleResultsFound db
  end.
Proof.
  intros H. unfold check_and_update_intake_status, bind.
  rewrite execute_select_no_faults by assumption.
  destruct (filter _ (intakes (pending db))) as [|intake [|? ?]]; simpl; try reflexivity.
  rewrite execute_select_no_faults by assumption.
  fold (missing_where intake_id).
  destruct (Nat.eqb _ 0); [|reflexivity].
  unfold modify. rewrite commit_no_faults by (simpl; assumption).
  reflexivity.
Qed.

Lemma update_checklist_for_document_run document db :
  faults db = None ->
  update_checklist_for_document document db =
  if DocKind_eqb (Document.doc_kind document) UNKNOWN
     || negb (truthy (Document.extracted_data document))
  then Ok tt db
  else
    match filter (item_where document) (checklist_items (pending db)) with
    | [] => Ok tt db
    | [item] =>
        let s := write_checklist_item (recounted document (pending db) item) (pending db) in
        check_and_update_intake_status (Document.intake_id document) (mkSession s s None)
    | _ :: _ :: _ => Raise MultipleResultsFound db
    end.
Proof.
  intros H. unfold update_checklist_for_document.
  destruct (DocKind_eqb _ UNKNOWN || negb _); [reflexivity|].
  unfold bind. rewrite execute_select_no_faults by assumption.
  fold (item_where document).
  destruct (filter _ (checklist_items (pending db))) as [|item [|? ?]]; simpl; try reflexivity.
  rewrite execute_select_no_faults by assumption.
  unfold modify. rewrite commit_no_faults by (simpl; assumption).
  reflexivity.
Qed.

(** ** Requirement policy *)

(** For a simple and for an average client the expected quantities of the
    checklist items that [create_intake] builds add up to
    [Client.expected_document_count]: 2 and 4. *)
Lemma create_intake_expected_total_simple_average :
  forall (client : Client.t) (new_intake_id : string) (item_ids : string * string * string),
    Client.complexity client <> COMPLEX ->
    sum_Z (map ChecklistItem.quantity_expected
             (create_intake_checklist_items new_intake_id client item_ids))
    = Client.expected_document_count client
    /\ Client.expected_document_count client
       = match Client.complexity client with
         | SIMPLE => 2
         | _ => 4
         end.
Proof.
  intros [i n e c] new_intake_id [[id1 id2] id3] Hc.
  destruct c; try (split; reflexivity). now elim Hc.
Qed.

(** C4. For a complex client the expected quantities of the checklist items
    that [create_intake] builds (one T4, one ID, five receipts) add up to 7,
    where the documentation of the tier and [Client.expected_document_count]
    say 8. *)
Theorem create_intake_expected_total_complex :
  forall (i n e new_intake_id : string) (item_ids : string * string * string),
    let client := Client.mk i n e COMPLEX in
    sum_Z (map ChecklistItem.quantity_expected
             (create_intake_checklist_items new_intake_id client item_ids)) = 7
    /\ Client.expected_document_count client = 8.
Proof.
  intros i n e new_intake_id [[id1 id2] id3]. split; reflexivity.
Qed.

(** The items are created missing, with nothing received, for the new
    intake, and no item expects zero documents. *)
Lemma create_intake_checklist_items_fresh client new_intake_id item_ids :
  Forall (fun item =>
            ChecklistItem.intake_id item = new_intake_id
            /\ ChecklistItem.status item = MISSING
            /\ ChecklistItem.quantity_received item = 0
            /\ 0 < ChecklistItem.quantity_expected item)
         (create_intake_checklist_items new_intake_id client item_ids).
Proof.
  destruct client as [i n e c], item_ids as [[id1 id2] id3].
  destruct c; cbn; repeat constructor.
Qed.

(** ** Inversion of successful runs *)

Lemma same_data_refl db : same_data db db.
Proof. split; reflexivity. Qed.

Lemma bind_Ok {A B} (m : M A) (k : A -> M B) db b db' :
  bind m k db = Ok b db' ->
  exists a db1, m db = Ok a db1 /\ k a db1 = Ok b db'.
Proof.
  unfold bind. destruct (m db) as [a db1|e db1]; [|discriminate].
  intros H. now exists a, db1.
Qed.

Lemma round_trip_Ok {A} (k : M A) db a db' :
  round_trip k db = Ok a db' ->
  exists db1, same_data db db1 /\ k db1 = Ok a db'.
Proof.
  unfold round_trip. destruct (faults db) as [[|n]|]; [discriminate| |]; intros H.
  - eexists. split; [|exact H]. split; reflexivity.
  - exists db. split; [apply same_data_refl|exact H].
Qed.

Lemma execute_select_Ok {R} (table : Store -> list R) where_ db rows db' :
  execute_select table where_ db = Ok rows db' ->
  rows = filter where_ (table (pending db)) /\ same_data db db'.
Proof.
  intros H. apply round_trip_Ok in H. destruct H as (db1 & [Hp Hc] & H).
  injection H as <- <-. rewrite Hp. split; [reflexivity|now split].
Qed.

Lemma flush_Ok db u db' : flush db = Ok u db' -> same_data db db'.
Proof.
  intros H. apply round_trip_Ok in H. destruct H as (db1 & Hs & H).
  injection H as _ <-. exact Hs.
Qed.

Lemma refresh_Ok db u db' : refresh db = Ok u db' -> same_data db db'.
Proof. exact (flush_Ok db u db'). Qed.

Lemma commit_Ok db u db' :
  commit db = Ok u db' -> pending db' = pending db /\ committed db' = pending db.
Proof.
  intros H. apply round_trip_Ok in H. destruct H as (db1 & [Hp Hc] & H).
  injection H as _ <-. simpl. now rewrite Hp.
Qed.

Lemma modify_Ok f db u db' :
  modify f db = Ok u db' ->
  pending db' = f (pending db) /\ committed db' = committed db.
Proof. intros H. injection H as _ <-. now split. Qed.

Lemma scalar_one_or_none_Ok {R} (rows : list R) db o db' :
  scalar_one_or_none rows db = Ok o db' ->
  db' = db /\ ((rows = [] /\ o = None) \/ exists r, rows = [r] /\ o = Some r).
Proof.
  destruct rows as [|r [|? ?]]; simpl; intros H; try discriminate;
    injection H as <- <-; split; auto. right. now exists r.
Qed.

Lemma scalar_one_Ok {R} (rows : list R) db r db' :
  scalar_one rows db = Ok r db' -> db' = db /\ rows = [r].
Proof.
  destruct rows as [|r0 [|? ?]]; simpl; intros H; try discriminate.
  injection H as <- <-. now split.
Qed.

(** A successful [create_intake] appends exactly these items. *)
Lemma create_intake_adds_items client_id fiscal_year new_intake_id item_ids db r db' :
  create_intake client_id fiscal_year new_intake_id item_ids db = Ok r db' ->
  exists client,
    In client (clients (pending db))
    /\ Client.id client = client_id
    /\ checklist_items (pending db')
       = checklist_items (pending db)
         ++ create_intake_checklist_items new_intake_id client item_ids.
Proof.
  unfold create_intake. intros H.
  apply bind_Ok in H. destruct H as (rows & db1 & H1 & H).
  apply execute_select_Ok in H1. destruct H1 as [-> [Hp1 _]].
  apply bind_Ok in H. destruct H as (o & db2 & H2 & H).
  apply scalar_one_or_none_Ok in H2.
  destruct H2 as [-> [[_ ->]|(client & Hrows & ->)]]; [discriminate|].
  assert (Hin : In client (filter (fun r => String.eqb (Client.id r) client_id)
                             (clients (pending db)))) by (rewrite Hrows; now left).
  apply filter_In in Hin. destruct Hin as [Hin Hid]. apply String.eqb_eq in Hid.
  exists client. split; [exact Hin|]. split; [exact Hid|].
  apply bind_Ok in H. destruct H as (rows3 & db3 & H3 & H).
  apply execute_select_Ok in H3. destruct H3 as [_ [Hp3 _]].
  apply bind_Ok in H. destruct H as (o4 & db4 & H4 & H).
  apply scalar_one_or_none_Ok in H4.
  destruct H4 as [-> [[_ ->]|(? & _ & ->)]]; [|discriminate].
  apply bind_Ok in H. destruct H as (? & db5 & H5 & H). apply modify_Ok in H5.
  apply bind_Ok in H. destruct H as (? & db6 & H6 & H). apply flush_Ok in H6.
  apply bind_Ok in H. destruct H as (? & db7 & H7 & H). apply refresh_Ok in H7.
  apply bind_Ok in H. destruct H as (? & db8 & H8 & H). apply modify_Ok in H8.
  apply bind_Ok in H. destruct H as (? & db9 & H9 & H). apply flush_Ok in H9.
  apply bind_Ok in H. destruct H as (? & db10 & H10 & H).
  apply round_trip_Ok in H10. destruct H10 as (db11 & H11 & H10).
  injection H10 as _ <-. apply scalar_one_Ok in H. destruct H as [-> _].
  destruct H5 as [H5 _], H6 as [H6 _], H7 as [H7 _], H8 as [H8 _], H9 as [H9 _],
    H11 as [H11 _].
  rewrite H11, H9, H8, H7, H6, H5, Hp3, Hp1. reflexivity.
Qed.

(** ** The recount *)

Lemma recounted_id d s item :
  ChecklistItem.id (recounted d s item) = ChecklistItem.id item.
Proof. unfold recounted. now destruct (_ >=? _). Qed.

Lemma recounted_where d d' s item :
  item_where d' (recounted d s item) = item_where d' item.
Proof. unfold recounted, item_where. now destruct (_ >=? _). Qed.

Lemma recounted_quantity_expected d s item :
  ChecklistItem.quantity_expected (recounted d s item)
  = ChecklistItem.quantity_expected item.
Proof. unfold recounted. now destruct (_ >=? _). Qed.

Lemma recounted_quantity_received d s item :
  ChecklistItem.quantity_received (recounted d s item) = extracted_count d s.
Proof. unfold recounted. now destruct (_ >=? _). Qed.

Lemma recounted_status d s item :
  ChecklistItem.status (recounted d s item)
  = if extracted_count d s >=? ChecklistItem.quantity_expected item
    then RECEIVED else ChecklistItem.status item.
Proof. unfold recounted. simpl. now destruct (_ >=? _). Qed.

(** Writing a row over the one with its primary key, in a table whose
    primary keys are distinct, changes what a query returned from [[item]] to
    [[item']] when the new row still satisfies the query. *)
Lemma filter_written (p : ChecklistItem.t -> bool) item item' l :
  NoDup (map ChecklistItem.id l) ->
  filter p l = [item] ->
  ChecklistItem.id item' = ChecklistItem.id item ->
  p item' = true ->
  filter p (map (fun r => if String.eqb (ChecklistItem.id r) (ChecklistItem.id item')
                          then item' else r) l) = [item'].
Proof.
  intros Hnd Hf Hid Hp. rewrite Hid.
  induction l as [|r l IH]; simpl in *; [discriminate|].
  inversion Hnd as [|? ? Hnotin Hnd']; subst.
  destruct (p r) eqn:Hr.
  - injection Hf as -> Hnil. rewrite String.eqb_refl. simpl. rewrite Hp. f_equal.
    assert (Hsame : map (fun r => if String.eqb (ChecklistItem.id r) (ChecklistItem.id item)
                                  then item' else r) l = l).
    { rewrite <- (map_id l) at 2. apply map_ext_in. intros a Ha.
      destruct (String.eqb_spec (ChecklistItem.id a) (ChecklistItem.id item)) as [E|]; [|reflexivity].
      elim Hnotin. rewrite <- E. now apply in_map. }
    now rewrite Hsame.
  - assert (Hin : In item l).
    { assert (H : In item (filter p l)) by (rewrite Hf; now left).
      now apply filter_In in H. }
    destruct (String.eqb_spec (ChecklistItem.id r) (ChecklistItem.id item)) as [E|].
    + elim Hnotin. rewrite E. now apply in_map.
    + rewrite Hr. now apply IH.
Qed.

(** The cascade leaves the checklist items and the documents alone, and
    commits, if at all, the session's whole view. *)
Lemma check_and_update_intake_status_frame intake_id db :
  faults db = None ->
  let db' := session (check_and_update_intake_status intake_id db) in
  checklist_items (pending db') = checklist_items (pending db)
  /\ documents (pending db') = documents (pending db)
  /\ (committed db' = committed db \/ committed db' = pending db').
Proof.
  intros H. rewrite check_and_update_intake_status_run by assumption.
  destruct (filter _ (intakes (pending db))) as [|intake [|? ?]]; simpl; auto.
  destruct (Nat.eqb _ 0); simpl; auto.
Qed.

(** After a reconciliation that passes the guard and locates an item, the
    checklist items are those before it with the located row recounted, in
    the session's view and in the committed database; the documents are
    untouched. *)
Lemma update_checklist_for_document_items document db item :
  faults db = None ->
  DocKind_eqb (Document.doc_kind document) UNKNOWN
    || negb (truthy (Document.extracted_data document)) = false ->
  filter (item_where document) (checklist_items (pending db)) = [item] ->
  let db' := session (update_checklist_for_document document db) in
  let s := write_checklist_item (recounted document (pending db) item) (pending db) in
  checklist_items (pending db') = checklist_items s
  /\ checklist_items (committed db') = checklist_items s
  /\ documents (pending db') = documents (pending db).
Proof.
  intros H Hg Hf. rewrite update_checklist_for_document_run by assumption.
  rewrite Hg, Hf. cbv zeta.
  set (s := write_checklist_item _ _).
  destruct (check_and_update_intake_status_frame (Document.intake_id document)
              (mkSession s s None) eq_refl) as (Hi & Hd & Hc).
  simpl in Hi, Hd, Hc. repeat split; try assumption.
  destruct Hc as [-> | ->]; [reflexivity|assumption].
Qed.

(** ** Recount and item status *)

(** The recount's query tests [extracted_data != None] alone. In a database
    seeded with an empty field map (no operation of the service stores one,
    see [run_operations_no_empty_map] below) it counts that map: with two T4
    documents, one of them carrying the empty map, the T4 item's
    [quantity_received] becomes 2, although only one T4 document of the
    intake [is_extracted]. *)
Lemma update_checklist_counts_empty_map :
  let document := sample_document "d1" "i1" T4 (Some sample_fields) in
  let db := clean_session intake_with_empty_map in
  let db' := session (update_checklist_for_document document db) in
  map ChecklistItem.quantity_received
      (filter (item_where document) (checklist_items (committed db'))) = [2]
  /\ List.length
       (filter (fun r => String.eqb (Document.intake_id r) "i1"
                         && DocKind_eqb (Document.doc_kind r) T4
                         && Document.is_extracted r)
               (documents (committed db'))) = 1%nat.
Proof. split; reflexivity. Qed.

(** Where no stored field map is empty, the recount is the number of
    documents of the intake and kind that are extracted, in the sense of
    [Document.is_extracted]. *)
Lemma extracted_count_is_extracted document s :
  Forall (fun r => Document.extracted_data r <> Some []) (documents s) ->
  extracted_count document s
  = Z.of_nat (List.length
                (filter (fun r => String.eqb (Document.intake_id r) (Document.intake_id document)
                                  && DocKind_eqb (Document.doc_kind r) (Document.doc_kind document)
                                  && Document.is_extracted r)
                        (documents s))).
Proof.
  intros H. unfold extracted_count. do 2 f_equal.
  apply filter_ext_in. intros r Hr. unfold count_where. f_equal.
  rewrite Forall_forall in H. specialize (H r Hr).
  unfold Document.is_extracted. destruct (Document.extracted_data r) as [[|? ?]|]; simpl; auto.
  now elim H.
Qed.

(** C2, as stated, fails: after the reconciliation triggered by the
    remaining receipt, the receipt item has received 1 of 2, fewer than
    expected, and its status is still [RECEIVED], not [MISSING]. *)
Lemma update_checklist_keeps_received :
  let document := sample_document "r1" "i2" RECEIPT (Some sample_fields) in
  let db := clean_session intake_with_cleared_receipt in
  exists db' item,
    update_checklist_for_document document db = Ok tt db'
    /\ filter (item_where document) (checklist_items (pending db')) = [item]
    /\ filter (item_where document) (checklist_items (committed db')) = [item]
    /\ ChecklistItem.quantity_received item = 1
    /\ ChecklistItem.quantity_expected item = 2
    /\ ChecklistItem.status item = RECEIVED
    /\ ChecklistItem.status item
       <> (if ChecklistItem.quantity_received item >=? ChecklistItem.quantity_expected item
           then RECEIVED else MISSING).
Proof.
  cbv zeta. eexists. exists (ChecklistItem.mk "k5" "i2" RECEIPT RECEIVED 2 1).
  split; [vm_compute; reflexivity|].
  repeat split; try reflexivity. discriminate.
Qed.

(** C2, amended. After a reconciliation that locates a checklist item, the
    item has the recounted quantity, and its status is [RECEIVED] if
    [quantity_received >= quantity_expected]; otherwise its status is what
    it was before the call. *)
Theorem update_checklist_item_status document db item :
  faults db = None ->
  Document.doc_kind document <> UNKNOWN ->
  truthy (Document.extracted_data document) = true ->
  NoDup (map ChecklistItem.id (checklist_items (pending db))) ->
  filter (item_where document) (checklist_items (pending db)) = [item] ->
  let db' := session (update_checklist_for_document document db) in
  exists item',
    filter (item_where document) (checklist_items (pending db')) = [item']
    /\ filter (item_where document) (checklist_items (committed db')) = [item']
    /\ ChecklistItem.quantity_expected item' = ChecklistItem.quantity_expected item
    /\ ChecklistItem.quantity_received item' = extracted_count document (pending db)
    /\ ChecklistItem.status item'
       = if ChecklistItem.quantity_received item' >=? ChecklistItem.quantity_expected item'
         then RECEIVED else ChecklistItem.status item.
Proof.
  intros Hf Hk Ht Hnd Hitem db'.
  assert (Hg : DocKind_eqb (Document.doc_kind document) UNKNOWN
               || negb (truthy (Document.extracted_data document)) = false).
  { rewrite Ht. destruct (Document.doc_kind document); try reflexivity. now elim Hk. }
  destruct (update_checklist_for_document_items document db item Hf Hg Hitem)
    as (Hp & Hc & _).
  fold db' in Hp, Hc.
  set (item' := recounted document (pending db) item) in *.
  assert (Hlookup : filter (item_where document)
                      (checklist_items (write_checklist_item item' (pending db))) = [item']).
  { simpl. apply filter_written with (item := item); auto.
    - apply recounted_id.
    - unfold item'. rewrite recounted_where.
      assert (H : In item (filter (item_where document) (checklist_items (pending db))))
        by (rewrite Hitem; now left).
      now apply filter_In in H. }
  exists item'. rewrite Hp, Hc. repeat split; try exact Hlookup.
  - apply recounted_quantity_expected.
  - apply recounted_quantity_received.
  - unfold item'. rewrite recounted_status, recounted_quantity_received,
      recounted_quantity_expected. reflexivity.
Qed.

Lemma update_checklist_item_status_witness :
  let document := sample_document "r1" "i2" RECEIPT (Some sample_fields) in
  let db := clean_session intake_with_cleared_receipt in
  let item := ChecklistItem.mk "k5" "i2" RECEIPT RECEIVED 2 2 in
  let db' := session (update_checklist_for_document document db) in
  filter (item_where document) (checklist_items (pending db)) = [item]
  /\ exists item',
       filter (item_where document) (checklist_items (pending db')) = [item']
       /\ filter (item_where document) (checklist_items (committed db')) = [item']
       /\ ChecklistItem.quantity_expected item' = ChecklistItem.quantity_expected item
       /\ ChecklistItem.quantity_received item' = extracted_count document (pending db)
       /\ ChecklistItem.status item'
          = if ChecklistItem.quantity_received item' >=? ChecklistItem.quantity_expected item'
            then RECEIVED else ChecklistItem.status item.
Proof.
  cbv zeta. split; [reflexivity|].
  apply (update_checklist_item_status
           (sample_document "r1" "i2" RECEIPT (Some sample_fields))
           (clean_session intake_with_cleared_receipt)
           (ChecklistItem.mk "k5" "i2" RECEIPT RECEIVED 2 2)).
  - reflexivity.
  - simpl. discriminate.
  - reflexivity.
  - simpl. repeat constructor; simpl; intuition discriminate.
  - reflexivity.
Defined.

(** ** Intake status derivation *)

Lemma is_complete_no_items : Intake.is_complete [] = false.
Proof. reflexivity. Qed.

(** Called on its own for an intake without checklist items, which the
    service never does, [check_and_update_intake_status] finds no missing
    item and commits the status [DONE], where [Intake.is_complete] is false
    and [Intake.update_status] keeps the intake open. *)
Lemma check_and_update_marks_empty_intake_done :
  let db := clean_session intake_without_items in
  exists db',
    check_and_update_intake_status "i3" db = Ok tt db'
    /\ checklist_items (committed db') = []
    /\ intakes (committed db') = [Intake.mk "i3" "c3" 2025 DONE]
    /\ Intake.is_complete (checklist_items (committed db')) = false
    /\ Intake.update_status (Intake.mk "i3" "c3" 2025 OPEN)
         (checklist_items (committed db'))
       = Intake.mk "i3" "c3" 2025 OPEN.
Proof. cbv zeta. eexists. split; [vm_compute; reflexivity|]. repeat split. Qed.

(** Writing an intake over the row with its primary key: a query by that key
    returns the new row wherever it returned a row. *)
Lemma filter_intake_written (x : Intake.t) l intake_id :
  Intake.id x = intake_id ->
  filter (fun r => String.eqb (Intake.id r) intake_id)
         (map (fun r => if String.eqb (Intake.id r) (Intake.id x) then x else r) l)
  = map (fun _ => x) (filter (fun r => String.eqb (Intake.id r) intake_id) l).
Proof.
  intros Hx. rewrite Hx. induction l as [|r l IH]; simpl; [reflexivity|].
  destruct (String.eqb (Intake.id r) intake_id) eqn:E; simpl.
  - rewrite Hx, String.eqb_refl. simpl. now f_equal.
  - rewrite E. exact IH.
Qed.

Lemma filter_andb_nil {A} (p q : A -> bool) l :
  filter p l = [] -> filter (fun x => p x && q x) l = [].
Proof.
  induction l as [|a l IH]; simpl; [reflexivity|].
  destruct (p a); [discriminate|]. exact IH.
Qed.

(** The same on every intake that has no checklist item at all. *)
Lemma check_and_update_without_items intake_id intake db :
  faults db = None ->
  filter (fun r => String.eqb (Intake.id r) intake_id) (intakes (pending db)) = [intake] ->
  filter (fun r => String.eqb (ChecklistItem.intake_id r) intake_id)
         (checklist_items (pending db)) = [] ->
  exists db',
    check_and_update_intake_status intake_id db = Ok tt db'
    /\ filter (fun r => String.eqb (Intake.id r) intake_id) (intakes (committed db'))
       = [Intake.set_status intake DONE].
Proof.
  intros Hf Hi Hn. rewrite check_and_update_intake_status_run by assumption.
  rewrite Hi.
  assert (Hm : filter (missing_where intake_id) (checklist_items (pending db)) = [])
    by (apply filter_andb_nil; exact Hn).
  rewrite Hm. simpl. eexists. split; [reflexivity|]. simpl.
  assert (Hid : Intake.id intake = intake_id).
  { assert (H : In intake (filter (fun r => String.eqb (Intake.id r) intake_id)
                             (intakes (pending db)))) by (rewrite Hi; now left).
    apply filter_In in H. now apply String.eqb_eq. }
  rewrite (filter_intake_written (Intake.set_status intake DONE) _ intake_id Hid).
  now rewrite Hi.
Qed.

(** ** No-op reconciliations *)

(** C6. When the triggering document is of the unknown kind, or carries no
    field map or an empty one, or the intake has no checklist item of its
    kind, reconciliation changes nothing: the session's view and the
    committed database are what they were, and unless a round trip fails the
    call returns normally in the very same session. *)
Theorem update_checklist_noop document db :
  Document.doc_kind document = UNKNOWN
  \/ Document.extracted_data document = None
  \/ Document.extracted_data document = Some []
  \/ filter (item_where document) (checklist_items (pending db)) = [] ->
  same_data db (session (update_checklist_for_document document db))
  /\ (faults db = None -> update_checklist_for_document document db = Ok tt db).
Proof.
  intros H. unfold update_checklist_for_document.
  destruct (DocKind_eqb (Document.doc_kind document) UNKNOWN
            || negb (truthy (Document.extracted_data document))) eqn:Hg.
  - split; [apply same_data_refl|reflexivity].
  - destruct H as [H|[H|[H|H]]].
    + rewrite H in Hg. discriminate.
    + rewrite H, orb_true_r in Hg. discriminate.
    + rewrite H, orb_true_r in Hg. discriminate.
    + fold (item_where document). unfold bind, execute_select, round_trip.
      destruct (faults db) as [[|n]|]; simpl; try rewrite H; simpl;
        (split; [split; reflexivity|]); intros E; try discriminate E; reflexivity.
Qed.

Lemma update_checklist_noop_witness :
  let document := sample_document "e1" "i4" RECEIPT (Some sample_fields) in
  let db := clean_session intake_with_extra_receipt in
  filter (item_where document) (checklist_items (pending db)) = []
  /\ same_data db (session (update_checklist_for_document document db))
  /\ (faults db = None -> update_checklist_for_document document db = Ok tt db).
Proof.
  cbv zeta. split; [reflexivity|].
  apply (update_checklist_noop
           (sample_document "e1" "i4" RECEIPT (Some sample_fields))
           (clean_session intake_with_extra_receipt)).
  right. right. right. reflexivity.
Defined.

(** ** Idempotence *)

Lemma write_checklist_item_fixed item s :
  (forall r, In r (checklist_items s) ->
             ChecklistItem.id r = ChecklistItem.id item -> r = item) ->
  write_checklist_item item s = s.
Proof.
  intros H. destruct s as [cs ins ds ks]. unfold write_checklist_item. simpl in *.
  f_equal. rewrite <- (map_id ks) at 2. apply map_ext_in. intros r Hr.
  destruct (String.eqb_spec (ChecklistItem.id r) (ChecklistItem.id item)); [|reflexivity].
  symmetry. now apply H.
Qed.

Lemma write_checklist_item_rows item s r :
  In r (checklist_items (write_checklist_item item s)) ->
  ChecklistItem.id r = ChecklistItem.id item -> r = item.
Proof.
  simpl. rewrite in_map_iff. intros (r0 & E & _) Hid.
  destruct (String.eqb_spec (ChecklistItem.id r0) (ChecklistItem.id item)); congruence.
Qed.

Lemma write_intake_fixed intake s :
  (forall r, In r (intakes s) -> Intake.id r = Intake.id intake -> r = intake) ->
  write_intake intake s = s.
Proof.
  intros H. destruct s as [cs ins ds ks]. unfold write_intake. simpl in *.
  f_equal. rewrite <- (map_id ins) at 2. apply map_ext_in. intros r Hr.
  destruct (String.eqb_spec (Intake.id r) (Intake.id intake)); [|reflexivity].
  symmetry. now apply H.
Qed.

Lemma write_intake_rows intake s r :
  In r (intakes (write_intake intake s)) ->
  Intake.id r = Intake.id intake -> r = intake.
Proof.
  simpl. rewrite in_map_iff. intros (r0 & E & _) Hid.
  destruct (String.eqb_spec (Intake.id r0) (Intake.id intake)); congruence.
Qed.

Lemma recounted_fixed d s s' item :
  documents s' = documents s ->
  recounted d s' (recounted d s item) = recounted d s item.
Proof.
  intros H. unfold recounted, extracted_count. rewrite H. simpl.
  set (n := Z.of_nat _).
  destruct (n >=? ChecklistItem.quantity_expected item) eqn:E; simpl; rewrite E; reflexivity.
Qed.

(** In a clean session whose located item is already recounted, the
    reconciliation amounts to the cascade alone. *)
Lemma update_checklist_for_document_recounted document s item' :
  DocKind_eqb (Document.doc_kind document) UNKNOWN
    || negb (truthy (Document.extracted_data document)) = false ->
  filter (item_where document) (checklist_items s) = [item'] ->
  recounted document s item' = item' ->
  (forall r, In r (checklist_items s) ->
             ChecklistItem.id r = ChecklistItem.id item' -> r = item') ->
  update_checklist_for_document document (mkSession s s None)
  = check_and_update_intake_status (Document.intake_id document) (mkSession s s None).
Proof.
  intros Hg Hitem Hrec Hrows.
  rewrite update_checklist_for_document_run by reflexivity.
  rewrite Hg. simpl pending. rewrite Hitem. cbv zeta.
  rewrite Hrec, write_checklist_item_fixed by assumption. reflexivity.
Qed.

(** C5. Reconciliation is idempotent: run again for the same document in the
    session the first call left, it ends the same way and leaves that
    session, its view and the committed database, exactly as it found it. *)
Theorem update_checklist_idempotent document db :
  faults db = None ->
  NoDup (map ChecklistItem.id (checklist_items (pending db))) ->
  update_checklist_for_document document
    (session (update_checklist_for_document document db))
  = update_checklist_for_document document db.
Proof.
  intros Hf Hnd.
  rewrite (update_checklist_for_document_run document db Hf).
  destruct (DocKind_eqb (Document.doc_kind document) UNKNOWN
            || negb (truthy (Document.extracted_data document))) eqn:Hg.
  { simpl. rewrite update_checklist_for_document_run by assumption.
    now rewrite Hg. }
  destruct (filter (item_where document) (checklist_items (pending db)))
    as [|item [|item2 rest]] eqn:Hitem.
  { simpl. rewrite update_checklist_for_document_run by assumption.
    now rewrite Hg, Hitem. }
  2:{ simpl. rewrite update_checklist_for_document_run by assumption.
      now rewrite Hg, Hitem. }
  cbv zeta.
  set (item' := recounted document (pending db) item).
  set (s1 := write_checklist_item item' (pending db)).
  assert (Hlookup : filter (item_where document) (checklist_items s1) = [item']).
  { simpl. apply filter_written with (item := item); auto.
    - apply recounted_id.
    - unfold item'. rewrite recounted_where.
      assert (H : In item (filter (item_where document) (checklist_items (pending db))))
        by (rewrite Hitem; now left).
      now apply filter_In in H. }
  assert (Hrec : forall s, documents s = documents (pending db) ->
                           recounted document s item' = item')
    by (intros s Hs; now apply recounted_fixed).
  rewrite check_and_update_intake_status_run by reflexivity. simpl pending.
  destruct (filter (fun r => String.eqb (Intake.id r) (Document.intake_id document))
              (intakes s1)) as [|intake [|intake2 rest]] eqn:Hintake.
  - simpl session.
    rewrite update_checklist_for_document_recounted with (item' := item'); auto.
    + rewrite check_and_update_intake_status_run by reflexivity. simpl pending.
      now rewrite Hintake.
    + intros r. apply write_checklist_item_rows.
  - destruct (Nat.eqb _ 0) eqn:Hmissing.
    + cbv zeta. simpl session.
      set (intake' := Intake.set_status intake DONE).
      set (s2 := write_intake intake' s1).
      assert (Hid : Intake.id intake' = Document.intake_id document).
      { assert (H : In intake (filter (fun r => String.eqb (Intake.id r)
                                                  (Document.intake_id document))
                                 (intakes s1))) by (rewrite Hintake; now left).
        apply filter_In in H. now apply String.eqb_eq. }
      rewrite update_checklist_for_document_recounted with (item' := item'); auto.
      * assert (Hintake2 : filter (fun r => String.eqb (Intake.id r)
                                              (Document.intake_id document))
                             (intakes s2) = [intake']).
        { unfold s2, write_intake. cbn [intakes].
          rewrite (filter_intake_written intake' _ _ Hid), Hintake. reflexivity. }
        rewrite check_and_update_intake_status_run by reflexivity. simpl pending.
        rewrite Hintake2.
        change (checklist_items s2) with (checklist_items s1). rewrite Hmissing.
        cbv zeta.
        replace (Intake.set_status intake' DONE) with intake' by reflexivity.
        rewrite write_intake_fixed; [reflexivity|].
        intros r. apply write_intake_rows.
      * intros r. apply (write_checklist_item_rows item' (pending db)).
    + simpl session.
      rewrite update_checklist_for_document_recounted with (item' := item'); auto.
      * rewrite check_and_update_intake_status_run by reflexivity. simpl pending.
        now rewrite Hintake, Hmissing.
      * intros r. apply write_checklist_item_rows.
  - simpl session.
    rewrite update_checklist_for_document_recounted with (item' := item'); auto.
    + rewrite check_and_update_intake_status_run by reflexivity. simpl pending.
      now rewrite Hintake.
    + intros r. apply write_checklist_item_rows.
Qed.

Lemma update_checklist_idempotent_witness :
  let document := sample_document "t1" "i5" T4 (Some sample_fields) in
  let db := clean_session intake_ready_for_done in
  intakes (committed (session (update_checklist_for_document document db)))
  = [Intake.mk "i5" "c5" 2025 DONE]
  /\ update_checklist_for_document document
       (session (update_checklist_for_document document db))
     = update_checklist_for_document document db.
Proof.
  cbv zeta. split; [reflexivity|].
  apply (update_checklist_idempotent
           (sample_document "t1" "i5" T4 (Some sample_fields))
           (clean_session intake_ready_for_done)).
  - reflexivity.
  - simpl. repeat constructor; simpl; intuition discriminate.
Defined.

(** ** Commit points *)

(** C7, as stated, fails: when the round trip that follows the first commit
    fails, the call raises with the T4 item's update committed (received,
    1 of 1, no item of the intake missing any more) and the intake still
    open, whereas the complete reconciliation commits the intake as done. *)
Lemma update_checklist_partially_applied :
  let document := sample_document "t1" "i5" T4 (Some sample_fields) in
  let db := mkSession intake_ready_for_done intake_ready_for_done (Some 3%nat) in
  exists db',
    update_checklist_for_document document db = Raise OperationalError db'
    /\ checklist_items (committed db')
       = [ChecklistItem.mk "k8" "i5" T4 RECEIVED 1 1;
          ChecklistItem.mk "k9" "i5" ID RECEIVED 1 1]
    /\ checklist_items (committed db') <> checklist_items (committed db)
    /\ intakes (committed db') = [Intake.mk "i5" "c5" 2025 OPEN]
    /\ intakes (committed (session (update_checklist_for_document document
                                      (clean_session intake_ready_for_done))))
       = [Intake.mk "i5" "c5" 2025 DONE].
Proof.
  cbv zeta. eexists. split; [vm_compute; reflexivity|].
  repeat split; try reflexivity. discriminate.
Qed.

Ltac commit_point :=
  split;
  [ solve [ left; reflexivity | right; left; reflexivity | right; right; reflexivity ]
  | let H := fresh in
    intros ? H; solve [ discriminate H | injection H as <-; split; reflexivity ] ].

(** C7, amended. Reconciliation commits twice, the item's update first and
    the intake status after it. Whatever round trip fails, the committed
    database after the call is the one before it, or the session's view with
    only the located item recounted, or what the complete reconciliation
    commits; so the item's update can be committed without the intake-status
    re-evaluation, never the re-evaluation without the item's update. A call
    that returns normally has applied both. *)
Theorem update_checklist_commit_points document db :
  let db' := session (update_checklist_for_document document db) in
  let full := session (update_checklist_for_document document
                         (mkSession (pending db) (committed db) None)) in
  (committed db' = committed db
   \/ committed db'
      = mkStore (clients (pending db)) (intakes (pending db)) (documents (pending db))
                (checklist_items (pending full))
   \/ committed db' = committed full)
  /\ (forall db1, update_checklist_for_document document db = Ok tt db1 ->
                  pending db1 = pending full /\ committed db1 = committed full).
Proof.
  intros db' full. subst db' full.
  destruct (faults db) as [n|] eqn:E.
  2:{ rewrite <- E, session_eta. split; [now right; right|].
      intros db1 ->. now split. }
  destruct db as [p c f]. simpl in E. subst f.
  unfold update_checklist_for_document.
  destruct (DocKind_eqb (Document.doc_kind document) UNKNOWN
            || negb (truthy (Document.extracted_data document))).
  { split; [now left|]. intros db1 H. injection H as <-. now split. }
  unfold check_and_update_intake_status, bind, execute_select, commit, modify, round_trip.
  cbn [faults pending committed].
  fold (item_where document). fold (count_where document).
  fold (missing_where (Document.intake_id document)).
  destruct (filter (item_where document) (checklist_items p)) as [|item [|? ?]];
    destruct n as [|[|[|[|[|[|n]]]]]];
    cbn -[filter write_intake write_checklist_item];
    try commit_point.
  all: set (s1 := write_checklist_item _ _).
  all: destruct (filter (fun r => String.eqb (Intake.id r) (Document.intake_id document))
                   (intakes s1)) as [|intake [|? ?]];
    cbn -[filter write_intake write_checklist_item];
    try commit_point.
  all: destruct (Nat.eqb _ 0);
    cbn -[filter write_intake write_checklist_item];
    commit_point.
Qed.

(** ** Duplicate uploads *)

Lemma save_uploaded_file_valid env file bucket_dir intake_id db :
  upload_valid env file ->
  exists stored_path mime_type,
    save_uploaded_file env file bucket_dir intake_id
      settings.ALLOWED_EXTENSIONS settings.MAX_FILE_SIZE db
    = Ok (upload_content file, stored_path, mime_type,
          Z.of_nat (List.length (upload_content file))) db.
Proof.
  intros [Hsize Hext].
  unfold save_uploaded_file, bind, validate_file_size, validate_file_type.
  assert (E : (Z.of_nat (List.length (upload_content file)) >? settings.MAX_FILE_SIZE) = false)
    by (rewrite Z.gtb_ltb; apply Z.ltb_ge; exact Hsize).
  rewrite E, Hext. simpl.
  destruct (guess_type env (upload_filename file)); simpl; eauto.
Qed.

(** C9. In a session where no round trip fails, for an existing intake and a
    file that passes validation: if a document of the intake already has the
    file's SHA-256 fingerprint, the upload is rejected with 409 Conflict and
    the session is left as it was, no document added; if no document of this
    intake has it, whatever the other intakes hold, the upload succeeds and
    adds one unclassified document with that fingerprint to the intake. *)
Theorem upload_document_duplicate env db intake_id intake file new_document_id :
  faults db = None ->
  filter (fun r => String.eqb (Intake.id r) intake_id) (intakes (pending db)) = [intake] ->
  upload_valid env file ->
  idx_intake_sha256 (pending db) ->
  let sha256_hash := calculate_sha256 env (upload_content file) in
  ((exists existing,
       In existing (documents (pending db))
       /\ Document.intake_id existing = intake_id
       /\ Document.sha256 existing = sha256_hash) ->
   upload_document env intake_id file new_document_id db
   = Raise (HTTPException 409) db)
  /\ ((forall d, In d (documents (pending db)) ->
                 Document.intake_id d = intake_id ->
                 Document.sha256 d <> sha256_hash) ->
      exists new_document db',
        upload_document env intake_id file new_document_id db = Ok new_document db'
        /\ documents (pending db') = documents (pending db) ++ [new_document]
        /\ Document.id new_document = new_document_id
        /\ Document.intake_id new_document = intake_id
        /\ Document.sha256 new_document = sha256_hash
        /\ Document.doc_kind new_document = UNKNOWN
        /\ Document.extracted_data new_document = None).
Proof.
  intros Hf Hintake Hvalid Hidx sha256_hash.
  destruct (save_uploaded_file_valid env file settings.BUCKET_DIR intake_id db Hvalid)
    as (stored_path & mime_type & Hsave).
  unfold upload_document, bind.
  rewrite execute_select_no_faults by assumption. rewrite Hintake. simpl.
  rewrite Hsave. rewrite execute_select_no_faults by assumption.
  fold sha256_hash.
  set (q := fun r => String.eqb (Document.intake_id r) intake_id
                     && String.eqb (Document.sha256 r) sha256_hash).
  split.
  - intros (existing & Hin & Hi & Hh).
    assert (Hq : In existing (filter q (documents (pending db)))).
    { apply filter_In. split; [exact Hin|]. unfold q.
      now rewrite Hi, Hh, !String.eqb_refl. }
    specialize (Hidx intake_id sha256_hash). fold q in Hidx.
    destruct (filter q (documents (pending db))) as [|x [|y l]].
    + destruct Hq.
    + reflexivity.
    + simpl in Hidx. lia.
  - intros Hnone.
    assert (Hq : filter q (documents (pending db)) = []).
    { destruct (filter q (documents (pending db))) as [|x l] eqn:E; [reflexivity|].
      assert (Hx : In x (filter q (documents (pending db)))) by (rewrite E; now left).
      apply filter_In in Hx. destruct Hx as [Hx Hqx]. unfold q in Hqx.
      apply andb_true_iff in Hqx. destruct Hqx as [H1 H2].
      apply String.eqb_eq in H1, H2. now elim (Hnone x Hx H1). }
    rewrite Hq. simpl. unfold modify, flush, refresh, round_trip, ret.
    cbn [faults pending committed]. rewrite Hf.
    do 2 eexists. split; [reflexivity|]. simpl. repeat split.
Qed.

Lemma idx_intake_sha256_two_intakes : idx_intake_sha256 two_intakes.
Proof.
  intros i h. simpl. destruct (_ && _); simpl; lia.
Qed.

Lemma upload_document_duplicate_witness :
  let db := clean_session two_intakes in
  upload_document sample_env "i6" sample_upload "u2" db = Raise (HTTPException 409) db
  /\ exists new_document db',
       upload_document sample_env "i7" sample_upload "u2" db = Ok new_document db'
       /\ documents (pending db') = documents (pending db) ++ [new_document]
       /\ Document.id new_document = "u2"
       /\ Document.intake_id new_document = "i7"
       /\ Document.sha256 new_document = "T4"
       /\ Document.doc_kind new_document = UNKNOWN
       /\ Document.extracted_data new_document = None.
Proof.
  cbv zeta. split.
  - apply (upload_document_duplicate sample_env (clean_session two_intakes)
             "i6" (Intake.mk "i6" "c6" 2024 OPEN) sample_upload "u2").
    + reflexivity.
    + reflexivity.
    + split; [vm_compute; discriminate|reflexivity].
    + exact idx_intake_sha256_two_intakes.
    + eexists. split; [left; reflexivity|]. split; reflexivity.
  - apply (upload_document_duplicate sample_env (clean_session two_intakes)
             "i7" (Intake.mk "i7" "c6" 2025 OPEN) sample_upload "u2").
    + reflexivity.
    + reflexivity.
    + split; [vm_compute; discriminate|reflexivity].
    + exact idx_intake_sha256_two_intakes.
    + intros d [<-|[]]. simpl. discriminate.
Defined.

(** ** Checklist read view *)

Lemma percentage_field_Ok q db q' db' :
  percentage_field q db = Ok q' db' -> q' = q /\ db' = db.
Proof.
  unfold percentage_field. destruct (_ && _); [|discriminate].
  intros H. injection H as <- <-. now split.
Qed.

Lemma float_value_Ok v db q db' :
  float_value v db = Ok q db' -> v = Some q /\ db' = db.
Proof.
  destruct v as [q0|]; [|discriminate]. intros H. injection H as <- <-. now split.
Qed.

Lemma checklist_item_response_Ok item db r db' :
  checklist_item_response item db = Ok r db' -> db' = db /\ shows item r.
Proof.
  unfold checklist_item_response. intros H.
  apply bind_Ok in H. destruct H as (q & db1 & Hq & H).
  apply float_value_Ok in Hq. destruct Hq as [Hq ->].
  apply bind_Ok in H. destruct H as (q' & db2 & Hq' & H).
  apply percentage_field_Ok in Hq'. destruct Hq' as [-> ->].
  injection H as <- <-. split; [reflexivity|].
  unfold shows. cbn [item_doc_kind item_status item_quantity_expected
                       item_quantity_received item_progress_percentage].
  repeat split.
  unfold ChecklistItem.progress_percentage in Hq.
  destruct (ChecklistItem.quantity_expected item =? 0); [now injection Hq|].
  destruct (Float.truediv _ _) as [q0|]; [|discriminate].
  injection Hq as <-. now exists q0.
Qed.

Lemma mapM_checklist_item_response_Ok l db rs db' :
  mapM checklist_item_response l db = Ok rs db' ->
  db' = db /\ Forall2 shows l rs.
Proof.
  revert rs db'. induction l as [|item l IH]; simpl; intros rs db' H.
  - injection H as <- <-. split; constructor.
  - apply bind_Ok in H. destruct H as (r & db1 & Hr & H).
    apply checklist_item_response_Ok in Hr. destruct Hr as [-> Hr].
    apply bind_Ok in H. destruct H as (rs' & db2 & Hrs & H).
    apply IH in Hrs. destruct Hrs as [-> Hrs].
    injection H as <- <-. split; [reflexivity|]. now constructor.
Qed.

Lemma sum_Z_nonneg l : Forall (fun x => 0 <= x) l -> 0 <= sum_Z l.
Proof. induction 1; simpl; lia. Qed.

Lemma percentage_field_bounds q db q' db' :
  percentage_field q db = Ok q' db' ->
  q' = q /\ db' = db
  /\ Float.leb Float.zero q = true /\ Float.leb q Float.hundred = true.
Proof.
  unfold percentage_field.
  destruct (Float.leb Float.zero q) eqn:E0; [|discriminate].
  destruct (Float.leb q Float.hundred) eqn:E1; [|discriminate].
  intros H. injection H as <- <-. auto.
Qed.

Lemma mapM_checklist_item_response_bounds l db rs db' :
  mapM checklist_item_response l db = Ok rs db' -> Forall within_bounds rs.
Proof.
  revert rs db db'. induction l as [|item l IH]; simpl; intros rs db db' H.
  - injection H as <- <-. constructor.
  - apply bind_Ok in H. destruct H as (r & db1 & Hr & H).
    unfold checklist_item_response in Hr.
    apply bind_Ok in Hr. destruct Hr as (q & db0 & Hq & Hr).
    apply float_value_Ok in Hq. destruct Hq as [_ ->].
    apply bind_Ok in Hr. destruct Hr as (q' & db0 & Hq' & Hr).
    apply percentage_field_bounds in Hq'. destruct Hq' as (-> & -> & H0 & H1).
    injection Hr as <- <-.
    apply bind_Ok in H. destruct H as (rs' & db2 & Hrs & H).
    apply IH in Hrs. injection H as <- <-.
    constructor; [|exact Hrs]. repeat split; assumption.
Qed.

(** What a successful [get_intake_checklist] read and computed. *)
Lemma get_intake_checklist_Ok intake_id db response db' :
  get_intake_checklist intake_id db = Ok response db' ->
  let loaded := filter (fun r => String.eqb (ChecklistItem.intake_id r) intake_id)
                       (checklist_items (pending db)) in
  let te := sum_Z (map ChecklistItem.quantity_expected loaded) in
  let tr := sum_Z (map ChecklistItem.quantity_received loaded) in
  same_data db db'
  /\ (exists intake,
        filter (fun r => String.eqb (Intake.id r) intake_id) (intakes (pending db))
        = [intake]
        /\ response_intake_id response = Intake.id intake
        /\ intake_status response = Intake.status intake)
  /\ is_complete response = Intake.is_complete loaded
  /\ Forall2 shows loaded (items response)
  /\ total_expected response = te
  /\ total_received response = tr
  /\ (if te >? 0
      then option_map (fun q => Float.mul q Float.hundred) (Float.truediv tr te)
      else Some Float.zero) = Some (overall_progress response)
  /\ Float.leb Float.zero (overall_progress response) = true
  /\ Float.leb (overall_progress response) Float.hundred = true
  /\ Forall within_bounds (items response).
Proof.
  intros H loaded te tr. unfold get_intake_checklist in H.
  apply bind_Ok in H. destruct H as (rows & db1 & H1 & H).
  apply round_trip_Ok in H1. destruct H1 as (db0 & Hs0 & H1).
  injection H1 as <- <-. destruct Hs0 as [Hp0 Hc0]. rewrite Hp0 in H.
  apply bind_Ok in H. destruct H as (o & db2 & H2 & H).
  apply scalar_one_or_none_Ok in H2.
  destruct H2 as [-> [[_ ->]|([intake items_] & Hrows & ->)]]; [discriminate|].
  destruct (filter (fun r => String.eqb (Intake.id r) intake_id) (intakes (pending db)))
    as [|intake0 [|? ?]] eqn:Hintake; try discriminate.
  simpl in Hrows. injection Hrows as -> <-.
  assert (Hid : Intake.id intake = intake_id).
  { assert (Hin : In intake (filter (fun r => String.eqb (Intake.id r) intake_id)
                               (intakes (pending db)))) by (rewrite Hintake; now left).
    apply filter_In in Hin. now apply String.eqb_eq. }
  rewrite Hid in H. fold loaded in H.
  apply bind_Ok in H. destruct H as (rs & db3 & H3 & H).
  pose proof (mapM_checklist_item_response_bounds _ _ _ _ H3) as Hbounds.
  apply mapM_checklist_item_response_Ok in H3. destruct H3 as [-> Hshows].
  apply bind_Ok in H. destruct H as (q & db4 & H4 & H).
  apply float_value_Ok in H4. destruct H4 as [H4 ->].
  apply bind_Ok in H. destruct H as (q' & db5 & H5 & H).
  pose proof H5 as Hb. unfold percentage_field in Hb.
  destruct (Float.leb Float.zero q && Float.leb q Float.hundred) eqn:Eb; [|discriminate].
  apply andb_true_iff in Eb. destruct Eb as [Eb0 Eb1].
  apply percentage_field_Ok in H5. destruct H5 as [-> ->].
  injection H as <- <-.
  cbn [response_intake_id intake_status is_complete items total_expected
         total_received overall_progress].
  split; [now split|]. split; [now exists intake|].
  repeat split; assumption.
Qed.

(** C8, amended. Whenever the read view is returned: its totals are the
    sums of the expected and of the received quantities over the intake's
    checklist items; its overall progress is the float
    [total_received / total_expected * 100.0], the quotient of the integers
    rounded first and its product with [100.0] rounded next, and [0.0] when
    [total_expected] is not positive; and it shows every item with the float
    [received / expected * 100], [0.0] when the item expects 0. *)
Theorem get_intake_checklist_progress intake_id db response db' :
  get_intake_checklist intake_id db = Ok response db' ->
  let loaded := filter (fun r => String.eqb (ChecklistItem.intake_id r) intake_id)
                       (checklist_items (pending db)) in
  total_expected response = sum_Z (map ChecklistItem.quantity_expected loaded)
  /\ total_received response = sum_Z (map ChecklistItem.quantity_received loaded)
  /\ (if total_expected response >? 0
      then exists q,
             Float.truediv (total_received response) (total_expected response) = Some q
             /\ overall_progress response = Float.mul q Float.hundred
      else overall_progress response = Float.zero)
  /\ Forall2 shows loaded (items response).
Proof.
  intros H loaded.
  destruct (get_intake_checklist_Ok _ _ _ _ H) as (_ & _ & _ & Hshows & Hte & Htr & Hp & _).
  fold loaded in Hshows, Hte, Htr, Hp.
  rewrite Hte, Htr. repeat split; try assumption.
  destruct (_ >? 0); [|now injection Hp].
  destruct (Float.truediv _ _) as [q|]; [|discriminate].
  injection Hp as <-. now exists q.
Qed.

(** C8, as stated, fails on two runs of the endpoints. After a complex
    client's intake has received one T4, the view's overall progress is the
    product of the rounded quotient [1 / 7] and [100.0], the float
    14.285714285714285, and not the float 14.285714285714286 that
    [100 * 1 / 7] is. After a simple client's intake has received a second
    T4, one more than its T4 item expects, no view is returned: the item's
    percentage is [200.0] and the response schema raises on it. *)
Lemma get_intake_checklist_diverges :
  (exists response db',
      get_intake_checklist "i12"
        (run_operations complex_one_t4 (clean_session one_complex_client))
      = Ok response db'
      /\ total_received response = 1
      /\ total_expected response = 7
      /\ percentage 1 7 = Some (overall_progress response)
      /\ Float.truediv (100 * total_received response) (total_expected response)
         <> Some (overall_progress response))
  /\ (exists db',
         get_intake_checklist "i13"
           (run_operations simple_two_t4 (clean_session one_simple_client))
         = Raise ValidationError db'
         /\ map ChecklistItem.progress_percentage
                (checklist_items (pending db'))
            = [Some (Float.of_int 200); Some Float.zero]).
Proof.
  split.
  - do 2 eexists. split; [vm_compute; reflexivity|].
    split; [reflexivity|]. split; [reflexivity|]. split; [reflexivity|].
    vm_compute. discriminate.
  - eexists. split; vm_compute; reflexivity.
Qed.

(** ** Permanence of [DONE] *)

Section Done.
Variable intake_id : string.

Lemma preserves_ret {A} (a : A) : preserves (intake_done intake_id) (ret a).
Proof. intros db H. exact H. Qed.

Lemma preserves_raise {A} e : preserves (intake_done intake_id) (@raise A e).
Proof. intros db H. exact H. Qed.

Lemma preserves_bind {A B} (m : M A) (k : A -> M B) :
  preserves (intake_done intake_id) m -> (forall a, preserves (intake_done intake_id) (k a)) -> preserves (intake_done intake_id) (bind m k).
Proof.
  intros Hm Hk db H. specialize (Hm db H). unfold bind.
  destruct (m db) as [a db1|e db1]; simpl in *; [now apply Hk|exact Hm].
Qed.

Lemma preserves_try_except {A} (body : M A) handler :
  preserves (intake_done intake_id) body -> (forall e, preserves (intake_done intake_id) (handler e)) ->
  preserves (intake_done intake_id) (try_except body handler).
Proof.
  intros Hm Hk db H. specialize (Hm db H). unfold try_except.
  destruct (body db) as [a db1|e db1]; simpl in *; [exact Hm|now apply Hk].
Qed.

Lemma preserves_round_trip {A} (k : M A) :
  preserves (intake_done intake_id) k -> preserves (intake_done intake_id) (round_trip k).
Proof.
  intros Hk db H. unfold round_trip.
  destruct (faults db) as [[|n]|]; [exact H| |now apply Hk].
  apply Hk. exact H.
Qed.

Lemma preserves_execute_select {R} (table : Store -> list R) where_ :
  preserves (intake_done intake_id) (execute_select table where_).
Proof. apply preserves_round_trip. intros db H. exact H. Qed.

Lemma preserves_execute_select_intakes_selectinload where_ :
  preserves (intake_done intake_id) (execute_select_intakes_selectinload where_).
Proof. apply preserves_round_trip. intros db H. exact H. Qed.

Lemma preserves_flush : preserves (intake_done intake_id) flush.
Proof. apply preserves_round_trip, preserves_ret. Qed.

Lemma preserves_refresh : preserves (intake_done intake_id) refresh.
Proof. exact preserves_flush. Qed.

Lemma preserves_commit : preserves (intake_done intake_id) commit.
Proof. apply preserves_round_trip. intros db [H _]. split; exact H. Qed.

Lemma preserves_scalar_one_or_none {R} (rows : list R) :
  preserves (intake_done intake_id) (scalar_one_or_none rows).
Proof. intros db H. now destruct rows as [|? [|? ?]]. Qed.

Lemma preserves_scalar_one {R} (rows : list R) : preserves (intake_done intake_id) (scalar_one rows).
Proof. intros db H. now destruct rows as [|? [|? ?]]. Qed.

Lemma preserves_modify f :
  (forall s, status_of intake_id s = Some DONE -> status_of intake_id (f s) = Some DONE) ->
  preserves (intake_done intake_id) (modify f).
Proof. intros Hf db [H1 H2]. split; [now apply Hf|exact H2]. Qed.

(** The only write to the intakes table promotes a row to [DONE]. *)
Lemma status_of_write_intake intake s :
  status_of intake_id s = Some DONE ->
  status_of intake_id (write_intake (Intake.set_status intake DONE) s) = Some DONE.
Proof.
  unfold status_of, write_intake. simpl.
  induction (intakes s) as [|r l IH]; simpl; [discriminate|].
  destruct (String.eqb_spec (Intake.id r) (Intake.id intake)) as [E|E].
  - simpl. rewrite E.
    destruct (String.eqb (Intake.id intake) intake_id); [reflexivity|exact IH].
  - destruct (String.eqb (Intake.id r) intake_id); [trivial|exact IH].
Qed.

Lemma status_of_add_intake intake s :
  status_of intake_id s = Some DONE ->
  status_of intake_id (add_intake intake s) = Some DONE.
Proof.
  unfold status_of, add_intake. simpl.
  induction (intakes s) as [|r l IH]; simpl; [discriminate|].
  destruct (String.eqb (Intake.id r) intake_id); [trivial|exact IH].
Qed.

Lemma preserves_check_and_update_intake_status i :
  preserves (intake_done intake_id) (check_and_update_intake_status i).
Proof.
  unfold check_and_update_intake_status.
  apply preserves_bind; [apply preserves_execute_select|intros rows].
  apply preserves_bind; [apply preserves_scalar_one_or_none|intros [intake|]].
  2: apply preserves_ret.
  apply preserves_bind; [apply preserves_execute_select|intros items_].
  destruct (Nat.eqb _ 0); [|apply preserves_ret].
  apply preserves_bind; [|intros _; apply preserves_commit].
  apply preserves_modify. intros s. apply status_of_write_intake.
Qed.

Lemma preserves_update_checklist_for_document document :
  preserves (intake_done intake_id) (update_checklist_for_document document).
Proof.
  unfold update_checklist_for_document.
  destruct (_ || _); [apply preserves_ret|].
  apply preserves_bind; [apply preserves_execute_select|intros rows].
  apply preserves_bind; [apply preserves_scalar_one_or_none|intros [item|]].
  2: apply preserves_ret.
  apply preserves_bind; [apply preserves_execute_select|intros docs].
  apply preserves_bind; [apply preserves_modify; intros s H; exact H|intros _].
  apply preserves_bind; [apply preserves_commit|intros _].
  apply preserves_check_and_update_intake_status.
Qed.
Lemma status_of_same_intakes (f : Store -> Store) :
  (forall s, intakes (f s) = intakes s) ->
  forall s, status_of intake_id s = Some DONE -> status_of intake_id (f s) = Some DONE.
Proof. intros Hf s H. unfold status_of. now rewrite Hf. Qed.

Lemma preserves_modify_same_intakes (f : Store -> Store) :
  (forall s, intakes (f s) = intakes s) -> preserves (intake_done intake_id) (modify f).
Proof. intros Hf. apply preserves_modify, status_of_same_intakes, Hf. Qed.

Lemma preserves_create_intake client_id fiscal_year new_intake_id item_ids :
  preserves (intake_done intake_id) (create_intake client_id fiscal_year new_intake_id item_ids).
Proof.
  unfold create_intake.
  apply preserves_bind; [apply preserves_execute_select|intros rows].
  apply preserves_bind; [apply preserves_scalar_one_or_none|intros [client|]].
  2: apply preserves_raise.
  apply preserves_bind; [apply preserves_execute_select|intros rows'].
  apply preserves_bind; [apply preserves_scalar_one_or_none|intros [existing|]].
  1: apply preserves_raise.
  apply preserves_bind;
    [apply preserves_modify; intros s; apply status_of_add_intake|intros _].
  apply preserves_bind; [apply preserves_flush|intros _].
  apply preserves_bind; [apply preserves_refresh|intros _].
  apply preserves_bind;
    [apply preserves_modify_same_intakes; reflexivity|intros _].
  apply preserves_bind; [apply preserves_flush|intros _].
  apply preserves_bind;
    [apply preserves_execute_select_intakes_selectinload|intros rows''].
  apply preserves_scalar_one.
Qed.

Lemma preserves_save_uploaded_file env file bucket_dir i allowed max_size :
  preserves (intake_done intake_id) (save_uploaded_file env file bucket_dir i allowed max_size).
Proof.
  unfold save_uploaded_file, validate_file_size, validate_file_type.
  apply preserves_bind.
  { destruct (_ >? _); [apply preserves_raise|apply preserves_ret]. }
  intros _. apply preserves_bind; [|intros mime; apply preserves_ret].
  destruct (negb _); [apply preserves_raise|].
  destruct (guess_type _ _); apply preserves_ret.
Qed.

Lemma preserves_upload_document env i file new_document_id :
  preserves (intake_done intake_id) (upload_document env i file new_document_id).
Proof.
  unfold upload_document.
  apply preserves_bind; [apply preserves_execute_select|intros rows].
  apply preserves_bind; [apply preserves_scalar_one_or_none|intros [intake|]].
  2: apply preserves_raise.
  apply preserves_bind;
    [apply preserves_save_uploaded_file|intros [[[content path] mime] size]].
  apply preserves_bind; [apply preserves_execute_select|intros rows'].
  apply preserves_bind; [apply preserves_scalar_one_or_none|intros [existing|]].
  1: apply preserves_raise.
  apply preserves_bind;
    [apply preserves_modify_same_intakes; reflexivity|intros _].
  apply preserves_bind; [apply preserves_flush|intros _].
  apply preserves_bind; [apply preserves_refresh|intros _].
  apply preserves_ret.
Qed.

Lemma preserves_classify_kind svc document :
  preserves (intake_done intake_id) (classify_kind svc document).
Proof.
  unfold classify_kind.
  destruct (qwen3vl_service.classify_document _ _) as [k|]; [|apply preserves_raise].
  destruct (DocKind_of_value k); [apply preserves_ret|apply preserves_raise].
Qed.

Lemma preserves_extract_by_kind svc document :
  preserves (intake_done intake_id) (extract_by_kind svc document).
Proof.
  unfold extract_by_kind.
  destruct (Document.doc_kind document);
    try (match goal with |- context [match ?o with Some _ => _ | None => _ end] =>
           destruct o end);
    first [apply preserves_ret|apply preserves_raise].
Qed.

Lemma preserves_classify_document svc document_id :
  preserves (intake_done intake_id) (classify_document svc document_id).
Proof.
  unfold classify_document.
  apply preserves_bind; [apply preserves_execute_select|intros rows].
  apply preserves_bind; [apply preserves_scalar_one_or_none|intros [document|]].
  2: apply preserves_raise.
  apply preserves_try_except; [|intros e; apply preserves_raise].
  apply preserves_bind; [apply preserves_classify_kind|intros k].
  apply preserves_bind;
    [apply preserves_modify_same_intakes; reflexivity|intros _].
  apply preserves_bind; [apply preserves_commit|intros _].
  apply preserves_bind; [apply preserves_refresh|intros _].
  apply preserves_ret.
Qed.

Lemma preserves_extract_document svc document_id :
  preserves (intake_done intake_id) (extract_document svc document_id).
Proof.
  unfold extract_document.
  apply preserves_bind; [apply preserves_execute_select|intros rows].
  apply preserves_bind; [apply preserves_scalar_one_or_none|intros [document|]].
  2: apply preserves_raise.
  destruct (DocKind_eqb _ UNKNOWN); [apply preserves_raise|].
  apply preserves_try_except; [|intros e; apply preserves_raise].
  apply preserves_bind; [apply preserves_extract_by_kind|intros [extraction|]].
  2: apply preserves_raise.
  apply preserves_bind;
    [apply preserves_modify_same_intakes; reflexivity|intros _].
  apply preserves_bind; [apply preserves_commit|intros _].
  apply preserves_bind; [apply preserves_refresh|intros _].
  apply preserves_bind; [apply preserves_update_checklist_for_document|intros _].
  apply preserves_ret.
Qed.

Lemma preserves_classify_each svc unknown_docs :
  forall classified, preserves (intake_done intake_id) (classify_each svc unknown_docs classified).
Proof.
  induction unknown_docs as [|document rest IH]; intros classified; simpl.
  - apply preserves_ret.
  - apply preserves_bind; [|intros c; apply IH].
    apply preserves_try_except; [|intros e; apply preserves_ret].
    apply preserves_bind; [apply preserves_classify_kind|intros k].
    apply preserves_bind;
      [apply preserves_modify_same_intakes; reflexivity|intros _].
    apply preserves_ret.
Qed.

Lemma preserves_classify_intake_documents svc i :
  preserves (intake_done intake_id) (classify_intake_documents svc i).
Proof.
  unfold classify_intake_documents.
  apply preserves_bind; [apply preserves_execute_select|intros rows].
  apply preserves_bind; [apply preserves_scalar_one_or_none|intros [intake|]].
  2: apply preserves_raise.
  apply preserves_bind; [apply preserves_execute_select|intros [|d docs]].
  1: apply preserves_raise.
  apply preserves_bind; [apply preserves_classify_each|intros classified].
  apply preserves_bind; [apply preserves_commit|intros _].
  apply preserves_ret.
Qed.

Lemma preserves_extract_each svc classified_docs :
  forall extracted, preserves (intake_done intake_id) (extract_each svc classified_docs extracted).
Proof.
  induction classified_docs as [|document rest IH]; intros extracted; simpl.
  - apply preserves_ret.
  - apply preserves_bind; [|intros c; apply IH].
    destruct (truthy _); [apply preserves_ret|].
    apply preserves_try_except; [|intros e; apply preserves_ret].
    apply preserves_bind; [apply preserves_extract_by_kind|intros [extraction|]].
    2: apply preserves_ret.
    apply preserves_bind;
      [apply preserves_modify_same_intakes; reflexivity|intros _].
    apply preserves_bind; [apply preserves_commit|intros _].
    apply preserves_bind; [apply preserves_refresh|intros _].
    apply preserves_bind; [apply preserves_update_checklist_for_document|intros _].
    apply preserves_ret.
Qed.

Lemma preserves_extract_intake_documents svc i :
  preserves (intake_done intake_id) (extract_intake_documents svc i).
Proof.
  unfold extract_intake_documents.
  apply preserves_bind; [apply preserves_execute_select|intros rows].
  apply preserves_bind; [apply preserves_scalar_one_or_none|intros [intake|]].
  2: apply preserves_raise.
  apply preserves_bind; [apply preserves_execute_select|intros [|d docs]].
  1: apply preserves_raise.
  apply preserves_bind; [apply preserves_extract_each|intros extracted].
  apply preserves_ret.
Qed.

Lemma preserves_percentage_field q : preserves (intake_done intake_id) (percentage_field q).
Proof.
  unfold percentage_field.
  destruct (_ && _); [apply preserves_ret|apply preserves_raise].
Qed.

Lemma preserves_float_value v : preserves (intake_done intake_id) (float_value v).
Proof. destruct v; [apply preserves_ret|apply preserves_raise]. Qed.

Lemma preserves_mapM_checklist_item_response l :
  preserves (intake_done intake_id) (mapM checklist_item_response l).
Proof.
  induction l as [|item l IH]; simpl; [apply preserves_ret|].
  apply preserves_bind.
  { unfold checklist_item_response.
    apply preserves_bind; [apply preserves_float_value|intros q].
    apply preserves_bind; [apply preserves_percentage_field|intros q'].
    apply preserves_ret. }
  intros r. apply preserves_bind; [exact IH|intros rs; apply preserves_ret].
Qed.

Lemma preserves_get_intake_checklist i :
  preserves (intake_done intake_id) (get_intake_checklist i).
Proof.
  unfold get_intake_checklist.
  apply preserves_bind;
    [apply preserves_execute_select_intakes_selectinload|intros rows].
  apply preserves_bind;
    [apply preserves_scalar_one_or_none|intros [[intake loaded]|]].
  2: apply preserves_raise.
  apply preserves_bind; [apply preserves_mapM_checklist_item_response|intros rs].
  apply preserves_bind; [apply preserves_float_value|intros q].
  apply preserves_bind; [apply preserves_percentage_field|intros q'].
  apply preserves_ret.
Qed.

Lemma run_operation_done op db :
  intake_done intake_id db -> intake_done intake_id (run_operation op db).
Proof.
  destruct op; simpl.
  - apply preserves_create_intake.
  - apply preserves_upload_document.
  - apply preserves_classify_document.
  - apply preserves_extract_document.
  - apply preserves_classify_intake_documents.
  - apply preserves_extract_intake_documents.
  - apply preserves_update_checklist_for_document.
  - apply preserves_check_and_update_intake_status.
  - apply preserves_get_intake_checklist.
  - intros [H1 H2]. destruct keep; split; assumption.
Qed.
End Done.

(** C10. Once an intake is done, in the session and in the committed
    database, it is done after every sequence of operations of the service
    (uploads, classifications, extractions, reconciliations, status
    re-evaluations, intake creations, checklist reads), whichever of their
    round trips fail and whether requests end committed or rolled back. *)
Theorem done_is_permanent intake_id ops db :
  intake_done intake_id db ->
  intake_done intake_id (run_operations ops db).
Proof.
  unfold run_operations. revert db.
  induction ops as [|op ops IH]; intros db H; simpl; [exact H|].
  apply IH. now apply run_operation_done.
Qed.

Lemma done_is_permanent_witness :
  intake_done "i5" done_session
  /\ intake_done "i5" (run_operations later_operations done_session).
Proof.
  split; [split; reflexivity|].
  apply (done_is_permanent "i5" later_operations done_session).
  split; reflexivity.
Defined.

Lemma get_intake_checklist_progress_witness :
  let db := run_operations complex_one_t4 (clean_session one_complex_client) in
  exists response db',
    get_intake_checklist "i12" db = Ok response db'
    /\ total_expected response = 7
    /\ total_received response = 1
    /\ (let loaded := filter (fun r => String.eqb (ChecklistItem.intake_id r) "i12")
                             (checklist_items (pending db)) in
        total_expected response = sum_Z (map ChecklistItem.quantity_expected loaded)
        /\ total_received response = sum_Z (map ChecklistItem.quantity_received loaded)
        /\ (if total_expected response >? 0
            then exists q,
                   Float.truediv (total_received response) (total_expected response)
                   = Some q
                   /\ overall_progress response = Float.mul q Float.hundred
            else overall_progress response = Float.zero)
        /\ Forall2 shows loaded (items response)).
Proof.
  cbv zeta. do 2 eexists.
  split; [vm_compute; reflexivity|].
  split; [reflexivity|]. split; [reflexivity|].
  eapply (get_intake_checklist_progress "i12"
            (run_operations complex_one_t4 (clean_session one_complex_client))).
  vm_compute. reflexivity.
Defined.

(** *** Float arithmetic of the percentages *)

Lemma div_eucl_shiftl p k :
  0 <= k -> Z.div_eucl (Z.shiftl (Z.pos p) k) (Z.pos p) = (2 ^ k, 0).
Proof.
  intros Hk. rewrite Z.shiftl_mul_pow2 by assumption.
  destruct (Z.div_eucl (Z.pos p * 2 ^ k) (Z.pos p)) as [q r] eqn:E.
  assert (Hq : q = (Z.pos p * 2 ^ k) / Z.pos p) by (unfold Z.div; now rewrite E).
  assert (Hr : r = (Z.pos p * 2 ^ k) mod Z.pos p) by (unfold Z.modulo; now rewrite E).
  rewrite Hq, Hr. f_equal.
  - rewrite Z.mul_comm. apply Z.div_mul. discriminate.
  - rewrite Z.mul_comm. apply Z.mod_mul. discriminate.
Qed.

(** An integer divided by itself is [1.0], however large it is. *)
Lemma SFdiv_same s p :
  SpecFloat.SFdiv Float.prec Float.emax
    (SpecFloat.S754_finite s p 0) (SpecFloat.S754_finite s p 0)
  = Float.one.
Proof.
  unfold SpecFloat.SFdiv, SpecFloat.SFdiv_core_binary.
  replace (SpecFloat.Zdigits2 (Z.pos p) + 0 - (SpecFloat.Zdigits2 (Z.pos p) + 0))
    with 0 by lia.
  change (Z.min (SpecFloat.fexp Float.prec Float.emax 0) (0 - 0)) with (-53).
  change (0 - 0 - -53) with 53. cbv beta iota zeta.
  rewrite div_eucl_shiftl by lia.
  replace (xorb s s) with false by (now destruct s).
  assert (E : SpecFloat.new_location (Z.pos p) 0 = SpecFloat.loc_Exact).
  { unfold SpecFloat.new_location, SpecFloat.new_location_even,
      SpecFloat.new_location_odd.
    now destruct (Z.even _). }
  rewrite E. vm_compute. reflexivity.
Qed.

Lemma truediv_same n : n <> 0 -> Float.truediv n n = Some Float.one.
Proof.
  intros Hn. unfold Float.truediv. destruct (Z.eqb_spec n 0) as [|_]; [contradiction|].
  destruct n as [|p|p]; [contradiction| |]; unfold Float.exact; rewrite SFdiv_same;
    reflexivity.
Qed.

Lemma percentage_same n : n <> 0 -> percentage n n = Some Float.hundred.
Proof. intros Hn. unfold percentage. now rewrite truediv_same. Qed.

Lemma same_float_eq x y : same_float x y = true <-> x = y.
Proof.
  split.
  - destruct x as [s|s| |s m e], y as [s'|s'| |s' m' e']; simpl; try discriminate;
      try reflexivity.
    + intros H. apply Bool.eqb_prop in H. now subst.
    + intros H. apply Bool.eqb_prop in H. now subst.
    + intros H. apply andb_true_iff in H. destruct H as [H He].
      apply andb_true_iff in H. destruct H as [Hs Hm].
      apply Bool.eqb_prop in Hs. apply Pos.eqb_eq in Hm. apply Z.eqb_eq in He.
      now subst.
  - intros <-. destruct x as [s|s| |s m e]; simpl; try reflexivity;
      try apply Bool.eqb_reflx.
    now rewrite Bool.eqb_reflx, Pos.eqb_refl, Z.eqb_refl.
Qed.

Lemma percentage_table_holds : percentage_table = true.
Proof. vm_compute. reflexivity. Qed.

Lemma percentage_in_table r e :
  0 <= r <= checked_quantity -> 0 < e <= checked_quantity ->
  percentage_checked r e = true.
Proof.
  intros Hr He. pose proof percentage_table_holds as H.
  unfold percentage_table in H. rewrite forallb_forall in H.
  specialize (H (Z.to_nat e)). rewrite forallb_forall in H.
  rewrite <- (Z2Nat.id r), <- (Z2Nat.id e) by lia.
  apply H; apply in_seq; lia.
Qed.

(** For quantities up to [checked_quantity]: the percentage of [r] received
    of [e] expected has a value; it lies between [0.0] and [100.0] when
    [r <= e], and it is [100.0] exactly when [r = e]. *)
Lemma percentage_facts r e :
  0 <= r <= checked_quantity -> 0 < e <= checked_quantity ->
  exists p,
    percentage r e = Some p
    /\ Float.leb Float.zero p = true
    /\ (r <= e -> Float.leb p Float.hundred = true)
    /\ (p = Float.hundred <-> r = e).
Proof.
  intros Hr He. pose proof (percentage_in_table r e Hr He) as H.
  unfold percentage_checked in H.
  destruct (percentage r e) as [p|]; [|discriminate].
  apply andb_true_iff in H. destruct H as [H H2].
  apply andb_true_iff in H. destruct H as [H0 H1].
  apply Bool.eqb_prop in H1, H2.
  exists p. split; [reflexivity|]. split; [exact H0|]. split.
  - intros Hle. rewrite H1. now apply Z.leb_le.
  - rewrite <- same_float_eq, H2. apply Z.eqb_eq.
Qed.

(** *** The read view is produced *)

Lemma percentage_field_in_range q db :
  Float.leb Float.zero q = true -> Float.leb q Float.hundred = true ->
  percentage_field q db = Ok q db.
Proof. intros H0 H1. unfold percentage_field. now rewrite H0, H1. Qed.

Lemma progress_percentage_in_range item :
  0 <= ChecklistItem.quantity_received item <= ChecklistItem.quantity_expected item ->
  ChecklistItem.quantity_expected item <= checked_quantity ->
  exists p,
    ChecklistItem.progress_percentage item = Some p
    /\ Float.leb Float.zero p = true /\ Float.leb p Float.hundred = true.
Proof.
  intros Hr He. unfold ChecklistItem.progress_percentage.
  destruct (Z.eqb_spec (ChecklistItem.quantity_expected item) 0) as [E|E].
  - exists Float.zero. repeat split; reflexivity.
  - destruct (percentage_facts (ChecklistItem.quantity_received item)
                (ChecklistItem.quantity_expected item)) as (p & Hp & H0 & H1 & _);
      [lia|lia|].
    exists p. split; [exact Hp|]. split; [exact H0|]. apply H1. lia.
Qed.

Lemma mapM_checklist_item_response_returns l db :
  Forall (fun item => 0 <= ChecklistItem.quantity_received item
                        <= ChecklistItem.quantity_expected item
                      /\ ChecklistItem.quantity_expected item <= checked_quantity) l ->
  exists rs, mapM checklist_item_response l db = Ok rs db.
Proof.
  induction 1 as [|item l [Hitem Hbound] _ [rs IH]]; simpl.
  - now exists [].
  - unfold bind, checklist_item_response at 1, bind.
    destruct (progress_percentage_in_range item Hitem Hbound) as (p & -> & H0 & H1).
    cbn [float_value]. unfold ret at 1.
    rewrite percentage_field_in_range by assumption.
    unfold ret at 1. rewrite IH. eexists. reflexivity.
Qed.

Lemma sum_Z_le (f g : ChecklistItem.t -> Z) l :
  Forall (fun item => 0 <= f item <= g item) l ->
  0 <= sum_Z (map f l) <= sum_Z (map g l).
Proof. induction 1; simpl; lia. Qed.

Lemma sum_Z_bounds (f g : ChecklistItem.t -> Z) l bound :
  Forall (fun item => 0 <= f item <= g item) l ->
  sum_Z (map g l) <= bound ->
  Forall (fun item => 0 <= f item <= g item /\ g item <= bound) l.
Proof.
  induction 1 as [|item l Hitem Hl IH]; simpl; intros Hb; constructor.
  - pose proof (sum_Z_le f g l Hl). lia.
  - apply IH. lia.
Qed.

(** Without a failing round trip, for an existing intake none of whose items
    has received more than it expects, and which expects no more than
    [checked_quantity] documents in all, [get_intake_checklist] returns the
    view. *)
Lemma get_intake_checklist_returns intake_id intake db :
  faults db = None ->
  filter (fun r => String.eqb (Intake.id r) intake_id) (intakes (pending db)) = [intake] ->
  let loaded := filter (fun r => String.eqb (ChecklistItem.intake_id r) (Intake.id intake))
                       (checklist_items (pending db)) in
  Forall (fun item => 0 <= ChecklistItem.quantity_received item
                        <= ChecklistItem.quantity_expected item) loaded ->
  sum_Z (map ChecklistItem.quantity_expected loaded) <= checked_quantity ->
  exists response, get_intake_checklist intake_id db = Ok response db.
Proof.
  intros Hf Hintake loaded Hrange Hbound.
  unfold get_intake_checklist, bind, execute_select_intakes_selectinload.
  rewrite round_trip_no_faults by assumption. rewrite Hintake. simpl.
  fold loaded.
  destruct (mapM_checklist_item_response_returns loaded db
              (sum_Z_bounds _ _ _ _ Hrange Hbound)) as [rs ->].
  pose proof (sum_Z_le ChecklistItem.quantity_received
                ChecklistItem.quantity_expected loaded Hrange) as Hsum.
  set (te := sum_Z (map ChecklistItem.quantity_expected loaded)) in *.
  set (tr := sum_Z (map ChecklistItem.quantity_received loaded)) in *.
  destruct (Z.gtb_spec te 0) as [G|G].
  - destruct (percentage_facts tr te) as (p & Hp & H0 & H1 & _); [lia|lia|].
    unfold percentage in Hp. rewrite Hp. cbn [float_value]. unfold ret at 1.
    rewrite percentage_field_in_range; [eexists; reflexivity|exact H0|apply H1; lia].
  - cbn [float_value]. unfold ret at 1.
    rewrite percentage_field_in_range by reflexivity. eexists. reflexivity.
Qed.

(** * Further properties *)

(** ** Checklist status *)





(** ** What the re-evaluation and the recount never do *)

Lemma filter_In_nonempty {A} (p : A -> bool) l x :
  In x l -> p x = true -> Nat.eqb (List.length (filter p l)) 0 = false.
Proof.
  intros Hin Hp.
  assert (H : In x (filter p l)) by (apply filter_In; now split).
  destruct (filter p l); [destruct H|reflexivity].
Qed.

(** X2. While one checklist item of the intake is missing, the status
    re-evaluation changes nothing, whichever round trip fails: an intake is
    never marked done with an item still missing. *)
Theorem check_and_update_keeps_open_while_missing intake_id db item :
  In item (checklist_items (pending db)) ->
  ChecklistItem.intake_id item = intake_id ->
  ChecklistItem.status item = MISSING ->
  same_data db (session (check_and_update_intake_status intake_id db)).
Proof.
  intros Hin Hi Hs.
  assert (Hm : Nat.eqb (List.length (filter (missing_where intake_id)
                                       (checklist_items (pending db)))) 0 = false).
  { apply filter_In_nonempty with (x := item); [exact Hin|].
    unfold missing_where. now rewrite Hi, Hs, String.eqb_refl. }
  unfold check_and_update_intake_status, bind, execute_select, round_trip.
  fold (missing_where intake_id).
  destruct db as [p c f]. simpl in *.
  destruct f as [[|[|n]]|]; simpl; try (split; reflexivity);
    destruct (filter _ (intakes p)) as [|intake [|? ?]]; simpl;
    try rewrite Hm; simpl; split; reflexivity.
Qed.

Lemma check_and_update_keeps_open_while_missing_witness :
  let db := mkSession intake_partial intake_partial (Some 5%nat) in
  same_data db (session (check_and_update_intake_status "i8" db)).
Proof.
  cbv zeta.
  apply (check_and_update_keeps_open_while_missing "i8" _
           (ChecklistItem.mk "k15" "i8" ID MISSING 1 0)).
  - simpl. right. left. reflexivity.
  - reflexivity.
  - reflexivity.
Defined.

(** X3. After a reconciliation that locates its item, without a failing
    round trip and for an intake that exists, the intake is committed as
    done exactly when no item of the intake is missing after the recount;
    otherwise the intake row is left as it was. *)
Theorem update_checklist_completes_intake document db item intake :
  faults db = None ->
  Document.doc_kind document <> UNKNOWN ->
  truthy (Document.extracted_data document) = true ->
  filter (item_where document) (checklist_items (pending db)) = [item] ->
  filter (fun r => String.eqb (Intake.id r) (Document.intake_id document))
         (intakes (pending db)) = [intake] ->
  let db' := session (update_checklist_for_document document db) in
  pending db' = committed db'
  /\ filter (fun r => String.eqb (Intake.id r) (Document.intake_id document))
            (intakes (committed db'))
     = [if none_missing (Document.intake_id document) (committed db')
        then Intake.set_status intake DONE else intake].
Proof.
  intros Hf Hk Ht Hitem Hintake db'. subst db'.
  assert (Hg : DocKind_eqb (Document.doc_kind document) UNKNOWN
               || negb (truthy (Document.extracted_data document)) = false).
  { rewrite Ht. destruct (Document.doc_kind document); try reflexivity. now elim Hk. }
  rewrite update_checklist_for_document_run by assumption.
  rewrite Hg, Hitem. cbv zeta.
  set (s1 := write_checklist_item _ _).
  rewrite check_and_update_intake_status_run by reflexivity. cbn [pending].
  change (intakes s1) with (intakes (pending db)). rewrite Hintake.
  assert (Hid : Intake.id (Intake.set_status intake DONE) = Document.intake_id document).
  { assert (Hin : In intake (filter (fun r => String.eqb (Intake.id r)
                                                (Document.intake_id document))
                               (intakes (pending db)))) by (rewrite Hintake; now left).
    apply filter_In in Hin. now apply String.eqb_eq. }
  unfold none_missing.
  destruct (Nat.eqb (List.length (filter (missing_where (Document.intake_id document))
                                    (checklist_items s1))) 0) eqn:Hm.
  - cbv zeta. cbn [session pending committed]. split; [reflexivity|].
    change (checklist_items (write_intake (Intake.set_status intake DONE) s1))
      with (checklist_items s1).
    rewrite Hm. unfold write_intake. cbn [intakes].
    change (intakes s1) with (intakes (pending db)).
    rewrite (filter_intake_written _ _ _ Hid), Hintake. reflexivity.
  - cbn [session pending committed]. split; [reflexivity|].
    rewrite Hm. change (intakes s1) with (intakes (pending db)). exact Hintake.
Qed.

Lemma update_checklist_completes_intake_witness :
  let document := sample_document "t1" "i5" T4 (Some sample_fields) in
  let db := clean_session intake_ready_for_done in
  let db' := session (update_checklist_for_document document db) in
  none_missing "i5" (committed db') = true
  /\ pending db' = committed db'
  /\ filter (fun r => String.eqb (Intake.id r) (Document.intake_id document))
            (intakes (committed db'))
     = [if none_missing (Document.intake_id document) (committed db')
        then Intake.set_status (Intake.mk "i5" "c5" 2025 OPEN) DONE
        else Intake.mk "i5" "c5" 2025 OPEN].
Proof.
  cbv zeta. split; [reflexivity|].
  apply (update_checklist_completes_intake
           (sample_document "t1" "i5" T4 (Some sample_fields))
           (clean_session intake_ready_for_done)
           (ChecklistItem.mk "k8" "i5" T4 MISSING 1 0)
           (Intake.mk "i5" "c5" 2025 OPEN)).
  - reflexivity.
  - simpl. discriminate.
  - reflexivity.
  - reflexivity.
  - reflexivity.
Defined.

(** The session's view after a reconciliation, whichever round trip fails:
    the view before it, or that view with the located item recounted, or the
    latter with the intake promoted to done. *)
Lemma update_checklist_for_document_pending document db :
  let p' := pending (session (update_checklist_for_document document db)) in
  p' = pending db
  \/ exists item,
       filter (item_where document) (checklist_items (pending db)) = [item]
       /\ (p' = write_checklist_item (recounted document (pending db) item) (pending db)
           \/ exists intake,
                p' = write_intake (Intake.set_status intake DONE)
                       (write_checklist_item (recounted document (pending db) item)
                          (pending db))).
Proof.
  cbv zeta. destruct db as [p c f].
  unfold update_checklist_for_document.
  destruct (DocKind_eqb (Document.doc_kind document) UNKNOWN
            || negb (truthy (Document.extracted_data document))); [now left|].
  unfold check_and_update_intake_status, bind, execute_select, commit, modify, round_trip.
  cbn [faults pending committed].
  fold (item_where document). fold (count_where document).
  fold (missing_where (Document.intake_id document)).
  destruct (filter (item_where document) (checklist_items p)) as [|item [|? ?]] eqn:Hitem;
    [ destruct f as [[|n]|]; now left
    | | destruct f as [[|n]|]; now left ].
  destruct f as [[|[|[|[|[|[|n]]]]]]|];
    cbn -[filter write_intake write_checklist_item];
    try solve [ now left | right; exists item; split; [reflexivity|now left] ].
  all: match goal with
       | |- context [scalar_one_or_none ?l] => destruct l as [|intake [|? ?]]
       end;
    cbn -[filter write_intake write_checklist_item];
    try solve [ right; exists item; split; [reflexivity|now left] ].
  all: match goal with
       | |- context [Nat.eqb ?x 0] => destruct (Nat.eqb x 0)
       end;
    cbn -[filter write_intake write_checklist_item];
    right; exists item; (split; [reflexivity|]);
    first [ now left | right; exists intake; reflexivity ].
Qed.

Lemma NoDup_id_unique l (a b : ChecklistItem.t) :
  NoDup (map ChecklistItem.id l) -> In a l -> In b l ->
  ChecklistItem.id a = ChecklistItem.id b -> a = b.
Proof.
  induction l as [|r l IH]; simpl; intros Hnd Ha Hb E; [destruct Ha|].
  inversion Hnd as [|? ? Hnotin Hnd']; subst.
  destruct Ha as [->|Ha], Hb as [->|Hb]; auto.
  - elim Hnotin. rewrite E. now apply in_map.
  - elim Hnotin. rewrite <- E. now apply in_map.
Qed.

Lemma item_step_refl a : item_step a a.
Proof. repeat split; auto. Qed.

Lemma item_step_recounted d s item : item_step item (recounted d s item).
Proof.
  unfold item_step, recounted. simpl.
  destruct (_ >=? _); simpl; repeat split; auto.
Qed.

(** X4. Whichever round trip fails, a reconciliation leaves the clients and
    the documents of the session's view alone and changes the checklist
    items, whose keys are distinct, only within these limits: the same rows
    in the same order, with their key, intake, kind and expected quantity,
    and no status changed from received. *)
Theorem update_checklist_item_steps document db :
  NoDup (map ChecklistItem.id (checklist_items (pending db))) ->
  let p' := pending (session (update_checklist_for_document document db)) in
  Forall2 item_step (checklist_items (pending db)) (checklist_items p')
  /\ documents p' = documents (pending db)
  /\ clients p' = clients (pending db).
Proof.
  intros Hnd p'.
  assert (Hrefl : forall l, Forall2 item_step l l)
    by (induction l; constructor; auto using item_step_refl).
  destruct (update_checklist_for_document_pending document db)
    as [E|(item & Hitem & H)]; fold p' in E || fold p' in H.
  { rewrite E. auto. }
  assert (Hin : In item (checklist_items (pending db))).
  { assert (H0 : In item (filter (item_where document) (checklist_items (pending db))))
      by (rewrite Hitem; now left).
    now apply filter_In in H0. }
  assert (Hsteps : Forall2 item_step (checklist_items (pending db))
                     (checklist_items (write_checklist_item
                                         (recounted document (pending db) item)
                                         (pending db)))).
  { simpl. rewrite recounted_id.
    assert (G : forall l, (forall r, In r l -> In r (checklist_items (pending db))) ->
                          Forall2 item_step l
                            (map (fun r => if String.eqb (ChecklistItem.id r)
                                                         (ChecklistItem.id item)
                                           then recounted document (pending db) item
                                           else r) l)).
    { induction l as [|r l IH]; intros Hsub; simpl; constructor.
      - destruct (String.eqb_spec (ChecklistItem.id r) (ChecklistItem.id item)) as [Eid|];
          [|apply item_step_refl].
        assert (r = item) as ->
            by (apply (NoDup_id_unique _ _ _ Hnd); auto; apply Hsub; now left).
        apply item_step_recounted.
      - apply IH. intros r' Hr'. apply Hsub. now right. }
    apply G. auto. }
  destruct H as [E|(intake & E)]; rewrite E; auto.
Qed.

Lemma update_checklist_item_steps_witness :
  let document := sample_document "r1" "i2" RECEIPT (Some sample_fields) in
  let db := mkSession intake_with_cleared_receipt intake_with_cleared_receipt
              (Some 4%nat) in
  let p' := pending (session (update_checklist_for_document document db)) in
  p' <> pending db
  /\ Forall2 item_step (checklist_items (pending db)) (checklist_items p')
  /\ documents p' = documents (pending db)
  /\ clients p' = clients (pending db).
Proof.
  cbv zeta. split; [discriminate|].
  apply (update_checklist_item_steps
           (sample_document "r1" "i2" RECEIPT (Some sample_fields))
           (mkSession intake_with_cleared_receipt intake_with_cleared_receipt
              (Some 4%nat))).
  simpl. repeat constructor; simpl; intuition discriminate.
Defined.

(** ** Invariants of the data that no document write touches *)

Section Invariant.
Variable R : Store -> Prop.

(** [R] does not look at the documents. *)
Hypothesis R_documents :
  forall s s',
    clients s' = clients s -> intakes s' = intakes s ->
    checklist_items s' = checklist_items s -> R s -> R s'.

Lemma keeps_ret {A} (a : A) : preserves (both R) (ret a).
Proof. intros db H. exact H. Qed.

Lemma keeps_raise {A} e : preserves (both R) (@raise A e).
Proof. intros db H. exact H. Qed.

Lemma keeps_bind {A B} (m : M A) (k : A -> M B) :
  preserves (both R) m -> (forall a, preserves (both R) (k a)) ->
  preserves (both R) (bind m k).
Proof.
  intros Hm Hk db H. specialize (Hm db H). unfold bind.
  destruct (m db) as [a db1|e db1]; simpl in *; [now apply Hk|exact Hm].
Qed.

Lemma keeps_try_except {A} (body : M A) handler :
  preserves (both R) body -> (forall e, preserves (both R) (handler e)) ->
  preserves (both R) (try_except body handler).
Proof.
  intros Hm Hk db H. specialize (Hm db H). unfold try_except.
  destruct (body db) as [a db1|e db1]; simpl in *; [exact Hm|now apply Hk].
Qed.

Lemma keeps_round_trip {A} (k : M A) :
  preserves (both R) k -> preserves (both R) (round_trip k).
Proof.
  intros Hk db H. unfold round_trip.
  destruct (faults db) as [[|n]|]; [exact H| |now apply Hk].
  apply Hk. exact H.
Qed.

Lemma keeps_execute_select {T} (table : Store -> list T) where_ :
  preserves (both R) (execute_select table where_).
Proof. apply keeps_round_trip. intros db H. exact H. Qed.

Lemma keeps_execute_select_intakes_selectinload where_ :
  preserves (both R) (execute_select_intakes_selectinload where_).
Proof. apply keeps_round_trip. intros db H. exact H. Qed.

Lemma keeps_flush : preserves (both R) flush.
Proof. apply keeps_round_trip, keeps_ret. Qed.

Lemma keeps_commit : preserves (both R) commit.
Proof. apply keeps_round_trip. intros db [H _]. split; exact H. Qed.

Lemma keeps_scalar_one_or_none {T} (rows : list T) :
  preserves (both R) (scalar_one_or_none rows).
Proof. intros db H. now destruct rows as [|? [|? ?]]. Qed.

Lemma keeps_modify f :
  (forall s, R s -> R (f s)) -> preserves (both R) (modify f).
Proof. intros Hf db [H1 H2]. split; [now apply Hf|exact H2]. Qed.

Lemma keeps_write_document d : preserves (both R) (modify (write_document d)).
Proof. apply keeps_modify. intros s. now apply R_documents. Qed.

Lemma keeps_add_document d : preserves (both R) (modify (add_document d)).
Proof. apply keeps_modify. intros s. now apply R_documents. Qed.

Lemma keeps_classify_kind svc document :
  preserves (both R) (classify_kind svc document).
Proof.
  unfold classify_kind.
  destruct (qwen3vl_service.classify_document _ _) as [k|]; [|apply keeps_raise].
  destruct (DocKind_of_value k); [apply keeps_ret|apply keeps_raise].
Qed.

Lemma keeps_extract_by_kind svc document :
  preserves (both R) (extract_by_kind svc document).
Proof.
  unfold extract_by_kind.
  destruct (Document.doc_kind document);
    try (match goal with |- context [match ?o with Some _ => _ | None => _ end] =>
           destruct o end);
    first [apply keeps_ret|apply keeps_raise].
Qed.

Lemma keeps_classify_document svc document_id :
  preserves (both R) (classify_document svc document_id).
Proof.
  unfold classify_document.
  apply keeps_bind; [apply keeps_execute_select|intros rows].
  apply keeps_bind; [apply keeps_scalar_one_or_none|intros [document|]].
  2: apply keeps_raise.
  apply keeps_try_except; [|intros e; apply keeps_raise].
  apply keeps_bind; [apply keeps_classify_kind|intros k].
  apply keeps_bind; [apply keeps_write_document|intros _].
  apply keeps_bind; [apply keeps_commit|intros _].
  apply keeps_bind; [apply keeps_flush|intros _].
  apply keeps_ret.
Qed.

Lemma keeps_classify_each svc unknown_docs :
  forall classified, preserves (both R) (classify_each svc unknown_docs classified).
Proof.
  induction unknown_docs as [|document rest IH]; intros classified; simpl.
  - apply keeps_ret.
  - apply keeps_bind; [|intros c; apply IH].
    apply keeps_try_except; [|intros e; apply keeps_ret].
    apply keeps_bind; [apply keeps_classify_kind|intros k].
    apply keeps_bind; [apply keeps_write_document|intros _].
    apply keeps_ret.
Qed.

Lemma keeps_classify_intake_documents svc i :
  preserves (both R) (classify_intake_documents svc i).
Proof.
  unfold classify_intake_documents.
  apply keeps_bind; [apply keeps_execute_select|intros rows].
  apply keeps_bind; [apply keeps_scalar_one_or_none|intros [intake|]].
  2: apply keeps_raise.
  apply keeps_bind; [apply keeps_execute_select|intros [|d docs]].
  1: apply keeps_raise.
  apply keeps_bind; [apply keeps_classify_each|intros classified].
  apply keeps_bind; [apply keeps_commit|intros _].
  apply keeps_ret.
Qed.

Lemma keeps_upload_document env i file new_document_id :
  preserves (both R) (upload_document env i file new_document_id).
Proof.
  unfold upload_document.
  apply keeps_bind; [apply keeps_execute_select|intros rows].
  apply keeps_bind; [apply keeps_scalar_one_or_none|intros [intake|]].
  2: apply keeps_raise.
  apply keeps_bind.
  { unfold save_uploaded_file, validate_file_size, validate_file_type.
    apply keeps_bind.
    { destruct (_ >? _); [apply keeps_raise|apply keeps_ret]. }
    intros _. apply keeps_bind; [|intros mime; apply keeps_ret].
    destruct (negb _); [apply keeps_raise|].
    destruct (guess_type _ _); apply keeps_ret. }
  intros [[[content path] mime] size].
  apply keeps_bind; [apply keeps_execute_select|intros rows'].
  apply keeps_bind; [apply keeps_scalar_one_or_none|intros [existing|]].
  1: apply keeps_raise.
  apply keeps_bind; [apply keeps_add_document|intros _].
  apply keeps_bind; [apply keeps_flush|intros _].
  apply keeps_bind; [apply keeps_flush|intros _].
  apply keeps_ret.
Qed.

Lemma keeps_get_intake_checklist i :
  preserves (both R) (get_intake_checklist i).
Proof.
  unfold get_intake_checklist.
  apply keeps_bind; [apply keeps_execute_select_intakes_selectinload|intros rows].
  apply keeps_bind; [apply keeps_scalar_one_or_none|intros [[intake loaded]|]].
  2: apply keeps_raise.
  assert (Hfield : forall q, preserves (both R) (percentage_field q)).
  { intros q. unfold percentage_field.
    destruct (_ && _); [apply keeps_ret|apply keeps_raise]. }
  assert (Hvalue : forall v, preserves (both R) (float_value v)).
  { intros v. destruct v; [apply keeps_ret|apply keeps_raise]. }
  apply keeps_bind.
  { induction loaded as [|item l IH]; simpl; [apply keeps_ret|].
    apply keeps_bind.
    { unfold checklist_item_response.
      apply keeps_bind; [apply Hvalue|intros q].
      apply keeps_bind; [apply Hfield|intros q'; apply keeps_ret]. }
    intros r. apply keeps_bind; [exact IH|intros rs; apply keeps_ret]. }
  intros rs. apply keeps_bind; [apply Hvalue|intros q].
  apply keeps_bind; [apply Hfield|intros q'; apply keeps_ret].
Qed.

(** The operations that neither reconcile nor re-evaluate keep [R]. *)
Lemma keeps_never_reconciles op db :
  never_reconciles op -> both R db -> both R (run_operation op db).
Proof.
  destruct op; simpl; intros Hop; try contradiction.
  - apply keeps_upload_document.
  - apply keeps_classify_document.
  - apply keeps_classify_intake_documents.
  - apply keeps_get_intake_checklist.
  - intros [H1 H2]. destruct keep; split; assumption.
Qed.

(** With the two service functions keeping [R], so do the extractions. *)
Hypothesis R_update :
  forall document, preserves (both R) (update_checklist_for_document document).
Hypothesis R_check :
  forall i, preserves (both R) (check_and_update_intake_status i).

Lemma keeps_extract_document svc document_id :
  preserves (both R) (extract_document svc document_id).
Proof.
  unfold extract_document.
  apply keeps_bind; [apply keeps_execute_select|intros rows].
  apply keeps_bind; [apply keeps_scalar_one_or_none|intros [document|]].
  2: apply keeps_raise.
  destruct (DocKind_eqb _ UNKNOWN); [apply keeps_raise|].
  apply keeps_try_except; [|intros e; apply keeps_raise].
  apply keeps_bind; [apply keeps_extract_by_kind|intros [extraction|]].
  2: apply keeps_raise.
  apply keeps_bind; [apply keeps_write_document|intros _].
  apply keeps_bind; [apply keeps_commit|intros _].
  apply keeps_bind; [apply keeps_flush|intros _].
  apply keeps_bind; [apply R_update|intros _].
  apply keeps_ret.
Qed.

Lemma keeps_extract_each svc classified_docs :
  forall extracted, preserves (both R) (extract_each svc classified_docs extracted).
Proof.
  induction classified_docs as [|document rest IH]; intros extracted; simpl.
  - apply keeps_ret.
  - apply keeps_bind; [|intros c; apply IH].
    destruct (truthy _); [apply keeps_ret|].
    apply keeps_try_except; [|intros e; apply keeps_ret].
    apply keeps_bind; [apply keeps_extract_by_kind|intros [extraction|]].
    2: apply keeps_ret.
    apply keeps_bind; [apply keeps_write_document|intros _].
    apply keeps_bind; [apply keeps_commit|intros _].
    apply keeps_bind; [apply keeps_flush|intros _].
    apply keeps_bind; [apply R_update|intros _].
    apply keeps_ret.
Qed.

Lemma keeps_extract_intake_documents svc i :
  preserves (both R) (extract_intake_documents svc i).
Proof.
  unfold extract_intake_documents.
  apply keeps_bind; [apply keeps_execute_select|intros rows].
  apply keeps_bind; [apply keeps_scalar_one_or_none|intros [intake|]].
  2: apply keeps_raise.
  apply keeps_bind; [apply keeps_execute_select|intros [|d docs]].
  1: apply keeps_raise.
  apply keeps_bind; [apply keeps_extract_each|intros extracted].
  apply keeps_ret.
Qed.

Lemma keeps_on_existing_intakes op db :
  on_existing_intakes op -> both R db -> both R (run_operation op db).
Proof.
  destruct op; simpl; intros Hop; try contradiction.
  - apply keeps_upload_document.
  - apply keeps_classify_document.
  - apply keeps_extract_document.
  - apply keeps_classify_intake_documents.
  - apply keeps_extract_intake_documents.
  - apply R_update.
  - apply R_check.
  - apply keeps_get_intake_checklist.
  - intros [H1 H2]. destruct keep; split; assumption.
Qed.
End Invariant.

Lemma run_never_reconciles (R : Store -> Prop) ops :
  (forall s s',
      clients s' = clients s -> intakes s' = intakes s ->
      checklist_items s' = checklist_items s -> R s -> R s') ->
  Forall never_reconciles ops ->
  forall db, both R db -> both R (run_operations ops db).
Proof.
  intros HR Hops. unfold run_operations.
  induction Hops as [|op ops Hop _ IH]; intros db H; simpl; [exact H|].
  apply IH. now apply keeps_never_reconciles.
Qed.

(** X5. Uploads, classifications and reads of the checklist, in any number
    and order, whichever round trips fail and however requests end, leave
    every checklist item and every intake row as they were: classification
    alone never reconciles. *)
Theorem never_reconciles_frame ops db :
  Forall never_reconciles ops ->
  checklist_items (committed db) = checklist_items (pending db) ->
  intakes (committed db) = intakes (pending db) ->
  let db' := run_operations ops db in
  checklist_items (pending db') = checklist_items (pending db)
  /\ intakes (pending db') = intakes (pending db)
  /\ checklist_items (committed db') = checklist_items (pending db)
  /\ intakes (committed db') = intakes (pending db).
Proof.
  intros Hops Hk Hi.
  destruct (run_never_reconciles
              (fun s => checklist_items s = checklist_items (pending db)
                        /\ intakes s = intakes (pending db)) ops) with (db := db)
    as [[H1 H2] [H3 H4]];
    [ intros s s' _ E1 E2 [H1 H2]; split; congruence
    | assumption
    | split; split; auto
    | cbv zeta; auto ].
Qed.

Lemma never_reconciles_frame_witness :
  let db := clean_session intake_partial in
  let ops := [ UploadDocument sample_env "i8" sample_upload "u8";
               NewSession true (Some 1%nat);
               ClassifyDocument sample_service "u8";
               NewSession true None;
               ClassifyIntakeDocuments sample_service "i8";
               GetIntakeChecklist "i8" ] in
  let db' := run_operations ops db in
  List.length (documents (committed db')) = 2%nat
  /\ checklist_items (pending db') = checklist_items (pending db)
  /\ intakes (pending db') = intakes (pending db)
  /\ checklist_items (committed db') = checklist_items (pending db)
  /\ intakes (committed db') = intakes (pending db).
Proof.
  cbv zeta. split; [reflexivity|].
  apply (never_reconciles_frame
           [ UploadDocument sample_env "i8" sample_upload "u8";
             NewSession true (Some 1%nat);
             ClassifyDocument sample_service "u8";
             NewSession true None;
             ClassifyIntakeDocuments sample_service "i8";
             GetIntakeChecklist "i8" ]
           (clean_session intake_partial)).
  - repeat constructor.
  - reflexivity.
  - reflexivity.
Defined.

(** ** Received items stay received *)

Lemma item_step_trans a b c : item_step a b -> item_step b c -> item_step a c.
Proof.
  unfold item_step. intros (H1 & H2 & H3 & H4 & H5) (G1 & G2 & G3 & G4 & G5).
  repeat split; try congruence. auto.
Qed.

Lemma Forall2_item_step_refl l : Forall2 item_step l l.
Proof. induction l; constructor; auto using item_step_refl. Qed.

Lemma Forall2_item_step_trans l1 l2 l3 :
  Forall2 item_step l1 l2 -> Forall2 item_step l2 l3 -> Forall2 item_step l1 l3.
Proof.
  intros H. revert l3. induction H as [|a b l1 l2 Hab _ IH]; intros l3 H23;
    inversion H23; subst; constructor; eauto using item_step_trans.
Qed.

Lemma Forall2_item_step_ids l1 l2 :
  Forall2 item_step l1 l2 -> map ChecklistItem.id l2 = map ChecklistItem.id l1.
Proof.
  induction 1 as [|a b l1 l2 Hab _ IH]; simpl; [reflexivity|].
  destruct Hab as (E & _). now rewrite E, IH.
Qed.

(** Writing the recounted row over the located one, in a table with
    distinct keys, is a step of every row. *)
Lemma write_recounted_steps document s item :
  NoDup (map ChecklistItem.id (checklist_items s)) ->
  In item (checklist_items s) ->
  Forall2 item_step (checklist_items s)
    (checklist_items (write_checklist_item (recounted document s item) s)).
Proof.
  intros Hnd Hin. simpl. rewrite recounted_id.
  assert (G : forall l, (forall r, In r l -> In r (checklist_items s)) ->
                        Forall2 item_step l
                          (map (fun r => if String.eqb (ChecklistItem.id r)
                                                       (ChecklistItem.id item)
                                         then recounted document s item
                                         else r) l)).
  { induction l as [|r l IH]; intros Hsub; simpl; constructor.
    - destruct (String.eqb_spec (ChecklistItem.id r) (ChecklistItem.id item)) as [Eid|];
        [|apply item_step_refl].
      assert (r = item) as ->
          by (apply (NoDup_id_unique _ _ _ Hnd); auto; apply Hsub; now left).
      apply item_step_recounted.
    - apply IH. intros r' Hr'. apply Hsub. now right. }
  apply G. auto.
Qed.

(** Whichever round trip fails, a reconciliation ends in states that are the
    ones it started from, the view with the located item recounted, or the
    latter with an intake promoted. *)
Lemma update_checklist_for_document_both (R : Store -> Prop) document db :
  both R db ->
  (forall item,
      filter (item_where document) (checklist_items (pending db)) = [item] ->
      R (write_checklist_item (recounted document (pending db) item) (pending db))
      /\ forall intake,
           R (write_intake (Intake.set_status intake DONE)
                (write_checklist_item (recounted document (pending db) item)
                   (pending db)))) ->
  both R (session (update_checklist_for_document document db)).
Proof.
  intros [Hp Hc] H. destruct db as [p c f]. cbn [pending committed] in *.
  unfold update_checklist_for_document.
  destruct (DocKind_eqb (Document.doc_kind document) UNKNOWN
            || negb (truthy (Document.extracted_data document))); [now split|].
  unfold check_and_update_intake_status, bind, execute_select, commit, modify, round_trip.
  cbn [faults pending committed].
  fold (item_where document). fold (count_where document).
  fold (missing_where (Document.intake_id document)).
  destruct (filter (item_where document) (checklist_items p)) as [|item [|? ?]] eqn:Hitem;
    [ destruct f as [[|n]|]; now split
    | | destruct f as [[|n]|]; now split ].
  destruct (H item eq_refl) as [H1 H2]. clear H.
  destruct f as [[|[|[|[|[|[|n]]]]]]|];
    cbn -[filter write_intake write_checklist_item];
    try solve [ split; first [ assumption | exact H1 ] ].
  all: match goal with
       | |- context [scalar_one_or_none ?l] => destruct l as [|intake [|? ?]]
       end;
    cbn -[filter write_intake write_checklist_item];
    try solve [ split; first [ assumption | exact H1 ] ].
  all: match goal with
       | |- context [Nat.eqb ?x 0] => destruct (Nat.eqb x 0)
       end;
    cbn -[filter write_intake write_checklist_item];
    split; first [ assumption | exact H1 | exact (H2 intake) ].
Qed.

Lemma check_and_update_intake_status_both (R : Store -> Prop) i :
  (forall intake s, R s -> R (write_intake intake s)) ->
  preserves (both R) (check_and_update_intake_status i).
Proof.
  intros HR. unfold check_and_update_intake_status.
  apply keeps_bind; [apply keeps_execute_select|intros rows].
  apply keeps_bind; [apply keeps_scalar_one_or_none|intros [intake|]].
  2: apply keeps_ret.
  apply keeps_bind; [apply keeps_execute_select|intros items_].
  destruct (Nat.eqb _ 0); [|apply keeps_ret].
  apply keeps_bind; [|intros _; apply keeps_commit].
  apply keeps_modify. intros s. apply HR.
Qed.

Lemma run_on_existing_intakes items0 ops :
  NoDup (map ChecklistItem.id items0) ->
  Forall on_existing_intakes ops ->
  forall db,
    both (fun s => Forall2 item_step items0 (checklist_items s)) db ->
    both (fun s => Forall2 item_step items0 (checklist_items s))
         (run_operations ops db).
Proof.
  intros Hnd Hops. unfold run_operations.
  induction Hops as [|op ops Hop _ IH]; intros db H; simpl; [exact H|].
  apply IH. apply keeps_on_existing_intakes; auto.
  - intros s s' _ _ E. now rewrite E.
  - intros document db0 H0. apply update_checklist_for_document_both; [exact H0|].
    intros item Hitem. destruct H0 as [H0 _].
    assert (Hsteps : Forall2 item_step items0
                       (checklist_items
                          (write_checklist_item
                             (recounted document (pending db0) item) (pending db0)))).
    { apply Forall2_item_step_trans with (l2 := checklist_items (pending db0));
        [exact H0|].
      apply write_recounted_steps.
      - rewrite (Forall2_item_step_ids _ _ H0). exact Hnd.
      - assert (Hin : In item (filter (item_where document)
                                 (checklist_items (pending db0))))
          by (rewrite Hitem; now left).
        now apply filter_In in Hin. }
    split; [exact Hsteps|]. intros intake. exact Hsteps.
  - intros i. apply check_and_update_intake_status_both. intros intake s Hs. exact Hs.
Qed.

(** X6. Over every sequence of operations on the documents of existing
    intakes (uploads, classifications, extractions, reconciliations, status
    re-evaluations, reads), whichever round trips fail and however requests
    end, the checklist items, whose keys are distinct, stay the same rows
    with the same expected quantities, and an item that is received stays
    received. *)
Theorem received_is_permanent ops db :
  Forall on_existing_intakes ops ->
  NoDup (map ChecklistItem.id (checklist_items (pending db))) ->
  checklist_items (committed db) = checklist_items (pending db) ->
  let db' := run_operations ops db in
  Forall2 item_step (checklist_items (pending db)) (checklist_items (pending db'))
  /\ Forall2 item_step (checklist_items (pending db)) (checklist_items (committed db')).
Proof.
  intros Hops Hnd Hc.
  apply (run_on_existing_intakes (checklist_items (pending db)) ops Hnd Hops db).
  split; [|rewrite Hc]; apply Forall2_item_step_refl.
Qed.

Lemma received_is_permanent_witness :
  let db := clean_session intake_with_cleared_receipt in
  let ops := [ ExtractDocument sample_service "r2";
               NewSession true None;
               UpdateChecklistForDocument
                 (sample_document "r1" "i2" RECEIPT (Some sample_fields));
               CheckAndUpdateIntakeStatus "i2";
               ExtractIntakeDocuments sample_service "i2" ] in
  let db' := run_operations ops db in
  Forall2 item_step (checklist_items (pending db)) (checklist_items (pending db'))
  /\ Forall2 item_step (checklist_items (pending db)) (checklist_items (committed db')).
Proof.
  cbv zeta.
  apply (received_is_permanent
           [ ExtractDocument sample_service "r2";
             NewSession true None;
             UpdateChecklistForDocument
               (sample_document "r1" "i2" RECEIPT (Some sample_fields));
             CheckAndUpdateIntakeStatus "i2";
             ExtractIntakeDocuments sample_service "i2" ]
           (clean_session intake_with_cleared_receipt)).
  - repeat constructor.
  - simpl. repeat constructor; simpl; intuition discriminate.
  - reflexivity.
Defined.

(** ** Inversion of runs that raise *)

Lemma bind_Raise {A B} (m : M A) (k : A -> M B) db e db' :
  bind m k db = Raise e db' ->
  m db = Raise e db' \/ exists a db1, m db = Ok a db1 /\ k a db1 = Raise e db'.
Proof.
  unfold bind. destruct (m db) as [a db1|e1 db1]; intros H.
  - right. now exists a, db1.
  - left. injection H as -> ->. reflexivity.
Qed.

Lemma round_trip_Raise {A} (k : M A) db e db' :
  round_trip k db = Raise e db' ->
  (e = OperationalError /\ db' = db)
  \/ exists db1, same_data db db1 /\ k db1 = Raise e db'.
Proof.
  unfold round_trip. destruct (faults db) as [[|n]|]; intros H.
  - left. injection H as <- <-. now split.
  - right. eexists. split; [|exact H]. split; reflexivity.
  - right. exists db. split; [apply same_data_refl|exact H].
Qed.

Lemma execute_select_Raise {T} (table : Store -> list T) where_ db e db' :
  execute_select table where_ db = Raise e db' -> e = OperationalError /\ db' = db.
Proof.
  intros H. apply round_trip_Raise in H.
  destruct H as [H|(db1 & _ & H)]; [exact H|discriminate].
Qed.

Lemma flush_Raise db e db' : flush db = Raise e db' -> e = OperationalError /\ db' = db.
Proof.
  intros H. apply round_trip_Raise in H.
  destruct H as [H|(db1 & _ & H)]; [exact H|discriminate].
Qed.

Lemma scalar_one_or_none_Raise {T} (rows : list T) db e db' :
  scalar_one_or_none rows db = Raise e db' -> e = MultipleResultsFound /\ db' = db.
Proof.
  destruct rows as [|r [|? ?]]; simpl; intros H; try discriminate.
  injection H as <- <-. now split.
Qed.

Lemma same_data_trans db1 db2 db3 :
  same_data db1 db2 -> same_data db2 db3 -> same_data db1 db3.
Proof. intros [H1 H2] [H3 H4]. split; congruence. Qed.

(** ** Creation of intakes *)

(** X7. The checklist that [create_intake] builds has one item per document
    kind, never one of the unknown kind, a receipt item exactly for the
    clients that are not simple, and only items of the new intake that are
    missing, have received nothing and expect at least one document. *)
Theorem create_intake_checklist_items_kinds :
  forall (client : Client.t) (new_intake_id : string) (item_ids : string * string * string),
    let items_ := create_intake_checklist_items new_intake_id client item_ids in
    NoDup (map ChecklistItem.doc_kind items_)
    /\ ~ In UNKNOWN (map ChecklistItem.doc_kind items_)
    /\ In T4 (map ChecklistItem.doc_kind items_)
    /\ In ID (map ChecklistItem.doc_kind items_)
    /\ (In RECEIPT (map ChecklistItem.doc_kind items_)
        <-> Client.complexity client <> SIMPLE)
    /\ Forall (fun item =>
                 ChecklistItem.intake_id item = new_intake_id
                 /\ ChecklistItem.status item = MISSING
                 /\ ChecklistItem.quantity_received item = 0
                 /\ 1 <= ChecklistItem.quantity_expected item)
              items_.
Proof.
  intros [i n e c] new_intake_id [[id1 id2] id3].
  destruct c; cbn; repeat split;
    try (repeat constructor; simpl; intuition discriminate);
    try (intuition discriminate); try lia.
Qed.

Lemma filter_new_items new_intake_id client item_ids :
  filter (fun r => String.eqb (ChecklistItem.intake_id r) new_intake_id)
         (create_intake_checklist_items new_intake_id client item_ids)
  = create_intake_checklist_items new_intake_id client item_ids.
Proof.
  destruct client as [i n e c], item_ids as [[id1 id2] id3].
  destruct c; cbn; rewrite ?String.eqb_refl; reflexivity.
Qed.

(** X8. A successful [create_intake] found the client and no intake of the
    client for the fiscal year; it adds to the session's view one open
    intake with the new key and the checklist of the client's tier, commits
    nothing itself, and returns that intake with its items loaded. *)
Theorem create_intake_creates client_id fiscal_year new_intake_id item_ids db
    intake loaded db' :
  create_intake client_id fiscal_year new_intake_id item_ids db = Ok (intake, loaded) db' ->
  exists client,
    filter (fun r => String.eqb (Client.id r) client_id) (clients (pending db)) = [client]
    /\ filter (fun r => String.eqb (Intake.client_id r) client_id
                        && (Intake.fiscal_year r =? fiscal_year))
              (intakes (pending db)) = []
    /\ intake = Intake.mk new_intake_id client_id fiscal_year OPEN
    /\ pending db'
       = add_checklist_items
           (create_intake_checklist_items new_intake_id client item_ids)
           (add_intake intake (pending db))
    /\ committed db' = committed db
    /\ loaded
       = filter (fun r => String.eqb (ChecklistItem.intake_id r) new_intake_id)
                (checklist_items (pending db))
         ++ create_intake_checklist_items new_intake_id client item_ids.
Proof.
  unfold create_intake. intros H.
  apply bind_Ok in H. destruct H as (rows & db1 & H1 & H).
  apply execute_select_Ok in H1. destruct H1 as [-> [Hp1 Hc1]].
  apply bind_Ok in H. destruct H as (o & db2 & H2 & H).
  apply scalar_one_or_none_Ok in H2.
  destruct H2 as [-> [[_ ->]|(client & Hrows & ->)]]; [discriminate|].
  exists client. split; [exact Hrows|].
  apply bind_Ok in H. destruct H as (rows3 & db3 & H3 & H).
  apply execute_select_Ok in H3. destruct H3 as [-> [Hp3 Hc3]].
  apply bind_Ok in H. destruct H as (o4 & db4 & H4 & H).
  apply scalar_one_or_none_Ok in H4.
  destruct H4 as [-> [[Hnone ->]|(? & _ & ->)]]; [|discriminate].
  rewrite Hp1 in Hnone. split; [exact Hnone|].
  apply bind_Ok in H. destruct H as (? & db5 & H5 & H). apply modify_Ok in H5.
  apply bind_Ok in H. destruct H as (? & db6 & H6 & H). apply flush_Ok in H6.
  apply bind_Ok in H. destruct H as (? & db7 & H7 & H). apply refresh_Ok in H7.
  apply bind_Ok in H. destruct H as (? & db8 & H8 & H). apply modify_Ok in H8.
  apply bind_Ok in H. destruct H as (? & db9 & H9 & H). apply flush_Ok in H9.
  apply bind_Ok in H. destruct H as (rows10 & db10 & H10 & H).
  apply round_trip_Ok in H10. destruct H10 as (db11 & H11 & H10).
  injection H10 as <- <-. apply scalar_one_Ok in H. destruct H as [-> Hone].
  destruct H5 as [H5 H5c], H6 as [H6 H6c], H7 as [H7 H7c], H8 as [H8 H8c],
    H9 as [H9 H9c], H11 as [H11 H11c].
  assert (Hp : pending db11
               = add_checklist_items
                   (create_intake_checklist_items new_intake_id client item_ids)
                   (add_intake (Intake.mk new_intake_id client_id fiscal_year OPEN)
                      (pending db)))
    by (rewrite H11, H9, H8, H7, H6, H5, Hp3, Hp1; reflexivity).
  assert (Hcm : committed db11 = committed db) by congruence.
  rewrite Hp in Hone. cbn [intakes checklist_items add_checklist_items add_intake] in Hone.
  rewrite filter_app in Hone. cbn [filter Intake.id] in Hone.
  rewrite String.eqb_refl in Hone.
  destruct (filter (fun r => String.eqb (Intake.id r) new_intake_id)
              (intakes (pending db))) as [|other l]; simpl in Hone.
  2:{ destruct l; discriminate. }
  injection Hone as <- <-. cbn [Intake.id].
  rewrite filter_app, filter_new_items. repeat split; assumption.
Qed.

Lemma create_intake_creates_witness :
  let db := clean_session intake_without_items in
  exists intake loaded db',
    create_intake "c3" 2026 "n1" ("a1", "a2", "a3") db = Ok (intake, loaded) db'
    /\ List.length loaded = 2%nat
    /\ exists client,
         filter (fun r => String.eqb (Client.id r) "c3") (clients (pending db)) = [client]
         /\ filter (fun r => String.eqb (Intake.client_id r) "c3"
                             && (Intake.fiscal_year r =? 2026))
                   (intakes (pending db)) = []
         /\ intake = Intake.mk "n1" "c3" 2026 OPEN
         /\ pending db'
            = add_checklist_items
                (create_intake_checklist_items "n1" client ("a1", "a2", "a3"))
                (add_intake intake (pending db))
         /\ committed db' = committed db
         /\ loaded
            = filter (fun r => String.eqb (ChecklistItem.intake_id r) "n1")
                     (checklist_items (pending db))
              ++ create_intake_checklist_items "n1" client ("a1", "a2", "a3").
Proof.
  cbv zeta. do 3 eexists. split; [vm_compute; reflexivity|].
  split; [reflexivity|].
  eapply (create_intake_creates "c3" 2026 "n1" ("a1", "a2", "a3")
            (clean_session intake_without_items)).
  vm_compute. reflexivity.
Defined.

(** X9. When [create_intake] rejects the request, it is with 404 because no
    client has the key, or with 409 because the client already has an intake
    for the fiscal year; in both cases nothing has changed. *)
Theorem create_intake_rejects client_id fiscal_year new_intake_id item_ids db c db' :
  create_intake client_id fiscal_year new_intake_id item_ids db
  = Raise (HTTPException c) db' ->
  same_data db db'
  /\ ((c = 404
       /\ filter (fun r => String.eqb (Client.id r) client_id) (clients (pending db)) = [])
      \/ (c = 409
          /\ exists existing,
               filter (fun r => String.eqb (Intake.client_id r) client_id
                                && (Intake.fiscal_year r =? fiscal_year))
                      (intakes (pending db)) = [existing])).
Proof.
  unfold create_intake. intros H.
  apply bind_Raise in H. destruct H as [H|(rows & db1 & H1 & H)].
  { apply execute_select_Raise in H. destruct H as [H _]. discriminate. }
  apply execute_select_Ok in H1. destruct H1 as [-> Hs1].
  apply bind_Raise in H. destruct H as [H|(o & db2 & H2 & H)].
  { apply scalar_one_or_none_Raise in H. destruct H as [H _]. discriminate. }
  apply scalar_one_or_none_Ok in H2.
  destruct H2 as [-> [[Hnone ->]|(client & Hrows & ->)]].
  { injection H as <- <-. split; [exact Hs1|]. left. now split. }
  apply bind_Raise in H. destruct H as [H|(rows3 & db3 & H3 & H)].
  { apply execute_select_Raise in H. destruct H as [H _]. discriminate. }
  apply execute_select_Ok in H3. destruct H3 as [-> Hs3].
  apply bind_Raise in H. destruct H as [H|(o4 & db4 & H4 & H)].
  { apply scalar_one_or_none_Raise in H. destruct H as [H _]. discriminate. }
  apply scalar_one_or_none_Ok in H4.
  destruct H4 as [-> [[_ ->]|(existing & Hex & ->)]].
  - exfalso.
    apply bind_Raise in H. destruct H as [H|(? & db5 & H5 & H)]; [discriminate|].
    apply bind_Raise in H. destruct H as [H|(? & db6 & H6 & H)].
    { apply flush_Raise in H. destruct H as [H _]. discriminate. }
    apply bind_Raise in H. destruct H as [H|(? & db7 & H7 & H)].
    { apply flush_Raise in H. destruct H as [H _]. discriminate. }
    apply bind_Raise in H. destruct H as [H|(? & db8 & H8 & H)]; [discriminate|].
    apply bind_Raise in H. destruct H as [H|(? & db9 & H9 & H)].
    { apply flush_Raise in H. destruct H as [H _]. discriminate. }
    apply bind_Raise in H. destruct H as [H|(rows10 & db10 & H10 & H)].
    { apply round_trip_Raise in H. destruct H as [[H _]|(? & _ & H)]; discriminate. }
    destruct rows10 as [|? [|? ?]]; discriminate.
  - injection H as <- <-. split; [exact (same_data_trans _ _ _ Hs1 Hs3)|].
    right. split; [reflexivity|]. exists existing.
    destruct Hs1 as [Hp1 _]. now rewrite <- Hp1.
Qed.

Lemma create_intake_rejects_witness :
  let db := clean_session intake_without_items in
  create_intake "c3" 2025 "n1" ("a1", "a2", "a3") db = Raise (HTTPException 409) db
  /\ same_data db db
  /\ ((409 = 404
       /\ filter (fun r => String.eqb (Client.id r) "c3") (clients (pending db)) = [])
      \/ (409 = 409
          /\ exists existing,
               filter (fun r => String.eqb (Intake.client_id r) "c3"
                                && (Intake.fiscal_year r =? 2025))
                      (intakes (pending db)) = [existing])).
Proof.
  cbv zeta. split; [reflexivity|].
  apply (create_intake_rejects "c3" 2025 "n1" ("a1", "a2", "a3")
           (clean_session intake_without_items) 409
           (clean_session intake_without_items)).
  reflexivity.
Defined.

(** What a successful [create_intake] found and left in the view. *)
Lemma create_intake_rows client_id fiscal_year new_intake_id item_ids db
    intake loaded db' :
  create_intake client_id fiscal_year new_intake_id item_ids db = Ok (intake, loaded) db' ->
  exists client,
    filter (fun r => String.eqb (Client.id r) client_id) (clients (pending db)) = [client]
    /\ filter (fun r => String.eqb (Intake.client_id r) client_id
                        && (Intake.fiscal_year r =? fiscal_year))
              (intakes (pending db)) = []
    /\ pending db'
       = add_checklist_items
           (create_intake_checklist_items new_intake_id client item_ids)
           (add_intake (Intake.mk new_intake_id client_id fiscal_year OPEN) (pending db)).
Proof.
  unfold create_intake. intros H.
  apply bind_Ok in H. destruct H as (rows & db1 & H1 & H).
  apply execute_select_Ok in H1. destruct H1 as [-> [Hp1 Hc1]].
  apply bind_Ok in H. destruct H as (o & db2 & H2 & H).
  apply scalar_one_or_none_Ok in H2.
  destruct H2 as [-> [[_ ->]|(client & Hrows & ->)]]; [discriminate|].
  exists client. split; [exact Hrows|].
  apply bind_Ok in H. destruct H as (rows3 & db3 & H3 & H).
  apply execute_select_Ok in H3. destruct H3 as [-> [Hp3 Hc3]].
  apply bind_Ok in H. destruct H as (o4 & db4 & H4 & H).
  apply scalar_one_or_none_Ok in H4.
  destruct H4 as [-> [[Hnone ->]|(? & _ & ->)]]; [|discriminate].
  rewrite Hp1 in Hnone. split; [exact Hnone|].
  apply bind_Ok in H. destruct H as (? & db5 & H5 & H). apply modify_Ok in H5.
  apply bind_Ok in H. destruct H as (? & db6 & H6 & H). apply flush_Ok in H6.
  apply bind_Ok in H. destruct H as (? & db7 & H7 & H). apply refresh_Ok in H7.
  apply bind_Ok in H. destruct H as (? & db8 & H8 & H). apply modify_Ok in H8.
  apply bind_Ok in H. destruct H as (? & db9 & H9 & H). apply flush_Ok in H9.
  apply bind_Ok in H. destruct H as (rows10 & db10 & H10 & H).
  apply round_trip_Ok in H10. destruct H10 as (db11 & H11 & H10).
  injection H10 as <- <-. apply scalar_one_Ok in H. destruct H as [-> Hone].
  destruct H5 as [H5 _], H6 as [H6 _], H7 as [H7 _], H8 as [H8 _],
    H9 as [H9 _], H11 as [H11 _].
  rewrite H11, H9, H8, H7, H6, H5, Hp3, Hp1. reflexivity.
Qed.

(** X10. After a successful [create_intake], a second request for the same
    client and fiscal year, in a session that sees what the first one did
    and has no failing round trip, is rejected with 409 and adds nothing. *)
Theorem create_intake_twice client_id fiscal_year id1 ids1 id2 ids2 db r db1 db2 :
  create_intake client_id fiscal_year id1 ids1 db = Ok r db1 ->
  pending db2 = pending db1 ->
  faults db2 = None ->
  create_intake client_id fiscal_year id2 ids2 db2 = Raise (HTTPException 409) db2.
Proof.
  intros H Hp Hf. destruct r as [intake loaded].
  apply create_intake_rows in H. destruct H as (client & Hclient & Hnone & Hp1).
  unfold create_intake, bind.
  rewrite execute_select_no_faults by assumption.
  rewrite Hp, Hp1. cbn [clients add_checklist_items add_intake].
  rewrite Hclient. cbn [scalar_one_or_none ret].
  rewrite execute_select_no_faults by assumption.
  rewrite Hp, Hp1. cbn [intakes add_checklist_items add_intake].
  rewrite filter_app, Hnone. cbn [filter Intake.client_id Intake.fiscal_year app].
  rewrite String.eqb_refl, Z.eqb_refl. reflexivity.
Qed.

Lemma create_intake_twice_witness :
  let db := clean_session intake_without_items in
  let db1 := session (create_intake "c3" 2026 "n1" ("a1", "a2", "a3") db) in
  let db2 := mkSession (pending db1) (pending db1) None in
  create_intake "c3" 2026 "n2" ("b1", "b2", "b3") db2 = Raise (HTTPException 409) db2.
Proof.
  cbv zeta.
  eapply (create_intake_twice "c3" 2026 "n1" ("a1", "a2", "a3") "n2" ("b1", "b2", "b3")
            (clean_session intake_without_items)).
  - vm_compute. reflexivity.
  - reflexivity.
  - reflexivity.
Defined.

(** ** Creation of clients *)

Lemma filter_email_nil_notin email_ l :
  filter (fun r => String.eqb (Client.email r) email_) l = [] ->
  ~ In email_ (map Client.email l).
Proof.
  induction l as [|r l IH]; simpl; [tauto|].
  destruct (String.eqb_spec (Client.email r) email_) as [E|E]; [discriminate|].
  intros H [H0|H0]; [contradiction|now apply IH].
Qed.

(** What a successful [create_client] found and left in the view. *)
Lemma create_client_rows lower client_data new_client_id db c db' :
  create_client lower client_data new_client_id db = Ok c db' ->
  filter (fun r => String.eqb (Client.email r) (lower (create_email client_data)))
         (clients (pending db)) = []
  /\ c = Client.mk new_client_id (create_name client_data)
           (lower (create_email client_data)) (create_complexity client_data)
  /\ pending db' = add_client c (pending db)
  /\ committed db' = committed db.
Proof.
  unfold create_client. intros H.
  apply bind_Ok in H. destruct H as (rows & db1 & H1 & H).
  apply execute_select_Ok in H1. destruct H1 as [-> [Hp1 Hc1]].
  apply bind_Ok in H. destruct H as (o & db2 & H2 & H).
  apply scalar_one_or_none_Ok in H2.
  destruct H2 as [-> [[Hnone ->]|(? & _ & ->)]]; [|discriminate].
  apply bind_Ok in H. destruct H as (? & db3 & H3 & H). apply modify_Ok in H3.
  apply bind_Ok in H. destruct H as (? & db4 & H4 & H). apply flush_Ok in H4.
  apply bind_Ok in H. destruct H as (? & db5 & H5 & H). apply refresh_Ok in H5.
  injection H as <- <-.
  destruct H3 as [H3 H3c], H4 as [H4 H4c], H5 as [H5 H5c].
  repeat split; try congruence.
Qed.

(** X11. A successful [create_client] stores the client with its e-mail
    address in lower case; a following request whose address has the same
    lower-case form, in a session that sees the new client and has no
    failing round trip, is rejected with 409 and adds nothing. *)
Theorem create_client_twice lower d1 id1 d2 id2 db c db1 db2 :
  create_client lower d1 id1 db = Ok c db1 ->
  pending db2 = pending db1 ->
  faults db2 = None ->
  lower (create_email d2) = lower (create_email d1) ->
  Client.email c = lower (create_email d1)
  /\ In c (clients (pending db1))
  /\ create_client lower d2 id2 db2 = Raise (HTTPException 409) db2.
Proof.
  intros H Hp Hf He.
  apply create_client_rows in H. destruct H as (Hnone & -> & Hp1 & _).
  split; [reflexivity|]. split.
  { rewrite Hp1. simpl. apply in_or_app. right. now left. }
  unfold create_client, bind.
  rewrite execute_select_no_faults by assumption.
  rewrite Hp, Hp1, He. cbn [clients add_client].
  rewrite filter_app, Hnone. cbn [filter Client.email app].
  rewrite String.eqb_refl. reflexivity.
Qed.

Lemma NoDup_snoc {A} (a : A) l : NoDup l -> ~ In a l -> NoDup (l ++ [a]).
Proof.
  induction 1 as [|x l Hx Hl IH]; simpl; intros Ha.
  - constructor; [tauto|constructor].
  - constructor.
    + rewrite in_app_iff. simpl. intros [H|[H|[]]]; [contradiction|].
      apply Ha. now left.
    + apply IH. intros H. apply Ha. now right.
Qed.

(** X12. Whatever its outcome and whichever round trip fails,
    [create_client] keeps the e-mail addresses of the clients in the
    session's view distinct, and never changes or removes a client. *)
Theorem create_client_keeps_emails_distinct lower client_data new_client_id db :
  NoDup (map Client.email (clients (pending db))) ->
  let p' := pending (session (create_client lower client_data new_client_id db)) in
  NoDup (map Client.email (clients p'))
  /\ exists added, clients p' = clients (pending db) ++ added.
Proof.
  intros Hnd. cbv zeta. destruct db as [p c f]. cbn [pending] in Hnd.
  unfold create_client, bind, execute_select, modify, flush, refresh, round_trip, ret.
  cbn [faults pending committed].
  assert (Hsame : NoDup (map Client.email (clients p))
                  /\ exists added, clients p = clients p ++ added)
    by (split; [exact Hnd|exists []; now rewrite app_nil_r]).
  destruct (filter (fun r => String.eqb (Client.email r)
                                        (lower (create_email client_data)))
              (clients p)) as [|x [|y l]] eqn:Hq;
    destruct f as [[|[|[|n]]]|]; cbn; try exact Hsame.
  all: split; [|eexists; reflexivity].
  all: rewrite map_app; cbn.
  all: apply NoDup_snoc; [exact Hnd|now apply filter_email_nil_notin].
Qed.

Lemma create_client_twice_witness :
  let db := clean_session intake_without_items in
  let d1 := mkClientCreate "Al" "AL@Example.com" SIMPLE in
  let d2 := mkClientCreate "Alan" "al@EXAMPLE.COM" COMPLEX in
  let db1 := session (create_client sample_lower d1 "c9" db) in
  let db2 := mkSession (pending db1) (pending db1) None in
  exists c,
    Client.email c = "al@example.com"
    /\ Client.email c = sample_lower (create_email d1)
    /\ In c (clients (pending db1))
    /\ create_client sample_lower d2 "c10" db2 = Raise (HTTPException 409) db2.
Proof.
  cbv zeta. eexists. split; [|
  eapply (create_client_twice sample_lower
            (mkClientCreate "Al" "AL@Example.com" SIMPLE) "c9"
            (mkClientCreate "Alan" "al@EXAMPLE.COM" COMPLEX) "c10"
            (clean_session intake_without_items));
    [ vm_compute; reflexivity | reflexivity | reflexivity | reflexivity ] ].
  reflexivity.
Defined.

Lemma create_client_keeps_emails_distinct_witness :
  let db := mkSession intake_without_items intake_without_items (Some 2%nat) in
  let p' := pending (session (create_client sample_lower
                                (mkClientCreate "Al" "AL@Example.com" SIMPLE) "c9" db)) in
  List.length (clients p') = 2%nat
  /\ NoDup (map Client.email (clients p'))
  /\ exists added, clients p' = clients (pending db) ++ added.
Proof.
  cbv zeta. split; [reflexivity|].
  apply (create_client_keeps_emails_distinct sample_lower
           (mkClientCreate "Al" "AL@Example.com" SIMPLE) "c9"
           (mkSession intake_without_items intake_without_items (Some 2%nat))).
  simpl. repeat constructor. simpl. tauto.
Defined.

(** ** Uploads *)

Lemma save_uploaded_file_Ok env file bucket_dir intake_id db saved db' :
  save_uploaded_file env file bucket_dir intake_id
    settings.ALLOWED_EXTENSIONS settings.MAX_FILE_SIZE db = Ok saved db' ->
  db' = db
  /\ upload_valid env file
  /\ exists stored_path mime_type,
       saved = (upload_content file, stored_path, mime_type,
                Z.of_nat (List.length (upload_content file))).
Proof.
  unfold save_uploaded_file, bind, validate_file_size, validate_file_type, upload_valid,
    ret, raise.
  destruct (Z.of_nat (List.length (upload_content file)) >? settings.MAX_FILE_SIZE) eqn:Es;
    [discriminate|]; cbv beta iota zeta.
  destruct (mem_string (suffix_lower env (upload_filename file))
              settings.ALLOWED_EXTENSIONS) eqn:Ee; [|discriminate]; cbv beta iota zeta.
  assert (Hs : Z.of_nat (List.length (upload_content file)) <= settings.MAX_FILE_SIZE).
  { rewrite Z.gtb_ltb in Es. now apply Z.ltb_ge. }
  destruct (guess_type env (upload_filename file)); simpl; intros H;
    injection H as <- <-; repeat split; eauto.
Qed.

Lemma save_uploaded_file_Raise env file bucket_dir intake_id db e db' :
  save_uploaded_file env file bucket_dir intake_id
    settings.ALLOWED_EXTENSIONS settings.MAX_FILE_SIZE db = Raise e db' ->
  db' = db
  /\ ((e = HTTPException 413
       /\ settings.MAX_FILE_SIZE < Z.of_nat (List.length (upload_content file)))
      \/ (e = HTTPException 400
          /\ Z.of_nat (List.length (upload_content file)) <= settings.MAX_FILE_SIZE
          /\ mem_string (suffix_lower env (upload_filename file))
               settings.ALLOWED_EXTENSIONS = false)).
Proof.
  unfold save_uploaded_file, bind, validate_file_size, validate_file_type, ret, raise.
  destruct (Z.of_nat (List.length (upload_content file)) >? settings.MAX_FILE_SIZE) eqn:Es;
    cbv beta iota zeta.
  - intros H. injection H as <- <-. split; [reflexivity|]. left.
    split; [reflexivity|]. now apply Z.gtb_lt.
  - assert (Hs : Z.of_nat (List.length (upload_content file)) <= settings.MAX_FILE_SIZE).
    { rewrite Z.gtb_ltb in Es. now apply Z.ltb_ge. }
    destruct (mem_string (suffix_lower env (upload_filename file))
                settings.ALLOWED_EXTENSIONS) eqn:Ee; cbn [negb].
    + destruct (guess_type env (upload_filename file)); discriminate.
    + intros H. injection H as <- <-. split; [reflexivity|]. right. auto.
Qed.

(** X13. When [upload_document] rejects an upload, it is with 404 because
    the intake does not exist, with 413 because the file exceeds the size
    limit, with 400 because its size is within the limit and its extension
    is not allowed, or with 409 because a document of the intake has the
    same fingerprint; in every case nothing has changed. *)
Theorem upload_document_rejects env intake_id file new_document_id db c db' :
  upload_document env intake_id file new_document_id db = Raise (HTTPException c) db' ->
  same_data db db'
  /\ ((c = 404
       /\ filter (fun r => String.eqb (Intake.id r) intake_id) (intakes (pending db)) = [])
      \/ (c = 413
          /\ settings.MAX_FILE_SIZE < Z.of_nat (List.length (upload_content file)))
      \/ (c = 400
          /\ Z.of_nat (List.length (upload_content file)) <= settings.MAX_FILE_SIZE
          /\ mem_string (suffix_lower env (upload_filename file))
               settings.ALLOWED_EXTENSIONS = false)
      \/ (c = 409
          /\ upload_valid env file
          /\ exists existing,
               In existing (documents (pending db))
               /\ Document.intake_id existing = intake_id
               /\ Document.sha256 existing
                  = calculate_sha256 env (upload_content file))).
Proof.
  unfold upload_document. intros H.
  apply bind_Raise in H. destruct H as [H|(rows & db1 & H1 & H)].
  { apply execute_select_Raise in H. destruct H as [H _]. discriminate. }
  apply execute_select_Ok in H1. destruct H1 as [-> Hs1].
  apply bind_Raise in H. destruct H as [H|(o & db2 & H2 & H)].
  { apply scalar_one_or_none_Raise in H. destruct H as [H _]. discriminate. }
  apply scalar_one_or_none_Ok in H2.
  destruct H2 as [-> [[Hnone ->]|(intake & Hrows & ->)]].
  { injection H as <- <-. split; [exact Hs1|]. left. now split. }
  apply bind_Raise in H. destruct H as [H|(saved & db3 & H3 & H)].
  { apply save_uploaded_file_Raise in H.
    destruct H as [-> [[E Hsize]|[E Hext]]]; injection E as <-;
      (split; [exact Hs1|]); auto. }
  apply save_uploaded_file_Ok in H3.
  destruct H3 as (-> & Hvalid & stored_path & mime_type & ->).
  apply bind_Raise in H. destruct H as [H|(rows4 & db4 & H4 & H)].
  { apply execute_select_Raise in H. destruct H as [H _]. discriminate. }
  apply execute_select_Ok in H4. destruct H4 as [-> Hs4].
  apply bind_Raise in H. destruct H as [H|(o5 & db5 & H5 & H)].
  { apply scalar_one_or_none_Raise in H. destruct H as [H _]. discriminate. }
  apply scalar_one_or_none_Ok in H5.
  destruct H5 as [-> [[_ ->]|(existing & Hex & ->)]].
  - exfalso.
    apply bind_Raise in H. destruct H as [H|(? & db6 & H6 & H)]; [discriminate|].
    apply bind_Raise in H. destruct H as [H|(? & db7 & H7 & H)].
    { apply flush_Raise in H. destruct H as [H _]. discriminate. }
    apply bind_Raise in H. destruct H as [H|(? & db8 & H8 & H)].
    { apply flush_Raise in H. destruct H as [H _]. discriminate. }
    discriminate.
  - injection H as <- <-. split; [exact (same_data_trans _ _ _ Hs1 Hs4)|].
    right. right. right. split; [reflexivity|]. split; [exact Hvalid|].
    exists existing.
    assert (Hin : In existing
                    (filter (fun r => String.eqb (Document.intake_id r) intake_id
                                      && String.eqb (Document.sha256 r)
                                           (calculate_sha256 env (upload_content file)))
                            (documents (pending db1))))
      by (rewrite Hex; now left).
    apply filter_In in Hin. destruct Hin as [Hin Hq].
    apply andb_true_iff in Hq. destruct Hq as [Hq1 Hq2].
    apply String.eqb_eq in Hq1, Hq2.
    destruct Hs1 as [Hp1 _]. rewrite Hp1 in Hin. auto.
Qed.

Lemma upload_document_rejects_witness :
  let db := mkSession two_intakes two_intakes (Some 7%nat) in
  let big := mkUploadFile "notes.txt" (repeat Byte.x00 0) in
  exists db',
    upload_document sample_env "i6" sample_upload "u2" db = Raise (HTTPException 409) db'
    /\ same_data db db'
    /\ ((409 = 404
         /\ filter (fun r => String.eqb (Intake.id r) "i6") (intakes (pending db)) = [])
        \/ (409 = 413
            /\ settings.MAX_FILE_SIZE
               < Z.of_nat (List.length (upload_content sample_upload)))
        \/ (409 = 400
            /\ Z.of_nat (List.length (upload_content sample_upload))
               <= settings.MAX_FILE_SIZE
            /\ mem_string (suffix_lower sample_env (upload_filename sample_upload))
                 settings.ALLOWED_EXTENSIONS = false)
        \/ (409 = 409
            /\ upload_valid sample_env sample_upload
            /\ exists existing,
                 In existing (documents (pending db))
                 /\ Document.intake_id existing = "i6"
                 /\ Document.sha256 existing
                    = calculate_sha256 sample_env (upload_content sample_upload))).
Proof.
  cbv zeta. eexists. split; [vm_compute; reflexivity|].
  eapply (upload_document_rejects sample_env "i6" sample_upload "u2"
            (mkSession two_intakes two_intakes (Some 7%nat)) 409).
  vm_compute. reflexivity.
Defined.

(** What a successful [upload_document] found and left in the view. *)
Lemma upload_document_rows env intake_id file new_document_id db d db' :
  upload_document env intake_id file new_document_id db = Ok d db' ->
  (exists intake,
      filter (fun r => String.eqb (Intake.id r) intake_id) (intakes (pending db)) = [intake])
  /\ upload_valid env file
  /\ filter (fun r => String.eqb (Document.intake_id r) intake_id
                      && String.eqb (Document.sha256 r)
                           (calculate_sha256 env (upload_content file)))
            (documents (pending db)) = []
  /\ (exists stored_path mime_type,
         d = Document.mk new_document_id intake_id (upload_filename file)
               (calculate_sha256 env (upload_content file)) mime_type
               (Z.of_nat (List.length (upload_content file))) stored_path UNKNOWN None)
  /\ pending db' = add_document d (pending db)
  /\ committed db' = committed db.
Proof.
  unfold upload_document. intros H.
  apply bind_Ok in H. destruct H as (rows & db1 & H1 & H).
  apply execute_select_Ok in H1. destruct H1 as [-> [Hp1 Hc1]].
  apply bind_Ok in H. destruct H as (o & db2 & H2 & H).
  apply scalar_one_or_none_Ok in H2.
  destruct H2 as [-> [[_ ->]|(intake & Hrows & ->)]]; [discriminate|].
  split; [now exists intake|].
  apply bind_Ok in H. destruct H as (saved & db3 & H3 & H).
  apply save_uploaded_file_Ok in H3.
  destruct H3 as (-> & Hvalid & stored_path & mime_type & ->).
  split; [exact Hvalid|].
  apply bind_Ok in H. destruct H as (rows4 & db4 & H4 & H).
  apply execute_select_Ok in H4. destruct H4 as [-> [Hp4 Hc4]].
  apply bind_Ok in H. destruct H as (o5 & db5 & H5 & H).
  apply scalar_one_or_none_Ok in H5.
  destruct H5 as [-> [[Hnone ->]|(? & _ & ->)]]; [|discriminate].
  rewrite Hp1 in Hnone. split; [exact Hnone|].
  apply bind_Ok in H. destruct H as (? & db6 & H6 & H). apply modify_Ok in H6.
  apply bind_Ok in H. destruct H as (? & db7 & H7 & H). apply flush_Ok in H7.
  apply bind_Ok in H. destruct H as (? & db8 & H8 & H). apply refresh_Ok in H8.
  injection H as <- <-.
  destruct H6 as [H6 H6c], H7 as [H7 H7c], H8 as [H8 H8c].
  split; [eauto|]. split; congruence.
Qed.

(** X14. After a successful [upload_document], a second upload of the same
    bytes to the same intake, under any file name that passes validation, in
    a session that sees the stored document and has no failing round trip,
    is rejected with 409 and stores nothing. *)
Theorem upload_document_twice env intake_id file1 id1 file2 id2 db d db1 db2 :
  upload_document env intake_id file1 id1 db = Ok d db1 ->
  pending db2 = pending db1 ->
  faults db2 = None ->
  upload_content file2 = upload_content file1 ->
  mem_string (suffix_lower env (upload_filename file2)) settings.ALLOWED_EXTENSIONS = true ->
  upload_document env intake_id file2 id2 db2 = Raise (HTTPException 409) db2.
Proof.
  intros H Hp Hf Hc Hext.
  apply upload_document_rows in H.
  destruct H as ((intake & Hintake) & [Hsize _] & Hnone & (path & mime & ->) & Hp1 & _).
  assert (Hvalid : upload_valid env file2) by (split; [now rewrite Hc|exact Hext]).
  destruct (save_uploaded_file_valid env file2 settings.BUCKET_DIR intake_id db2 Hvalid)
    as (stored_path & mime_type & Hsave).
  unfold upload_document, bind.
  rewrite execute_select_no_faults by assumption.
  rewrite Hp, Hp1. cbn [intakes add_document]. rewrite Hintake. cbn [scalar_one_or_none ret].
  rewrite Hsave. rewrite execute_select_no_faults by assumption.
  rewrite Hp, Hp1, Hc. cbn [documents add_document].
  rewrite filter_app, Hnone. cbn [filter Document.intake_id Document.sha256 app].
  rewrite !String.eqb_refl. reflexivity.
Qed.

Lemma upload_document_twice_witness :
  let db := clean_session two_intakes in
  let db1 := session (upload_document sample_env "i7" sample_upload "u2" db) in
  let db2 := mkSession (pending db1) (pending db1) None in
  let again := mkUploadFile "T4_sample_duplicate.JPG" (upload_content sample_upload) in
  List.length (documents (pending db1)) = 2%nat
  /\ upload_document sample_env "i7" again "u3" db2 = Raise (HTTPException 409) db2.
Proof.
  cbv zeta. split; [reflexivity|].
  eapply (upload_document_twice sample_env "i7" sample_upload "u2"
            (mkUploadFile "T4_sample_duplicate.JPG" (upload_content sample_upload)) "u3"
            (clean_session two_intakes)).
  - vm_compute. reflexivity.
  - reflexivity.
  - reflexivity.
  - reflexivity.
  - reflexivity.
Defined.

Lemma idx_intake_sha256_add d s :
  idx_intake_sha256 s ->
  filter (fun r => String.eqb (Document.intake_id r) (Document.intake_id d)
                   && String.eqb (Document.sha256 r) (Document.sha256 d))
         (documents s) = [] ->
  idx_intake_sha256 (add_document d s).
Proof.
  intros Hidx Hnone i h. cbn [documents add_document].
  rewrite filter_app, length_app. cbn [filter].
  destruct (String.eqb_spec (Document.intake_id d) i) as [Ei|Ei];
    [destruct (String.eqb_spec (Document.sha256 d) h) as [Eh|Eh]|]; cbn.
  - subst i h. rewrite Hnone. simpl. lia.
  - specialize (Hidx i h). lia.
  - specialize (Hidx i h). lia.
Qed.

(** X15. Whatever its outcome and whichever round trip fails,
    [upload_document] keeps the fingerprints of the documents of every
    intake distinct in the session's view (the unique index on intake and
    SHA-256), removes or changes no document and adds at most one. *)
Theorem upload_document_keeps_index env intake_id file new_document_id db :
  idx_intake_sha256 (pending db) ->
  let p' := pending (session (upload_document env intake_id file new_document_id db)) in
  idx_intake_sha256 p'
  /\ (documents p' = documents (pending db)
      \/ exists d, documents p' = documents (pending db) ++ [d]
                   /\ Document.intake_id d = intake_id
                   /\ Document.doc_kind d = UNKNOWN
                   /\ Document.extracted_data d = None).
Proof.
  intros Hidx. cbv zeta. destruct db as [p c f]. cbn [pending] in Hidx.
  assert (Hsame : idx_intake_sha256 p
                  /\ (documents p = documents p
                      \/ exists d, documents p = documents p ++ [d]
                                   /\ Document.intake_id d = intake_id
                                   /\ Document.doc_kind d = UNKNOWN
                                   /\ Document.extracted_data d = None))
    by (split; [exact Hidx|now left]).
  unfold upload_document, bind, execute_select, round_trip.
  cbn [faults pending committed].
  assert (Hsave : forall db0,
             (exists e, save_uploaded_file env file settings.BUCKET_DIR intake_id
                          settings.ALLOWED_EXTENSIONS settings.MAX_FILE_SIZE db0
                        = Raise e db0)
             \/ exists stored_path mime_type,
                  save_uploaded_file env file settings.BUCKET_DIR intake_id
                    settings.ALLOWED_EXTENSIONS settings.MAX_FILE_SIZE db0
                  = Ok (upload_content file, stored_path, mime_type,
                        Z.of_nat (List.length (upload_content file))) db0).
  { intros db0.
    destruct (save_uploaded_file env file settings.BUCKET_DIR intake_id
                settings.ALLOWED_EXTENSIONS settings.MAX_FILE_SIZE db0)
      as [saved db1|e db1] eqn:E.
    - apply save_uploaded_file_Ok in E. destruct E as (-> & _ & sp & mt & ->).
      right. eauto.
    - apply save_uploaded_file_Raise in E. destruct E as [-> _]. left. eauto. }
  destruct (filter (fun r => String.eqb (Intake.id r) intake_id) (intakes p))
    as [|intake [|? ?]];
    destruct f as [[|[|[|[|n]]]]|]; cbn [scalar_one_or_none ret raise session pending];
    try exact Hsame.
  all: match goal with
       | |- context [save_uploaded_file _ _ _ _ _ _ ?db0] =>
           destruct (Hsave db0) as [[e ->]|(sp & mt & ->)]
       end; cbn [session pending faults committed]; try exact Hsame.
  all: destruct (filter (fun r => String.eqb (Document.intake_id r) intake_id
                                  && String.eqb (Document.sha256 r)
                                       (calculate_sha256 env (upload_content file)))
                   (documents p)) as [|x [|y l]] eqn:Hq;
    cbn -[idx_intake_sha256 add_document]; try exact Hsame.
  all: (split; [apply idx_intake_sha256_add; [exact Hidx|exact Hq]|]).
  all: right; eexists; split; [reflexivity|]; repeat split.
Qed.

Lemma upload_document_keeps_index_witness :
  let db := mkSession two_intakes two_intakes (Some 3%nat) in
  let p' := pending (session (upload_document sample_env "i7" sample_upload "u2" db)) in
  List.length (documents p') = 2%nat
  /\ idx_intake_sha256 p'
  /\ (documents p' = documents (pending db)
      \/ exists d, documents p' = documents (pending db) ++ [d]
                   /\ Document.intake_id d = "i7"
                   /\ Document.doc_kind d = UNKNOWN
                   /\ Document.extracted_data d = None).
Proof.
  cbv zeta. split; [reflexivity|].
  apply (upload_document_keeps_index sample_env "i7" sample_upload "u2"
           (mkSession two_intakes two_intakes (Some 3%nat))).
  exact idx_intake_sha256_two_intakes.
Defined.

(** ** Extraction *)

Lemma try_except_raise_Ok {A} (body : M A) e0 db a db' :
  try_except body (fun _ => raise e0) db = Ok a db' -> body db = Ok a db'.
Proof.
  unfold try_except, raise. destruct (body db); [auto|discriminate].
Qed.

Lemma filter_document_written (x : Document.t) l document_id :
  Document.id x = document_id ->
  filter (fun r => String.eqb (Document.id r) document_id)
         (map (fun r => if String.eqb (Document.id r) (Document.id x) then x else r) l)
  = map (fun _ => x) (filter (fun r => String.eqb (Document.id r) document_id) l).
Proof.
  intros Hx. rewrite Hx. induction l as [|r l IH]; simpl; [reflexivity|].
  destruct (String.eqb (Document.id r) document_id) eqn:E; simpl.
  - rewrite Hx, String.eqb_refl. simpl. now f_equal.
  - rewrite E. exact IH.
Qed.

Lemma update_checklist_for_document_documents document db :
  documents (committed db) = documents (pending db) ->
  let db' := session (update_checklist_for_document document db) in
  documents (pending db') = documents (pending db)
  /\ documents (committed db') = documents (pending db).
Proof.
  intros Hc.
  apply (update_checklist_for_document_both
           (fun s => documents s = documents (pending db)) document db).
  - split; [reflexivity|exact Hc].
  - intros item _. split; [reflexivity|]. intros intake. reflexivity.
Qed.

(** X16. A successful [extract_document] found exactly one document with the
    key, of a kind other than unknown; the field map it returns is the dump
    of what the extractor of the document's kind answered for the document's
    stored path, with the number of its non-null fields, and it leaves that
    document, in the session's view and in the committed database, with
    this field map and otherwise as it was. *)
Theorem extract_document_stores svc document_id db response db' :
  extract_document svc document_id db = Ok response db' ->
  exists document,
    filter (fun r => String.eqb (Document.id r) document_id) (documents (pending db))
    = [document]
    /\ Document.doc_kind document <> UNKNOWN
    /\ extracted_document_id response = document_id
    /\ extracted_doc_kind response = Document.doc_kind document
    /\ match Document.doc_kind document with
       | T4 => option_map T4Extraction.model_dump
                 (qwen3vl_service.extract_t4 svc (Document.stored_path document))
       | ID => option_map IDExtraction.model_dump
                 (qwen3vl_service.extract_id svc (Document.stored_path document))
       | RECEIPT => option_map ReceiptExtraction.model_dump
                      (qwen3vl_service.extract_receipt svc (Document.stored_path document))
       | UNKNOWN => None
       end = Some (extracted_fields response)
    /\ fields_extracted response = count_fields (extracted_fields response)
    /\ filter (fun r => String.eqb (Document.id r) document_id) (documents (pending db'))
       = [Document.set_extracted_data document (Some (extracted_fields response))]
    /\ filter (fun r => String.eqb (Document.id r) document_id) (documents (committed db'))
       = [Document.set_extracted_data document (Some (extracted_fields response))].
Proof.
  unfold extract_document. intros H.
  apply bind_Ok in H. destruct H as (rows & db1 & H1 & H).
  apply execute_select_Ok in H1. destruct H1 as [-> [Hp1 Hc1]].
  apply bind_Ok in H. destruct H as (o & db2 & H2 & H).
  apply scalar_one_or_none_Ok in H2.
  destruct H2 as [-> [[_ ->]|(document & Hrows & ->)]]; [discriminate|].
  exists document. split; [exact Hrows|].
  destruct (DocKind_eqb (Document.doc_kind document) UNKNOWN) eqn:Ek; [discriminate|].
  split; [intros E; rewrite E in Ek; discriminate|].
  apply try_except_raise_Ok in H.
  apply bind_Ok in H. destruct H as (ex & db3 & H3 & H).
  destruct ex as [extraction|]; [|discriminate].
  assert (Hex : db3 = db1
                /\ match Document.doc_kind document with
                   | T4 => option_map T4Extraction.model_dump
                             (qwen3vl_service.extract_t4 svc (Document.stored_path document))
                   | ID => option_map IDExtraction.model_dump
                             (qwen3vl_service.extract_id svc (Document.stored_path document))
                   | RECEIPT => option_map ReceiptExtraction.model_dump
                                  (qwen3vl_service.extract_receipt svc
                                     (Document.stored_path document))
                   | UNKNOWN => None
                   end = Some (model_dump extraction)).
  { unfold extract_by_kind in H3.
    destruct (Document.doc_kind document); try discriminate;
      match type of H3 with context [option_map _ ?o] => destruct o end;
      try discriminate; cbn in H3; injection H3 as <- <-; now split. }
  destruct Hex as [-> Hex].
  apply bind_Ok in H. destruct H as (? & db4 & H4 & H). apply modify_Ok in H4.
  apply bind_Ok in H. destruct H as (? & db5 & H5 & H). apply commit_Ok in H5.
  apply bind_Ok in H. destruct H as (? & db6 & H6 & H). apply refresh_Ok in H6.
  apply bind_Ok in H. destruct H as (? & db7 & H7 & H).
  injection H as <- <-. cbn [extracted_document_id extracted_doc_kind fields_extracted
                               extracted_fields Document.id Document.doc_kind
                               Document.set_extracted_data].
  assert (Hid : Document.id document = document_id).
  { assert (Hin : In document (filter (fun r => String.eqb (Document.id r) document_id)
                                 (documents (pending db)))) by (rewrite Hrows; now left).
    apply filter_In in Hin. now apply String.eqb_eq. }
  split; [exact Hid|]. split; [reflexivity|]. split; [exact Hex|]. split; [reflexivity|].
  set (document' := Document.set_extracted_data document (Some (model_dump extraction))) in *.
  destruct H4 as [H4 _], H5 as [H5 H5c], H6 as [H6 H6c].
  assert (Hp6 : pending db6 = write_document document' (pending db)) by congruence.
  assert (Hc6 : committed db6 = write_document document' (pending db)) by congruence.
  destruct (update_checklist_for_document_documents document' db6) as [Hd1 Hd2];
    [congruence|].
  rewrite H7 in Hd1, Hd2. cbn [session] in Hd1, Hd2.
  rewrite Hd1, Hd2, Hp6. cbn [documents write_document].
  assert (Hid' : Document.id document' = document_id) by exact Hid.
  rewrite (filter_document_written document' _ _ Hid'), Hrows. auto.
Qed.

Lemma extract_document_stores_witness :
  let db := clean_session intake_with_cleared_receipt in
  exists response db',
    extract_document sample_service "r2" db = Ok response db'
    /\ exists document,
         filter (fun r => String.eqb (Document.id r) "r2") (documents (pending db))
         = [document]
         /\ Document.doc_kind document <> UNKNOWN
         /\ extracted_document_id response = "r2"
         /\ extracted_doc_kind response = Document.doc_kind document
         /\ match Document.doc_kind document with
            | T4 => option_map T4Extraction.model_dump
                      (qwen3vl_service.extract_t4 sample_service
                         (Document.stored_path document))
            | ID => option_map IDExtraction.model_dump
                      (qwen3vl_service.extract_id sample_service
                         (Document.stored_path document))
            | RECEIPT => option_map ReceiptExtraction.model_dump
                           (qwen3vl_service.extract_receipt sample_service
                              (Document.stored_path document))
            | UNKNOWN => None
            end = Some (extracted_fields response)
         /\ fields_extracted response = count_fields (extracted_fields response)
         /\ filter (fun r => String.eqb (Document.id r) "r2") (documents (pending db'))
            = [Document.set_extracted_data document (Some (extracted_fields response))]
         /\ filter (fun r => String.eqb (Document.id r) "r2") (documents (committed db'))
            = [Document.set_extracted_data document (Some (extracted_fields response))].
Proof.
  cbv zeta. do 2 eexists. split; [vm_compute; reflexivity|].
  eapply (extract_document_stores sample_service "r2"
            (clean_session intake_with_cleared_receipt)).
  vm_compute. reflexivity.
Defined.

(** X17. While the model raises on every call, [classify_document] and
    [extract_document] change nothing, whichever round trip fails; without a
    failing round trip and for a document that exists, the first raises 500
    and the second raises 400 for a document of unknown kind and 500
    otherwise. *)
Theorem service_down_changes_nothing svc document_id db :
  service_down svc ->
  same_data db (session (classify_document svc document_id db))
  /\ same_data db (session (extract_document svc document_id db))
  /\ (faults db = None ->
      forall document,
        filter (fun r => String.eqb (Document.id r) document_id) (documents (pending db))
        = [document] ->
        classify_document svc document_id db = Raise (HTTPException 500) db
        /\ extract_document svc document_id db
           = Raise (HTTPException (if DocKind_eqb (Document.doc_kind document) UNKNOWN
                                   then 400 else 500)) db).
Proof.
  intros Hdown.
  assert (Hc : forall d db0, classify_kind svc d db0 = Raise ServiceError db0).
  { intros d db0. unfold classify_kind.
    destruct (Hdown (Document.stored_path d)) as (-> & _). reflexivity. }
  assert (He : forall d db0, Document.doc_kind d <> UNKNOWN ->
                             extract_by_kind svc d db0 = Raise ServiceError db0).
  { intros d db0 Hk. unfold extract_by_kind.
    destruct (Hdown (Document.stored_path d)) as (_ & -> & -> & ->).
    destruct (Document.doc_kind d); try reflexivity. now elim Hk. }
  assert (Hk : forall d, DocKind_eqb (Document.doc_kind d) UNKNOWN = false ->
                         Document.doc_kind d <> UNKNOWN)
    by (intros d E1 E2; rewrite E2 in E1; discriminate).
  split; [|split].
  - unfold classify_document, bind, try_except, execute_select, round_trip.
    destruct db as [p c f]. cbn [faults pending committed].
    destruct f as [[|n]|]; cbn [session]; try apply same_data_refl;
      destruct (filter _ (documents p)) as [|d [|? ?]]; cbn [scalar_one_or_none ret raise];
      try rewrite Hc; cbn; split; reflexivity.
  - unfold extract_document, bind, try_except, execute_select, round_trip.
    destruct db as [p c f]. cbn [faults pending committed].
    destruct f as [[|n]|]; cbn [session]; try apply same_data_refl;
      destruct (filter _ (documents p)) as [|d [|? ?]]; cbn [scalar_one_or_none ret raise];
      try (split; reflexivity);
      destruct (DocKind_eqb (Document.doc_kind d) UNKNOWN) eqn:Ek;
      try (split; reflexivity);
      rewrite (He d _ (Hk d Ek)); cbn; split; reflexivity.
  - intros Hf document Hrows. split.
    + unfold classify_document, bind, try_except.
      rewrite execute_select_no_faults by assumption. rewrite Hrows.
      cbn [scalar_one_or_none ret]. rewrite Hc. reflexivity.
    + unfold extract_document, bind, try_except.
      rewrite execute_select_no_faults by assumption. rewrite Hrows.
      cbn [scalar_one_or_none ret].
      destruct (DocKind_eqb (Document.doc_kind document) UNKNOWN) eqn:Ek; [reflexivity|].
      rewrite (He document _ (Hk document Ek)). reflexivity.
Qed.

Lemma service_down_changes_nothing_witness :
  let db := clean_session intake_with_cleared_receipt in
  same_data db (session (classify_document failing_service "r2" db))
  /\ same_data db (session (extract_document failing_service "r2" db))
  /\ (faults db = None ->
      forall document,
        filter (fun r => String.eqb (Document.id r) "r2") (documents (pending db))
        = [document] ->
        classify_document failing_service "r2" db = Raise (HTTPException 500) db
        /\ extract_document failing_service "r2" db
           = Raise (HTTPException (if DocKind_eqb (Document.doc_kind document) UNKNOWN
                                   then 400 else 500)) db).
Proof.
  cbv zeta.
  apply (service_down_changes_nothing failing_service "r2"
           (clean_session intake_with_cleared_receipt)).
  intros path. repeat split.
Defined.

Lemma extract_each_skips svc classified_docs extracted db :
  Forall (fun d => truthy (Document.extracted_data d) = true) classified_docs ->
  extract_each svc classified_docs extracted db = Ok extracted db.
Proof.
  induction 1 as [|d l Hd _ IH]; simpl; [reflexivity|].
  unfold bind. rewrite Hd. cbn [ret]. exact IH.
Qed.

(** X18. When every classified document of the intake already has extracted
    data, [extract_intake_documents] calls no extractor and changes nothing,
    whichever round trip fails, and what it returns is an empty list of
    extractions. *)
Theorem extract_intake_documents_skips svc intake_id db :
  (forall d, In d (documents (pending db)) ->
             Document.intake_id d = intake_id ->
             Document.doc_kind d <> UNKNOWN ->
             truthy (Document.extracted_data d) = true) ->
  same_data db (session (extract_intake_documents svc intake_id db))
  /\ forall r db', extract_intake_documents svc intake_id db = Ok r db' -> r = (0%nat, []).
Proof.
  intros Hall. destruct db as [p c f]. cbn [pending] in Hall.
  set (q := fun r => String.eqb (Document.intake_id r) intake_id
                     && negb (DocKind_eqb (Document.doc_kind r) UNKNOWN)).
  assert (Hq : Forall (fun d => truthy (Document.extracted_data d) = true)
                 (filter q (documents p))).
  { apply Forall_forall. intros d Hd. apply filter_In in Hd. destruct Hd as [Hd Hqd].
    unfold q in Hqd. apply andb_true_iff in Hqd. destruct Hqd as [H1 H2].
    apply String.eqb_eq in H1. apply Hall; auto.
    intros E. rewrite E in H2. discriminate. }
  unfold extract_intake_documents, bind, execute_select, round_trip. fold q.
  cbn [faults pending committed].
  assert (Hstop : forall (e : Exn) db0,
             same_data db0 db0
             /\ forall (r : nat * list ExtractionResponse) db',
                  Raise e db0 = Ok r db' -> r = (0%nat, []))
    by (intros e db0; split; [apply same_data_refl|discriminate]).
  destruct (filter (fun r => String.eqb (Intake.id r) intake_id) (intakes p))
    as [|intake [|? ?]];
    destruct f as [[|[|n]]|]; cbn -[filter extract_each];
    try apply Hstop;
    try (split; [split; reflexivity|discriminate]).
  all: destruct (filter q (documents p)) as [|d l] eqn:Hdocs;
    cbn -[filter extract_each];
    try (split; [split; reflexivity|discriminate]).
  all: rewrite (extract_each_skips svc _ [] _ Hq); cbn;
    (split; [split; reflexivity|intros ? ? E; now injection E as <- _]).
Qed.

Lemma extract_intake_documents_skips_witness :
  let db := clean_session intake_ready_for_done in
  extract_intake_documents sample_service "i5" db = Ok (0%nat, []) db
  /\ same_data db (session (extract_intake_documents sample_service "i5" db))
  /\ forall r db',
       extract_intake_documents sample_service "i5" db = Ok r db' -> r = (0%nat, []).
Proof.
  cbv zeta. split; [reflexivity|].
  apply (extract_intake_documents_skips sample_service "i5"
           (clean_session intake_ready_for_done)).
  intros d [<-|[<-|[]]] _ _; reflexivity.
Defined.

(** ** Models *)

(** X19. Incrementing a checklist item [n] times adds [n] to its received
    quantity, keeps its expected quantity, and makes it received as soon as
    one increment has brought the received quantity to the expected one;
    until then its status is what it was. *)
Theorem increment_received_iter :
  forall (item : ChecklistItem.t) (n : nat),
    let item' := Nat.iter n ChecklistItem.increment_received item in
    ChecklistItem.quantity_received item'
    = ChecklistItem.quantity_received item + Z.of_nat n
    /\ ChecklistItem.quantity_expected item' = ChecklistItem.quantity_expected item
    /\ ChecklistItem.doc_kind item' = ChecklistItem.doc_kind item
    /\ ChecklistItem.status item'
       = if (0 <? Z.of_nat n)
            && (ChecklistItem.quantity_received item + Z.of_nat n
                >=? ChecklistItem.quantity_expected item)
         then RECEIVED else ChecklistItem.status item.
Proof.
  intros item n. cbv zeta. induction n as [|n (IH1 & IH2 & IH3 & IH4)].
  - simpl. rewrite Z.add_0_r. auto.
  - rewrite Nat.iter_succ.
    set (prev := Nat.iter n ChecklistItem.increment_received item) in *.
    unfold ChecklistItem.increment_received, ChecklistItem.is_complete.
    cbn [ChecklistItem.quantity_received ChecklistItem.quantity_expected
         ChecklistItem.set_quantity_received].
    rewrite IH1, IH2.
    assert (E : ChecklistItem.quantity_received item + Z.of_nat n + 1
                = ChecklistItem.quantity_received item + Z.of_nat (S n)) by lia.
    rewrite E.
    assert (Hpos : (0 <? Z.of_nat (S n)) = true) by (apply Z.ltb_lt; lia).
    rewrite Hpos. cbn [andb].
    destruct (ChecklistItem.quantity_received item + Z.of_nat (S n)
              >=? ChecklistItem.quantity_expected item) eqn:Ege; simpl.
    + repeat split; auto.
    + repeat split; auto. rewrite IH4.
      destruct (0 <? Z.of_nat n); [|reflexivity]. cbn [andb].
      assert (G : (ChecklistItem.quantity_received item + Z.of_nat n
                   >=? ChecklistItem.quantity_expected item) = false).
      { rewrite Z.geb_leb in *. apply Z.leb_gt. apply Z.leb_gt in Ege. lia. }
      now rewrite G.
Qed.

Lemma filter_missing_where intake_id l :
  filter (missing_where intake_id) l
  = filter (fun r => ChecklistStatus_eqb (ChecklistItem.status r) MISSING)
           (filter (fun r => String.eqb (ChecklistItem.intake_id r) intake_id) l).
Proof.
  induction l as [|r l IH]; simpl; [reflexivity|].
  unfold missing_where at 1.
  destruct (String.eqb (ChecklistItem.intake_id r) intake_id); simpl.
  - destruct (ChecklistStatus_eqb (ChecklistItem.status r) MISSING); now rewrite IH.
  - exact IH.
Qed.

Lemma is_complete_no_missing l :
  l <> [] ->
  Intake.is_complete l
  = Nat.eqb (List.length
               (filter (fun r => ChecklistStatus_eqb (ChecklistItem.status r) MISSING) l)) 0.
Proof.
  intros Hne. unfold Intake.is_complete. destruct l as [|a l]; [now elim Hne|].
  clear Hne. generalize (a :: l). intros l'.
  induction l' as [|r l' IH]; simpl; [reflexivity|].
  destruct (ChecklistItem.status r); simpl; [reflexivity|exact IH].
Qed.

(** X20. The criterion of the status re-evaluation, that no item of the
    intake is missing, is [Intake.is_complete] on every intake that has a
    checklist item, and is true where [Intake.is_complete] is false on an
    intake that has none; accordingly [Intake.update_status] gives the
    status that the re-evaluation aims at exactly on the intakes with an
    item. *)
Theorem none_missing_is_complete :
  forall (intake_id : string) (s : Store) (intake : Intake.t),
    let loaded := filter (fun r => String.eqb (ChecklistItem.intake_id r) intake_id)
                         (checklist_items s) in
    none_missing intake_id s
    = match loaded with
      | [] => true
      | _ :: _ => Intake.is_complete loaded
      end
    /\ Intake.status (Intake.update_status intake loaded)
       = match loaded with
         | [] => OPEN
         | _ :: _ => if none_missing intake_id s then DONE else OPEN
         end.
Proof.
  intros intake_id s intake loaded.
  assert (H : none_missing intake_id s
              = match loaded with
                | [] => true
                | _ :: _ => Intake.is_complete loaded
                end).
  { unfold none_missing. rewrite filter_missing_where. fold loaded.
    destruct loaded as [|a l] eqn:E; [reflexivity|].
    symmetry. apply is_complete_no_missing. discriminate. }
  split; [exact H|].
  unfold Intake.update_status. rewrite H.
  destruct loaded as [|a l]; [reflexivity|].
  destruct (Intake.is_complete (a :: l)); reflexivity.
Qed.

(** ** Bounds of the read view *)

(** X21. Every view that [get_intake_checklist] returns was read without
    changing anything; its overall progress and the percentage of each of
    its items lie between [0.0] and [100.0]; each item's completion flag
    says whether it has received what it expects, the view's flag is
    [Intake.is_complete] of the intake's items; and with a positive total
    expected, the overall progress is [100.0] when the totals are equal,
    and, for totals up to [checked_quantity], only then. *)
Theorem get_intake_checklist_bounds intake_id db response db' :
  get_intake_checklist intake_id db = Ok response db' ->
  same_data db db'
  /\ Float.leb Float.zero (overall_progress response) = true
  /\ Float.leb (overall_progress response) Float.hundred = true
  /\ Forall within_bounds (items response)
  /\ is_complete response
     = Intake.is_complete
         (filter (fun r => String.eqb (ChecklistItem.intake_id r) intake_id)
                 (checklist_items (pending db)))
  /\ (0 < total_expected response ->
      total_received response = total_expected response ->
      overall_progress response = Float.hundred)
  /\ (0 < total_expected response <= checked_quantity ->
      0 <= total_received response <= checked_quantity ->
      (overall_progress response = Float.hundred
       <-> total_received response = total_expected response)).
Proof.
  intros H.
  destruct (get_intake_checklist_Ok _ _ _ _ H)
    as (Hsame & _ & Hcomplete & _ & Hte & Htr & Hp & Hq0 & Hq1 & Hbounds).
  rewrite <- Hte, <- Htr in Hp.
  split; [exact Hsame|]. split; [exact Hq0|]. split; [exact Hq1|].
  split; [exact Hbounds|]. split; [exact Hcomplete|]. split.
  - intros Hpos E.
    assert (G : (total_expected response >? 0) = true) by (apply Z.gtb_lt; lia).
    rewrite G, E in Hp. fold (percentage (total_expected response)
                                (total_expected response)) in Hp.
    rewrite percentage_same in Hp by lia. now injection Hp.
  - intros Hte' Htr'.
    assert (G : (total_expected response >? 0) = true) by (apply Z.gtb_lt; lia).
    rewrite G in Hp.
    fold (percentage (total_received response) (total_expected response)) in Hp.
    destruct (percentage_facts _ _ Htr' Hte') as (p & Hp' & _ & _ & Hfull).
    rewrite Hp in Hp'. injection Hp' as <-. exact Hfull.
Qed.

Lemma get_intake_checklist_bounds_witness :
  let db := clean_session intake_partial in
  exists response db',
    get_intake_checklist "i8" db = Ok response db'
    /\ total_received response <> total_expected response
    /\ same_data db db'
    /\ Float.leb Float.zero (overall_progress response) = true
    /\ Float.leb (overall_progress response) Float.hundred = true
    /\ Forall within_bounds (items response)
    /\ is_complete response
       = Intake.is_complete
           (filter (fun r => String.eqb (ChecklistItem.intake_id r) "i8")
                   (checklist_items (pending db)))
    /\ (0 < total_expected response ->
        total_received response = total_expected response ->
        overall_progress response = Float.hundred)
    /\ (0 < total_expected response <= checked_quantity ->
        0 <= total_received response <= checked_quantity ->
        (overall_progress response = Float.hundred
         <-> total_received response = total_expected response)).
Proof.
  cbv zeta. do 2 eexists. split; [vm_compute; reflexivity|].
  split; [discriminate|].
  eapply (get_intake_checklist_bounds "i8" (clean_session intake_partial)).
  vm_compute. reflexivity.
Defined.

(** ** Classification *)

Lemma prefix_append sub s :
  String.prefix sub s = true <-> exists post, s = String.append sub post.
Proof.
  revert s. induction sub as [|a sub IH]; intros s; simpl.
  - split; [intros _; now exists s|destruct s; reflexivity].
  - destruct s as [|b s]; simpl.
    + split; [discriminate|intros (post & H); discriminate].
    + destruct (Ascii.ascii_dec a b) as [->|Hne].
      * rewrite IH. split; intros (post & H); exists post; [now rewrite H|].
        now injection H.
      * split; [discriminate|]. intros (post & H). injection H as E _. now elim Hne.
Qed.

(** [contains] is the substring test. *)
Lemma contains_append sub s :
  contains sub s = true
  <-> exists pre post, s = String.append pre (String.append sub post).
Proof.
  induction s as [|b s IH]; cbn [contains].
  - rewrite orb_false_r, prefix_append. split.
    + intros (post & H). now exists EmptyString, post.
    + intros (pre & post & H). destruct pre; simpl in H; [now exists post|discriminate].
  - rewrite orb_true_iff, prefix_append, IH. split.
    + intros [(post & H)|(pre & post & H)].
      * now exists EmptyString, post.
      * exists (String b pre), post. simpl. now rewrite H.
    + intros (pre & post & H). destruct pre as [|c pre]; simpl in H.
      * left. now exists post.
      * right. injection H as _ H. now exists pre, post.
Qed.

(** X22. Whatever the model answers, the kind that
    [Qwen3VLService.classify_document] returns is a value of the
    enumeration, so [classify_kind] on it never raises [ValueError]; an
    answer in which [t4] occurs is a T4, and an answer without [t4] in
    which the letters [id] occur anywhere is an ID, also when it names a
    receipt or an invoice. *)
Theorem doc_kind_of_output_valid :
  forall (model : string -> option string) (output_text : string)
         (document : Document.t) (db : AsyncSession),
    let svc := qwen3vl_service.mk
                 (fun path => option_map doc_kind_of_output (model path))
                 (fun _ => None) (fun _ => None) (fun _ => None) in
    (exists k, DocKind_of_value (doc_kind_of_output output_text) = Some k)
    /\ (classify_kind svc document db = Raise ServiceError db
        \/ exists k, classify_kind svc document db = Ok k db)
    /\ (contains "t4" output_text = true ->
        DocKind_of_value (doc_kind_of_output output_text) = Some T4)
    /\ (contains "t4" output_text = false ->
        (exists pre post,
            output_text = String.append pre (String.append "id" post)) ->
        DocKind_of_value (doc_kind_of_output output_text) = Some ID).
Proof.
  intros model output_text document db svc.
  assert (Hvalid : forall t, exists k, DocKind_of_value (doc_kind_of_output t) = Some k).
  { intros t. unfold doc_kind_of_output.
    destruct (contains "t4" t); [now exists T4|].
    destruct (contains "id" t || contains "license" t || contains "passport" t);
      [now exists ID|].
    destruct (contains "receipt" t || contains "invoice" t);
      [now exists RECEIPT|now exists UNKNOWN]. }
  split; [apply Hvalid|]. split; [|split].
  - unfold classify_kind, svc. cbn [qwen3vl_service.classify_document].
    destruct (model (Document.stored_path document)) as [t|]; cbn [option_map];
      [|now left].
    destruct (Hvalid t) as [k ->]. right. now exists k.
  - intros H. unfold doc_kind_of_output. now rewrite H.
  - intros H Hid. apply contains_append in Hid.
    unfold doc_kind_of_output. now rewrite H, Hid.
Qed.

Lemma keyword_score_le keywords text_lower :
  (keyword_score keywords text_lower <= List.length keywords)%nat.
Proof. apply filter_length_le. Qed.

Ltac kind_case Hconf :=
  solve [ repeat split; intros;
          try discriminate; try lia; try congruence;
          try (eapply proj1, Hconf; lia);
          try (eapply proj2, Hconf; lia) ].

(** X23. [OCRService.classify_document] returns the text it was given, and
    the unknown kind exactly when no keyword list scores 2 or more; it
    returns T4 exactly when the T4 score is the highest and at least 2, so
    that T4 wins every tie, and ID only when the ID score is the highest, at
    least 2 and above the T4 score; the confidence of a known kind lies
    between the floats [0.6] and [0.95]. *)
Theorem ocr_classify_document_kind :
  forall (lower : string -> string) (text : string),
    let t4_score := keyword_score t4_keywords (lower text) in
    let id_score := keyword_score id_keywords (lower text) in
    let receipt_score := keyword_score receipt_keywords (lower text) in
    let '(kind, confidence, returned) := ocr_classify_document lower text in
    returned = text
    /\ (kind = UNKNOWN
        <-> (t4_score <= 1 /\ id_score <= 1 /\ receipt_score <= 1)%nat)
    /\ (kind = T4
        <-> (2 <= t4_score /\ id_score <= t4_score /\ receipt_score <= t4_score)%nat)
    /\ (kind = ID
        <-> (2 <= id_score /\ t4_score < id_score /\ receipt_score <= id_score)%nat)
    /\ (kind = RECEIPT
        <-> (2 <= receipt_score /\ t4_score < receipt_score
             /\ id_score < receipt_score)%nat)
    /\ (kind <> UNKNOWN ->
        Float.leb (Float.literal 6 10) confidence = true
        /\ Float.leb confidence (Float.literal 95 100) = true).
Proof.
  intros lower text. cbv zeta. unfold ocr_classify_document.
  set (a := keyword_score t4_keywords (lower text)).
  set (b := keyword_score id_keywords (lower text)).
  set (c := keyword_score receipt_keywords (lower text)).
  assert (Hconf : forall n, (2 <= n <= 14)%nat ->
                            Float.leb (Float.literal 6 10) (confidence_of_score n) = true
                            /\ Float.leb (confidence_of_score n) (Float.literal 95 100)
                               = true).
  { intros n Hn.
    do 15 (destruct n as [|n]; [first [lia | vm_compute; split; reflexivity]|]).
    lia. }
  pose proof (keyword_score_le t4_keywords (lower text)) as Ha.
  pose proof (keyword_score_le id_keywords (lower text)) as Hb.
  pose proof (keyword_score_le receipt_keywords (lower text)) as Hc.
  fold a in Ha. fold b in Hb. fold c in Hc.
  cbn [List.length t4_keywords id_keywords receipt_keywords] in Ha, Hb, Hc.
  destruct (Nat.eqb_spec (Nat.max a (Nat.max b c)) 0) as [E0|E0];
    [kind_case Hconf|].
  destruct (Nat.eqb_spec a (Nat.max a (Nat.max b c))) as [Ea|Ea];
    destruct (Nat.leb_spec 2 a) as [La|La]; cbn [andb]; try kind_case Hconf.
  all: destruct (Nat.eqb_spec b (Nat.max a (Nat.max b c))) as [Eb|Eb];
    destruct (Nat.leb_spec 2 b) as [Lb|Lb]; cbn [andb]; try kind_case Hconf.
  all: destruct (Nat.eqb_spec c (Nat.max a (Nat.max b c))) as [Ec|Ec];
    destruct (Nat.leb_spec 2 c) as [Lc|Lc]; cbn [andb]; kind_case Hconf.
Qed.

(** * Runs of the service *)

(** ** Results together with what is kept *)

Lemma returns_with_ret {A} (P : AsyncSession -> Prop) (V : A -> Prop) a :
  V a -> returns_with P V (ret a).
Proof. intros Ha db H. now split. Qed.

Lemma returns_with_raise {A} (P : AsyncSession -> Prop) (V : A -> Prop) e :
  returns_with P V (raise e).
Proof. intros db H. exact H. Qed.

Lemma returns_with_bind {A B} (P : AsyncSession -> Prop) (V : A -> Prop)
    (W : B -> Prop) (m : M A) (k : A -> M B) :
  returns_with P V m -> (forall a, V a -> returns_with P W (k a)) ->
  returns_with P W (bind m k).
Proof.
  intros Hm Hk db H. specialize (Hm db H). unfold bind.
  destruct (m db) as [a db1|e db1]; [|exact Hm].
  destruct Hm as [H1 Ha]. exact (Hk a Ha db1 H1).
Qed.

Lemma returns_with_try_except {A} (P : AsyncSession -> Prop) (V W : A -> Prop)
    (body : M A) handler :
  returns_with P V body -> (forall a, V a -> W a) ->
  (forall e, returns_with P W (handler e)) ->
  returns_with P W (try_except body handler).
Proof.
  intros Hm HV Hk db H. specialize (Hm db H). unfold try_except.
  destruct (body db) as [a db1|e db1].
  - destruct Hm as [H1 Ha]. split; [exact H1|now apply HV].
  - exact (Hk e db1 Hm).
Qed.

Lemma returns_with_preserves {A} (P : AsyncSession -> Prop) (m : M A) :
  preserves P m -> returns_with P (fun _ => True) m.
Proof.
  intros Hm db H. specialize (Hm db H).
  destruct (m db); simpl in Hm; [now split|exact Hm].
Qed.

Lemma preserves_returns_with {A} (P : AsyncSession -> Prop) (V : A -> Prop) (m : M A) :
  returns_with P V m -> preserves P m.
Proof.
  intros Hm db H. specialize (Hm db H).
  destruct (m db); simpl; [apply Hm|exact Hm].
Qed.

Lemma returns_with_execute_select {T} (R : Store -> Prop) (V : T -> Prop)
    (table : Store -> list T) where_ :
  (forall s, R s -> Forall V (table s)) ->
  returns_with (both R) (Forall V) (execute_select table where_).
Proof.
  intros HV db H. unfold execute_select, round_trip.
  assert (G : Forall V (filter where_ (table (pending db)))).
  { destruct H as [H _]. apply HV in H. rewrite Forall_forall in *.
    intros x Hx. apply filter_In in Hx. apply H, Hx. }
  destruct (faults db) as [[|n]|]; [exact H| |]; split; assumption.
Qed.

Lemma returns_with_scalar_one_or_none {T} (P : AsyncSession -> Prop) (V : T -> Prop)
    (rows : list T) :
  Forall V rows ->
  returns_with P (fun o => forall r, o = Some r -> V r) (scalar_one_or_none rows).
Proof.
  intros HV db H. destruct rows as [|r [|? ?]]; simpl; [split| |]; auto.
  - discriminate.
  - split; [exact H|]. intros r' E. injection E as <-. now inversion HV.
Qed.

(** ** No stored field map is empty *)

Lemma model_dump_nonempty extraction : model_dump extraction <> [].
Proof. destruct extraction; discriminate. Qed.

Lemma no_empty_map_write_document d s :
  Document.extracted_data d <> Some [] ->
  no_empty_map s -> no_empty_map (write_document d s).
Proof.
  unfold no_empty_map. intros Hd H. simpl. apply Forall_map.
  rewrite Forall_forall in *. intros r Hr.
  destruct (String.eqb _ _); [exact Hd|now apply H].
Qed.

Lemma no_empty_map_add_document d s :
  Document.extracted_data d <> Some [] ->
  no_empty_map s -> no_empty_map (add_document d s).
Proof.
  unfold no_empty_map. intros Hd H. simpl. apply Forall_app. split; [exact H|].
  now constructor.
Qed.

Lemma no_empty_map_documents s s' :
  documents s' = documents s -> no_empty_map s -> no_empty_map s'.
Proof. unfold no_empty_map. now intros ->. Qed.

(** The two service functions write no document. *)
Lemma check_and_update_intake_status_keeps_documents (R : Store -> Prop) i :
  (forall s s', documents s' = documents s -> R s -> R s') ->
  preserves (both R) (check_and_update_intake_status i).
Proof.
  intros HR. apply check_and_update_intake_status_both.
  intros intake s. now apply HR.
Qed.

Lemma update_checklist_for_document_keeps_documents (R : Store -> Prop) document :
  (forall s s', documents s' = documents s -> R s -> R s') ->
  preserves (both R) (update_checklist_for_document document).
Proof.
  intros HR. unfold update_checklist_for_document.
  destruct (_ || _); [apply keeps_ret|].
  apply keeps_bind; [apply keeps_execute_select|intros rows].
  apply keeps_bind; [apply keeps_scalar_one_or_none|intros [item|]].
  2: apply keeps_ret.
  apply keeps_bind; [apply keeps_execute_select|intros docs].
  apply keeps_bind; [apply keeps_modify; intros s; now apply HR|intros _].
  apply keeps_bind; [apply keeps_commit|intros _].
  now apply check_and_update_intake_status_keeps_documents.
Qed.

Lemma create_intake_keeps_documents (R : Store -> Prop) client_id fiscal_year
    new_intake_id item_ids :
  (forall s s', documents s' = documents s -> R s -> R s') ->
  preserves (both R) (create_intake client_id fiscal_year new_intake_id item_ids).
Proof.
  intros HR. unfold create_intake.
  apply keeps_bind; [apply keeps_execute_select|intros rows].
  apply keeps_bind; [apply keeps_scalar_one_or_none|intros [client|]].
  2: apply keeps_raise.
  apply keeps_bind; [apply keeps_execute_select|intros rows'].
  apply keeps_bind; [apply keeps_scalar_one_or_none|intros [existing|]].
  1: apply keeps_raise.
  apply keeps_bind; [apply keeps_modify; intros s; now apply HR|intros _].
  apply keeps_bind; [apply keeps_flush|intros _].
  apply keeps_bind; [apply keeps_flush|intros _].
  apply keeps_bind; [apply keeps_modify; intros s; now apply HR|intros _].
  apply keeps_bind; [apply keeps_flush|intros _].
  apply keeps_bind; [apply keeps_execute_select_intakes_selectinload|intros rows2].
  intros db H. now destruct rows2 as [|? [|? ?]].
Qed.

Lemma no_empty_map_upload_document env i file new_document_id :
  preserves (both no_empty_map) (upload_document env i file new_document_id).
Proof.
  unfold upload_document.
  apply keeps_bind; [apply keeps_execute_select|intros rows].
  apply keeps_bind; [apply keeps_scalar_one_or_none|intros [intake|]].
  2: apply keeps_raise.
  apply keeps_bind.
  { unfold save_uploaded_file, validate_file_size, validate_file_type.
    apply keeps_bind.
    { destruct (_ >? _); [apply keeps_raise|apply keeps_ret]. }
    intros _. apply keeps_bind; [|intros mime; apply keeps_ret].
    destruct (negb _); [apply keeps_raise|].
    destruct (guess_type _ _); apply keeps_ret. }
  intros [[[content path] mime] size].
  apply keeps_bind; [apply keeps_execute_select|intros rows'].
  apply keeps_bind; [apply keeps_scalar_one_or_none|intros [existing|]].
  1: apply keeps_raise.
  apply keeps_bind; [|intros _].
  { apply keeps_modify. intros s. apply no_empty_map_add_document. discriminate. }
  apply keeps_bind; [apply keeps_flush|intros _].
  apply keeps_bind; [apply keeps_flush|intros _].
  apply keeps_ret.
Qed.

Lemma no_empty_map_select_documents where_ :
  returns_with (both no_empty_map)
    (Forall (fun r => Document.extracted_data r <> Some []))
    (execute_select documents where_).
Proof. apply returns_with_execute_select. intros s H. exact H. Qed.

Lemma no_empty_map_classify_document svc document_id :
  preserves (both no_empty_map) (classify_document svc document_id).
Proof.
  eapply preserves_returns_with with (V := fun _ => True).
  unfold classify_document.
  eapply returns_with_bind; [apply no_empty_map_select_documents|intros rows Hrows].
  eapply returns_with_bind;
    [apply returns_with_scalar_one_or_none; exact Hrows|intros [document|] Hd].
  2: apply returns_with_raise.
  specialize (Hd document eq_refl). apply returns_with_preserves.
  apply keeps_try_except; [|intros e; apply keeps_raise].
  apply keeps_bind; [apply keeps_classify_kind|intros k].
  apply keeps_bind; [|intros _].
  { apply keeps_modify. intros s. now apply no_empty_map_write_document. }
  apply keeps_bind; [apply keeps_commit|intros _].
  apply keeps_bind; [apply keeps_flush|intros _].
  apply keeps_ret.
Qed.

Lemma no_empty_map_classify_each svc unknown_docs :
  Forall (fun r => Document.extracted_data r <> Some []) unknown_docs ->
  forall classified,
    preserves (both no_empty_map) (classify_each svc unknown_docs classified).
Proof.
  induction 1 as [|document rest Hd _ IH]; intros classified; simpl.
  - apply keeps_ret.
  - apply keeps_bind; [|intros c; apply IH].
    apply keeps_try_except; [|intros e; apply keeps_ret].
    apply keeps_bind; [apply keeps_classify_kind|intros k].
    apply keeps_bind; [|intros _; apply keeps_ret].
    apply keeps_modify. intros s. now apply no_empty_map_write_document.
Qed.

Lemma no_empty_map_classify_intake_documents svc i :
  preserves (both no_empty_map) (classify_intake_documents svc i).
Proof.
  eapply preserves_returns_with with (V := fun _ => True).
  unfold classify_intake_documents.
  eapply returns_with_bind;
    [apply returns_with_preserves, keeps_execute_select|intros rows _].
  eapply returns_with_bind;
    [apply returns_with_preserves, keeps_scalar_one_or_none|intros [intake|] _].
  2: apply returns_with_raise.
  eapply returns_with_bind; [apply no_empty_map_select_documents|intros docs Hdocs].
  destruct docs as [|d docs]; [apply returns_with_raise|].
  apply returns_with_preserves.
  apply keeps_bind; [now apply no_empty_map_classify_each|intros classified].
  apply keeps_bind; [apply keeps_commit|intros _].
  apply keeps_ret.
Qed.

(** What an extraction stores is the dump of a schema, which has the keys of
    the schema's fields. *)
Lemma no_empty_map_store_extraction document extraction :
  preserves (both no_empty_map)
    (modify (write_document
               (Document.set_extracted_data document (Some (model_dump extraction))))).
Proof.
  apply keeps_modify. intros s. apply no_empty_map_write_document. simpl.
  intros E. injection E as E. now apply model_dump_nonempty in E.
Qed.

Lemma no_empty_map_extract_document svc document_id :
  preserves (both no_empty_map) (extract_document svc document_id).
Proof.
  unfold extract_document.
  apply keeps_bind; [apply keeps_execute_select|intros rows].
  apply keeps_bind; [apply keeps_scalar_one_or_none|intros [document|]].
  2: apply keeps_raise.
  destruct (DocKind_eqb _ UNKNOWN); [apply keeps_raise|].
  apply keeps_try_except; [|intros e; apply keeps_raise].
  apply keeps_bind; [apply keeps_extract_by_kind|intros [extraction|]].
  2: apply keeps_raise.
  apply keeps_bind; [apply no_empty_map_store_extraction|intros _].
  apply keeps_bind; [apply keeps_commit|intros _].
  apply keeps_bind; [apply keeps_flush|intros _].
  apply keeps_bind; [|intros _; apply keeps_ret].
  apply update_checklist_for_document_keeps_documents, no_empty_map_documents.
Qed.

Lemma no_empty_map_extract_each svc classified_docs :
  forall extracted,
    preserves (both no_empty_map) (extract_each svc classified_docs extracted).
Proof.
  induction classified_docs as [|document rest IH]; intros extracted; simpl.
  - apply keeps_ret.
  - apply keeps_bind; [|intros c; apply IH].
    destruct (truthy _); [apply keeps_ret|].
    apply keeps_try_except; [|intros e; apply keeps_ret].
    apply keeps_bind; [apply keeps_extract_by_kind|intros [extraction|]].
    2: apply keeps_ret.
    apply keeps_bind; [apply no_empty_map_store_extraction|intros _].
    apply keeps_bind; [apply keeps_commit|intros _].
    apply keeps_bind; [apply keeps_flush|intros _].
    apply keeps_bind; [|intros _; apply keeps_ret].
    apply update_checklist_for_document_keeps_documents, no_empty_map_documents.
Qed.

Lemma no_empty_map_extract_intake_documents svc i :
  preserves (both no_empty_map) (extract_intake_documents svc i).
Proof.
  unfold extract_intake_documents.
  apply keeps_bind; [apply keeps_execute_select|intros rows].
  apply keeps_bind; [apply keeps_scalar_one_or_none|intros [intake|]].
  2: apply keeps_raise.
  apply keeps_bind; [apply keeps_execute_select|intros [|d docs]].
  1: apply keeps_raise.
  apply keeps_bind; [apply no_empty_map_extract_each|intros extracted].
  apply keeps_ret.
Qed.

(** Every operation of the service, however it ends, leaves the stored
    field maps non-empty. *)
Lemma run_operation_no_empty_map op db :
  both no_empty_map db -> both no_empty_map (run_operation op db).
Proof.
  intros H. destruct op; cbn [run_operation].
  - now apply create_intake_keeps_documents; [apply no_empty_map_documents|].
  - now apply no_empty_map_upload_document.
  - now apply no_empty_map_classify_document.
  - now apply no_empty_map_extract_document.
  - now apply no_empty_map_classify_intake_documents.
  - now apply no_empty_map_extract_intake_documents.
  - now apply update_checklist_for_document_keeps_documents;
      [apply no_empty_map_documents|].
  - now apply check_and_update_intake_status_keeps_documents;
      [apply no_empty_map_documents|].
  - now apply keeps_get_intake_checklist.
  - destruct H as [H1 H2]. destruct keep; split; assumption.
Qed.

Lemma run_operations_no_empty_map ops db :
  both no_empty_map db -> both no_empty_map (run_operations ops db).
Proof.
  unfold run_operations. revert db.
  induction ops as [|op ops IH]; intros db H; simpl; [exact H|].
  apply IH. exact (run_operation_no_empty_map op db H).
Qed.

(** ** The recount over the runs of the service *)

(** A reconciliation without a failing round trip that locates its item
    leaves the documents as they were, in the session's view and in the
    committed database. *)
Lemma update_checklist_for_document_committed_documents document db item :
  faults db = None ->
  DocKind_eqb (Document.doc_kind document) UNKNOWN
    || negb (truthy (Document.extracted_data document)) = false ->
  filter (item_where document) (checklist_items (pending db)) = [item] ->
  let db' := session (update_checklist_for_document document db) in
  documents (pending db') = documents (pending db)
  /\ documents (committed db') = documents (pending db).
Proof.
  intros H Hg Hf. rewrite update_checklist_for_document_run by assumption.
  rewrite Hg, Hf. cbv zeta.
  set (s := write_checklist_item _ _).
  destruct (check_and_update_intake_status_frame (Document.intake_id document)
              (mkSession s s None) eq_refl) as (_ & Hd & Hc).
  simpl in Hd, Hc. split; [exact Hd|].
  destruct Hc as [-> | ->]; [reflexivity|exact Hd].
Qed.

(** C1. After any run of the service's operations, in whatever order, from
    a database without an empty field map (the empty database is one), a
    reconciliation triggered by a document of kind K in intake I that
    locates the checklist item of (I, K) leaves that item with
    [quantity_received] equal to the number of documents of I and K whose
    field map is not null and not empty, in the session's view and in the
    committed database. *)
Theorem update_checklist_recount ops db0 document item :
  both no_empty_map db0 ->
  let db := run_operations ops db0 in
  faults db = None ->
  NoDup (map ChecklistItem.id (checklist_items (pending db))) ->
  Document.doc_kind document <> UNKNOWN ->
  truthy (Document.extracted_data document) = true ->
  filter (item_where document) (checklist_items (pending db)) = [item] ->
  let db' := session (update_checklist_for_document document db) in
  exists item',
    filter (item_where document) (checklist_items (pending db')) = [item']
    /\ filter (item_where document) (checklist_items (committed db')) = [item']
    /\ ChecklistItem.quantity_received item' = is_extracted_count document (pending db')
    /\ ChecklistItem.quantity_received item' = is_extracted_count document (committed db').
Proof.
  intros H0 db Hf Hnd Hk Ht Hitem db'.
  assert (Hinv : both no_empty_map db) by now apply run_operations_no_empty_map.
  assert (Hg : DocKind_eqb (Document.doc_kind document) UNKNOWN
               || negb (truthy (Document.extracted_data document)) = false).
  { rewrite Ht. destruct (Document.doc_kind document); try reflexivity. now elim Hk. }
  destruct (update_checklist_for_document_items document db item Hf Hg Hitem)
    as (Hp & Hc & _).
  destruct (update_checklist_for_document_committed_documents document db item Hf Hg Hitem)
    as (Hdp & Hdc).
  fold db' in Hp, Hc, Hdp, Hdc.
  set (item' := recounted document (pending db) item) in *.
  assert (Hlookup : filter (item_where document)
                      (checklist_items (write_checklist_item item' (pending db))) = [item']).
  { simpl. apply filter_written with (item := item); auto.
    - apply recounted_id.
    - unfold item'. rewrite recounted_where.
      assert (H : In item (filter (item_where document) (checklist_items (pending db))))
        by (rewrite Hitem; now left).
      now apply filter_In in H. }
  assert (Hcount : ChecklistItem.quantity_received item'
                   = is_extracted_count document (pending db)).
  { unfold item'. rewrite recounted_quantity_received.
    apply extracted_count_is_extracted. apply Hinv. }
  exists item'. rewrite Hp, Hc. unfold is_extracted_count. rewrite Hdp, Hdc.
  repeat split; assumption.
Qed.

Lemma update_checklist_recount_witness :
  let document := Document.mk "u1" "i9" "a.jpg" "first" "image/jpeg" 5
                    "bucket/i9/first.jpg" RECEIPT
                    (Some (ReceiptExtraction.model_dump
                             (ReceiptExtraction.mk (Some "Depot") (Some "$12.50")
                                None None))) in
  let db := run_operations two_receipts (clean_session one_client) in
  let db' := session (update_checklist_for_document document db) in
  In document (documents (pending db))
  /\ is_extracted_count document (pending db') = 2
  /\ exists item',
       filter (item_where document) (checklist_items (pending db')) = [item']
       /\ filter (item_where document) (checklist_items (committed db')) = [item']
       /\ ChecklistItem.quantity_received item'
          = is_extracted_count document (pending db')
       /\ ChecklistItem.quantity_received item'
          = is_extracted_count document (committed db').
Proof.
  cbv zeta. split; [vm_compute; now left|]. split; [reflexivity|].
  apply (update_checklist_recount two_receipts (clean_session one_client) _
           (ChecklistItem.mk "k19" "i9" RECEIPT RECEIVED 2 2)).
  - split; constructor.
  - reflexivity.
  - vm_compute. repeat constructor; simpl; intuition discriminate.
  - simpl. discriminate.
  - reflexivity.
  - reflexivity.
Defined.

(** ** Intakes without checklist items *)


















